(** * GratiDay data-access layer: Usuario, Categoria, Frase over a MySQL store

    A shallow embedding of the entity classes of the repository
    ([Usuario], [Categoria], [Frase]) and of the [Database] singleton they
    talk to, followed by the properties of the specification that concern
    them.

    Conventions of the embedding.
    - A JavaScript string is the list of its UTF-16 code units, so that
      [.length] is the length of the list.
    - A JavaScript number that holds an identifier, a count or a time value
      is an integer ([Z]); [null] is [None].
    - An [async] method is a state transformer over the process state
      ([World]: the shared connection, the store behind it, the clock and the
      entropy source) that either returns a value or throws.
    - An instance method also threads [this], because the classes mutate
      their fields in place. *)

From Stdlib Require Import Strings.String Strings.Ascii Strings.Byte.
From Stdlib Require Import ZArith List Bool Lia Sorted Permutation.
Import ListNotations.

Open Scope Z_scope.

(* ===================================================================== *)
(** * JavaScript strings *)
(* ===================================================================== *)

(** A string value: its UTF-16 code units. *)
Definition jsstring := list Z.

(** The code units of an ASCII literal of the source. *)
Definition js (s : string) : jsstring :=
  map (fun a => Z.of_N (N_of_ascii a)) (list_ascii_of_string s).

(** [s.length] *)
Definition len (s : jsstring) : Z := Z.of_nat (length s).

(** [a === b] on strings. *)
Fixpoint str_eqb (a b : jsstring) : bool :=
  match a, b with
  | [], [] => true
  | x :: a', y :: b' => (x =? y) && str_eqb a' b'
  | _, _ => false
  end.

(** Truthiness of a string: only the empty string is falsy. *)
Definition truthy_str (s : jsstring) : bool :=
  match s with [] => false | _ :: _ => true end.

(** Truthiness of a number held in a nullable field: [null] and [0] are
    falsy. *)
Definition truthy_num (n : option Z) : bool :=
  match n with None => false | Some z => negb (z =? 0) end.

(** ECMAScript WhiteSpace and LineTerminator code units: what
    [String.prototype.trim] strips and what [\s] matches. *)
Definition is_space (c : Z) : bool :=
  ((9 <=? c) && (c <=? 13))
  || (c =? 32) || (c =? 160) || (c =? 5760)
  || ((8192 <=? c) && (c <=? 8202))
  || (c =? 8232) || (c =? 8233) || (c =? 8239) || (c =? 8287)
  || (c =? 12288) || (c =? 65279).

Fixpoint trimStart (s : jsstring) : jsstring :=
  match s with
  | [] => []
  | c :: s' => if is_space c then trimStart s' else s
  end.

Definition trimEnd (s : jsstring) : jsstring := rev (trimStart (rev s)).

(** [s.trim()] *)
Definition trim (s : jsstring) : jsstring := trimEnd (trimStart s).

(** [arr.includes(x)] for an array of strings. *)
Definition includes (arr : list jsstring) (x : jsstring) : bool :=
  existsb (str_eqb x) arr.

(** [s.split(sep)] for a one-character separator: the segments between
    the occurrences of [sep] (at least one segment). *)
Fixpoint split (sep : Z) (s : jsstring) : list jsstring :=
  match s with
  | [] => [[]]
  | c :: s' =>
      if c =? sep then [] :: split sep s'
      else match split sep s' with
           | seg :: segs => (c :: seg) :: segs
           | [] => [[c]]
           end
  end.

(** [errors.join(sep)] on the messages of the source (kept as literals). *)
Fixpoint join (sep : string) (l : list string) : string :=
  match l with
  | [] => EmptyString
  | [x] => x
  | x :: l' => (x ++ sep ++ join sep l')%string
  end.

(* --------------------------------------------------------------------- *)
(** ** Regular expressions of the shape used by [isValidEmail] *)
(* --------------------------------------------------------------------- *)

(** A pattern anchored at both ends ([^ ... $]) made of literal characters
    and of [[class]+] repetitions. *)
Inductive re_item : Type :=
  | Lit (c : Z)
  | Plus (cls : Z -> bool).

(** Backtracking match of the whole string against the items in sequence. *)
Fixpoint re_test (items : list re_item) : jsstring -> bool :=
  match items with
  | [] => fun s => match s with [] => true | _ :: _ => false end
  | Lit c :: items' =>
      fun s => match s with
               | x :: s' => (x =? c) && re_test items' s'
               | [] => false
               end
  | Plus cls :: items' =>
      fix plus (s : jsstring) : bool :=
        match s with
        | x :: s' => cls x && (re_test items' s' || plus s')
        | [] => false
        end
  end.

(* --------------------------------------------------------------------- *)
(** ** Bytes: UTF-8 encoding of strings and hexadecimal rendering *)
(* --------------------------------------------------------------------- *)

Definition byte_of_Z (z : Z) : byte :=
  match Byte.of_N (Z.to_N (z mod 256)) with
  | Some b => b
  | None => x00
  end.

Definition Z_of_byte (b : byte) : Z := Z.of_N (Byte.to_N b).

Definition is_high_surrogate (c : Z) : bool := (55296 <=? c) && (c <=? 56319).
Definition is_low_surrogate (c : Z) : bool := (56320 <=? c) && (c <=? 57343).

(** UTF-8 bytes of a code point. *)
Definition utf8_of_code_point (cp : Z) : list byte :=
  if cp <? 128 then [byte_of_Z cp]
  else if cp <? 2048 then
    [byte_of_Z (192 + cp / 64); byte_of_Z (128 + cp mod 64)]
  else if cp <? 65536 then
    [byte_of_Z (224 + cp / 4096); byte_of_Z (128 + (cp / 64) mod 64);
     byte_of_Z (128 + cp mod 64)]
  else
    [byte_of_Z (240 + cp / 262144); byte_of_Z (128 + (cp / 4096) mod 64);
     byte_of_Z (128 + (cp / 64) mod 64); byte_of_Z (128 + cp mod 64)].

(** U+FFFD, which the encoder writes for a surrogate that has no partner. *)
Definition replacement_character : Z := 65533.

(** How Node turns a string argument into bytes ([Buffer.from(s, 'utf8')],
    which [crypto.pbkdf2Sync] applies to string arguments). *)
Fixpoint utf8_encode (s : jsstring) : list byte :=
  match s with
  | [] => []
  | c :: s' =>
      if is_high_surrogate c then
        match s' with
        | d :: s'' =>
            if is_low_surrogate d then
              utf8_of_code_point (65536 + (c - 55296) * 1024 + (d - 56320))
                ++ utf8_encode s''
            else utf8_of_code_point replacement_character ++ utf8_encode s'
        | [] => utf8_of_code_point replacement_character
        end
      else if is_low_surrogate c then
        utf8_of_code_point replacement_character ++ utf8_encode s'
      else utf8_of_code_point c ++ utf8_encode s'
  end.

(** The code unit of the hexadecimal digit of [n mod 16], lower case. *)
Definition hex_digit (n : Z) : Z :=
  let d := n mod 16 in
  if d <? 10 then 48 + d else 87 + d.

(** [buf.toString('hex')] *)
Fixpoint to_hex (bs : list byte) : jsstring :=
  match bs with
  | [] => []
  | b :: bs' =>
      hex_digit (Z_of_byte b / 16) :: hex_digit (Z_of_byte b) :: to_hex bs'
  end.

(* ===================================================================== *)
(** * Dates, errors and the shape of an asynchronous method *)
(* ===================================================================== *)

(** A [Date] object: a time value in milliseconds since the epoch, or the
    Invalid Date whose time value is NaN. *)
Inductive JsDate : Type :=
  | Instant (ms : Z)
  | InvalidDate.

(** [d <= new Date(now)]: comparison of the time values; every comparison
    with NaN is false. *)
Definition date_le_now (d : JsDate) (now : Z) : bool :=
  match d with
  | Instant ms => ms <=? now
  | InvalidDate => false
  end.

(** What a method can throw: an [Error] built by the entity classes, or an
    error coming from the driver, which carries a [code]. *)
Inductive JsError : Type :=
  | Error (message : string)
  | DriverError (code : string).

Inductive Outcome (A : Type) : Type :=
  | Return (a : A)
  | Throw (e : JsError).
Arguments Return {A} a.
Arguments Throw {A} e.

(** A computation over a state [S] that returns or throws. *)
Definition M (S A : Type) : Type := S -> Outcome A * S.

Definition ret {S A} (a : A) : M S A := fun s => (Return a, s).

Definition throw {S A} (e : JsError) : M S A := fun s => (Throw e, s).

Definition bind {S A B} (m : M S A) (k : A -> M S B) : M S B :=
  fun s =>
    match m s with
    | (Return a, s') => k a s'
    | (Throw e, s') => (Throw e, s')
    end.

(** [try { m } catch (error) { h error }] *)
Definition try_catch {S A} (m : M S A) (h : JsError -> M S A) : M S A :=
  fun s =>
    match m s with
    | (Return a, s') => (Return a, s')
    | (Throw e, s') => h e s'
    end.

Declare Scope js_scope.
Delimit Scope js_scope with js.
Notation "x <- m ;; k" := (bind m (fun x => k))
  (at level 100, m at next level, right associativity) : js_scope.
Notation "m ;;; k" := (bind m (fun _ => k))
  (at level 100, right associativity) : js_scope.

(** [error.code === c]; an [Error] built by the classes has no code. *)
Definition has_code (e : JsError) (c : string) : bool :=
  match e with
  | DriverError code => String.eqb code c
  | Error _ => false
  end.

(* ===================================================================== *)
(** * The relational store *)
(* ===================================================================== *)

(** The three tables of the schema, one record per row. *)
Module usuario.
Record row : Type := {
  id_user : Z;
  nombre : jsstring;
  correo_electronico : jsstring;
  password_hash : jsstring;
  fecha_creacion : Z;
  rol : jsstring
}.
End usuario.

Module categoria.
Record row : Type := {
  id_category : Z;
  nombre : jsstring;
  descripcion : option jsstring
}.
End categoria.

Module frase.
Record row : Type := {
  id_quote : Z;
  texto : jsstring;
  autor : option jsstring;
  fecha_creacion : Z;
  scheduled_at : option Z;
  status : jsstring;
  creado_por : Z;
  categoria_id : Z
}.

(** A row of the three-way join: [f.*] with the two joined names. *)
Record joined : Type := {
  f : row;
  creado_por_nombre : jsstring;
  categoria_nombre : jsstring
}.
End frase.

(** What the schema does to the quotes of a deleted parent row. The schema
    file is not part of the sources, so both actions are covered. *)
Inductive FkAction : Type := Restrict | Cascade.

Record Store : Type := {
  usuarios : list usuario.row;
  categorias : list categoria.row;
  frases : list frase.row;
  next_id_user : Z;
  next_id_category : Z;
  next_id_quote : Z;
  last_insert_id : Z;
  on_delete : FkAction
}.

(** One condition of a dynamically built [WHERE] clause, with the
    parameters bound to its placeholders. *)
Inductive Cond : Type :=
  | CondStatus (v : jsstring)
  | CondCategoria (v : Z)
  | CondCreadoPor (v : Z)
  | CondSearch (pattern_texto pattern_autor : jsstring).

(** The statements the entity classes send, each with its bound
    parameters in the order of the placeholders. *)
Inductive Stmt : Type :=
  | InsertUsuario (nombre correo_electronico password_hash rol : jsstring)
  | SelectUsuarioById (id : Z)
  | SelectUsuarioByEmail (email : jsstring)
  | UpdateUsuario (nombre correo_electronico rol : jsstring) (id : Z)
  | UpdateUsuarioPassword (password_hash : jsstring) (id : Z)
  | DeleteUsuario (id : Z)
  | InsertCategoria (nombre descripcion : jsstring)
  | UpdateCategoria (nombre descripcion : jsstring) (id : Z)
  | CountFrasesDeCategoria (id : Z)
  | DeleteCategoria (id : Z)
  | InsertFrase (texto autor : jsstring) (scheduled_at : option JsDate)
      (status : jsstring) (creado_por categoria_id : option Z)
  | UpdateFrase (texto autor : jsstring) (scheduled_at : option JsDate)
      (status : jsstring) (categoria_id : option Z) (id : Z)
  | DeleteFrase (id : Z)
  | SelectFrases (conds : list Cond) (limit offset : Z)
  | CountFrases (conds : list Cond)
  | SelectLastInsertId.

(** What [connection.execute] resolves to: the rows of a read, or the
    header of a write. *)
Inductive QResult : Type :=
  | UsuarioRows (rows : list usuario.row)
  | FraseRows (rows : list frase.joined)
  | CountRow (n : Z)
  | OkPacket (affectedRows insertId : Z).

(* --------------------------------------------------------------------- *)
(** ** Predicates of the statements *)
(* --------------------------------------------------------------------- *)

(** Case folding of the default collation, on the ASCII letters. *)
Definition fold_case (c : Z) : Z :=
  if (65 <=? c) && (c <=? 90) then c + 32 else c.

(** [subject LIKE pattern]: [%] is any run, [_] any character, a backslash
    takes the next character literally. *)
Fixpoint sql_like (pattern : jsstring) : jsstring -> bool :=
  match pattern with
  | [] => fun s => match s with [] => true | _ :: _ => false end
  | c :: p' =>
      if c =? 37 then
        fix any (s : jsstring) : bool :=
          sql_like p' s || match s with [] => false | _ :: s' => any s' end
      else if c =? 95 then
        fun s => match s with _ :: s' => sql_like p' s' | [] => false end
      else if c =? 92 then
        match p' with
        | l :: p'' =>
            fun s => match s with
                     | x :: s' => (fold_case x =? fold_case l) && sql_like p'' s'
                     | [] => false
                     end
        | [] =>
            fun s => match s with [x] => x =? 92 | _ => false end
        end
      else
        fun s => match s with
                 | x :: s' => (fold_case x =? fold_case c) && sql_like p' s'
                 | [] => false
                 end
  end.

(** [column = ?] on strings, under the same collation. *)
Definition sql_eq (a b : jsstring) : bool :=
  str_eqb (map fold_case a) (map fold_case b).

(** [LIKE] on a nullable column: NULL never matches. *)
Definition like_nullable (col : option jsstring) (pattern : jsstring) : bool :=
  match col with
  | Some s => sql_like pattern s
  | None => false
  end.

Definition cond_holds (c : Cond) (r : frase.row) : bool :=
  match c with
  | CondStatus v => sql_eq (frase.status r) v
  | CondCategoria v => frase.categoria_id r =? v
  | CondCreadoPor v => frase.creado_por r =? v
  | CondSearch p1 p2 =>
      sql_like p1 (frase.texto r) || like_nullable (frase.autor r) p2
  end.

(** The conditions of a [WHERE] clause are joined with [AND]. *)
Definition where_holds (conds : list Cond) (r : frase.row) : bool :=
  forallb (fun c => cond_holds c r) conds.

Definition usuario_exists (s : Store) (id : Z) : bool :=
  existsb (fun u => usuario.id_user u =? id) (usuarios s).

Definition categoria_exists (s : Store) (id : Z) : bool :=
  existsb (fun c => categoria.id_category c =? id) (categorias s).

(** [f JOIN usuario u ON f.creado_por = u.id_user
       JOIN categoria c ON f.categoria_id = c.id_category] *)
Definition join_frase (s : Store) (r : frase.row) : list frase.joined :=
  flat_map
    (fun u =>
       if frase.creado_por r =? usuario.id_user u then
         flat_map
           (fun c =>
              if frase.categoria_id r =? categoria.id_category c then
                [ {| frase.f := r;
                     frase.creado_por_nombre := usuario.nombre u;
                     frase.categoria_nombre := categoria.nombre c |} ]
              else [])
           (categorias s)
       else [])
    (usuarios s).

(** [ORDER BY f.fecha_creacion DESC]: a stable insertion sort. *)
Fixpoint insert_desc (x : frase.joined) (l : list frase.joined)
  : list frase.joined :=
  match l with
  | [] => [x]
  | y :: l' =>
      if frase.fecha_creacion (frase.f y) <=? frase.fecha_creacion (frase.f x)
      then x :: l
      else y :: insert_desc x l'
  end.

Definition order_by_fecha_desc (l : list frase.joined) : list frase.joined :=
  fold_right insert_desc [] l.

Definition status_enum : list jsstring :=
  [js "draft"; js "scheduled"; js "published"].

Definition rol_enum : list jsstring := [js "admin"; js "user"].

(* --------------------------------------------------------------------- *)
(** ** Execution of a statement *)
(* --------------------------------------------------------------------- *)

Definition with_usuarios (s : Store) (l : list usuario.row) : Store :=
  {| usuarios := l; categorias := categorias s; frases := frases s;
     next_id_user := next_id_user s; next_id_category := next_id_category s;
     next_id_quote := next_id_quote s; last_insert_id := last_insert_id s;
     on_delete := on_delete s |}.

Definition with_categorias (s : Store) (l : list categoria.row) : Store :=
  {| usuarios := usuarios s; categorias := l; frases := frases s;
     next_id_user := next_id_user s; next_id_category := next_id_category s;
     next_id_quote := next_id_quote s; last_insert_id := last_insert_id s;
     on_delete := on_delete s |}.

Definition with_frases (s : Store) (l : list frase.row) : Store :=
  {| usuarios := usuarios s; categorias := categorias s; frases := l;
     next_id_user := next_id_user s; next_id_category := next_id_category s;
     next_id_quote := next_id_quote s; last_insert_id := last_insert_id s;
     on_delete := on_delete s |}.

(** The store as a new connection finds it: [LAST_INSERT_ID()] belongs to
    the connection, and no row was inserted on this one. *)
Definition new_session (s : Store) : Store :=
  {| usuarios := usuarios s; categorias := categorias s; frases := frases s;
     next_id_user := next_id_user s; next_id_category := next_id_category s;
     next_id_quote := next_id_quote s; last_insert_id := 0;
     on_delete := on_delete s |}.

(** The value a [DATETIME] column takes from a bound [Date]. *)
Definition datetime_of (d : option JsDate) : option (option Z) :=
  match d with
  | None => Some None
  | Some (Instant ms) => Some (Some ms)
  | Some InvalidDate => None
  end.

Definition insert_usuario (now : Z) (nombre correo hash rol : jsstring)
    (s : Store) : (string + QResult) * Store :=
  if negb (includes rol_enum rol) then (inl "WARN_DATA_TRUNCATED"%string, s)
  else if existsb (fun u => sql_eq (usuario.correo_electronico u) correo)
            (usuarios s)
  then (inl "ER_DUP_ENTRY"%string, s)
  else
    let id := next_id_user s in
    let r := {| usuario.id_user := id; usuario.nombre := nombre;
                usuario.correo_electronico := correo;
                usuario.password_hash := hash;
                usuario.fecha_creacion := now; usuario.rol := rol |} in
    (inr (OkPacket 1 id),
     {| usuarios := usuarios s ++ [r]; categorias := categorias s;
        frases := frases s; next_id_user := id + 1;
        next_id_category := next_id_category s;
        next_id_quote := next_id_quote s; last_insert_id := id;
        on_delete := on_delete s |}).

Definition update_usuario (nombre correo rol : jsstring) (id : Z) (s : Store)
  : (string + QResult) * Store :=
  if negb (usuario_exists s id) then (inr (OkPacket 0 0), s)
  else if negb (includes rol_enum rol) then (inl "WARN_DATA_TRUNCATED"%string, s)
  else if existsb
            (fun u => negb (usuario.id_user u =? id)
                      && sql_eq (usuario.correo_electronico u) correo)
            (usuarios s)
  then (inl "ER_DUP_ENTRY"%string, s)
  else
    (inr (OkPacket 1 0),
     with_usuarios s
       (map (fun u =>
               if usuario.id_user u =? id then
                 {| usuario.id_user := usuario.id_user u;
                    usuario.nombre := nombre;
                    usuario.correo_electronico := correo;
                    usuario.password_hash := usuario.password_hash u;
                    usuario.fecha_creacion := usuario.fecha_creacion u;
                    usuario.rol := rol |}
               else u)
          (usuarios s))).

Definition update_usuario_password (hash : jsstring) (id : Z) (s : Store)
  : (string + QResult) * Store :=
  if negb (usuario_exists s id) then (inr (OkPacket 0 0), s)
  else
    (inr (OkPacket 1 0),
     with_usuarios s
       (map (fun u =>
               if usuario.id_user u =? id then
                 {| usuario.id_user := usuario.id_user u;
                    usuario.nombre := usuario.nombre u;
                    usuario.correo_electronico := usuario.correo_electronico u;
                    usuario.password_hash := hash;
                    usuario.fecha_creacion := usuario.fecha_creacion u;
                    usuario.rol := usuario.rol u |}
               else u)
          (usuarios s))).

Definition delete_usuario (id : Z) (s : Store)
  : (string + QResult) * Store :=
  if negb (usuario_exists s id) then (inr (OkPacket 0 0), s)
  else
    let kept := filter (fun u => negb (usuario.id_user u =? id)) (usuarios s) in
    match on_delete s with
    | Restrict =>
        if existsb (fun r => frase.creado_por r =? id) (frases s)
        then (inl "ER_ROW_IS_REFERENCED_2"%string, s)
        else (inr (OkPacket 1 0), with_usuarios s kept)
    | Cascade =>
        (inr (OkPacket 1 0),
         with_frases (with_usuarios s kept)
           (filter (fun r => negb (frase.creado_por r =? id)) (frases s)))
    end.

Definition insert_categoria (nombre descripcion : jsstring) (s : Store)
  : (string + QResult) * Store :=
  if existsb (fun c => sql_eq (categoria.nombre c) nombre) (categorias s)
  then (inl "ER_DUP_ENTRY"%string, s)
  else
    let id := next_id_category s in
    let r := {| categoria.id_category := id; categoria.nombre := nombre;
                categoria.descripcion := Some descripcion |} in
    (inr (OkPacket 1 id),
     {| usuarios := usuarios s; categorias := categorias s ++ [r];
        frases := frases s; next_id_user := next_id_user s;
        next_id_category := id + 1; next_id_quote := next_id_quote s;
        last_insert_id := id; on_delete := on_delete s |}).

Definition update_categoria (nombre descripcion : jsstring) (id : Z)
    (s : Store) : (string + QResult) * Store :=
  if negb (categoria_exists s id) then (inr (OkPacket 0 0), s)
  else if existsb
            (fun c => negb (categoria.id_category c =? id)
                      && sql_eq (categoria.nombre c) nombre)
            (categorias s)
  then (inl "ER_DUP_ENTRY"%string, s)
  else
    (inr (OkPacket 1 0),
     with_categorias s
       (map (fun c =>
               if categoria.id_category c =? id then
                 {| categoria.id_category := categoria.id_category c;
                    categoria.nombre := nombre;
                    categoria.descripcion := Some descripcion |}
               else c)
          (categorias s))).

(** [SELECT COUNT( * ) FROM frase WHERE categoria_id = ?] *)
Definition count_frases_de_categoria (id : Z) (s : Store) : Z :=
  Z.of_nat
    (length (filter (fun r => frase.categoria_id r =? id) (frases s))).

Definition delete_categoria (id : Z) (s : Store)
  : (string + QResult) * Store :=
  if negb (categoria_exists s id) then (inr (OkPacket 0 0), s)
  else
    let kept :=
      filter (fun c => negb (categoria.id_category c =? id)) (categorias s) in
    match on_delete s with
    | Restrict =>
        if 0 <? count_frases_de_categoria id s
        then (inl "ER_ROW_IS_REFERENCED_2"%string, s)
        else (inr (OkPacket 1 0), with_categorias s kept)
    | Cascade =>
        (inr (OkPacket 1 0),
         with_frases (with_categorias s kept)
           (filter (fun r => negb (frase.categoria_id r =? id)) (frases s)))
    end.

Definition insert_frase (now : Z) (texto autor : jsstring)
    (sched : option JsDate) (status : jsstring)
    (creado_por categoria_id : option Z) (s : Store)
  : (string + QResult) * Store :=
  match creado_por, categoria_id with
  | Some u, Some c =>
      if negb (includes status_enum status)
      then (inl "WARN_DATA_TRUNCATED"%string, s)
      else
        match datetime_of sched with
        | None => (inl "ER_TRUNCATED_WRONG_VALUE"%string, s)
        | Some at_ =>
            if negb (usuario_exists s u && categoria_exists s c)
            then (inl "ER_NO_REFERENCED_ROW_2"%string, s)
            else
              let id := next_id_quote s in
              let r := {| frase.id_quote := id; frase.texto := texto;
                          frase.autor := Some autor;
                          frase.fecha_creacion := now;
                          frase.scheduled_at := at_;
                          frase.status := status;
                          frase.creado_por := u;
                          frase.categoria_id := c |} in
              (inr (OkPacket 1 id),
               {| usuarios := usuarios s; categorias := categorias s;
                  frases := frases s ++ [r];
                  next_id_user := next_id_user s;
                  next_id_category := next_id_category s;
                  next_id_quote := id + 1; last_insert_id := id;
                  on_delete := on_delete s |})
        end
  | _, _ => (inl "ER_BAD_NULL_ERROR"%string, s)
  end.

(** [UPDATE frase SET texto = ?, autor = ?, scheduled_at = ?, status = ?,
    categoria_id = ? WHERE id_quote = ?]: the other columns of the row keep
    their values. *)
Definition set_frase (texto autor : jsstring) (at_ : option Z)
    (status : jsstring) (c : Z) (r : frase.row) : frase.row :=
  {| frase.id_quote := frase.id_quote r;
     frase.texto := texto;
     frase.autor := Some autor;
     frase.fecha_creacion := frase.fecha_creacion r;
     frase.scheduled_at := at_;
     frase.status := status;
     frase.creado_por := frase.creado_por r;
     frase.categoria_id := c |}.

Definition update_frase (texto autor : jsstring) (sched : option JsDate)
    (status : jsstring) (categoria_id : option Z) (id : Z) (s : Store)
  : (string + QResult) * Store :=
  if negb (existsb (fun r => frase.id_quote r =? id) (frases s))
  then (inr (OkPacket 0 0), s)
  else
    match categoria_id with
    | None => (inl "ER_BAD_NULL_ERROR"%string, s)
    | Some c =>
        if negb (includes status_enum status)
        then (inl "WARN_DATA_TRUNCATED"%string, s)
        else
          match datetime_of sched with
          | None => (inl "ER_TRUNCATED_WRONG_VALUE"%string, s)
          | Some at_ =>
              if negb (categoria_exists s c)
              then (inl "ER_NO_REFERENCED_ROW_2"%string, s)
              else
                (inr (OkPacket 1 0),
                 with_frases s
                   (map (fun r =>
                           if frase.id_quote r =? id
                           then set_frase texto autor at_ status c r
                           else r)
                      (frases s)))
          end
    end.

Definition delete_frase (id : Z) (s : Store) : (string + QResult) * Store :=
  if negb (existsb (fun r => frase.id_quote r =? id) (frases s))
  then (inr (OkPacket 0 0), s)
  else
    (inr (OkPacket 1 0),
     with_frases s (filter (fun r => negb (frase.id_quote r =? id)) (frases s))).

Definition select_frases (conds : list Cond) (limit offset : Z) (s : Store)
  : (string + QResult) * Store :=
  if (limit <? 0) || (offset <? 0) then (inl "ER_WRONG_ARGUMENTS"%string, s)
  else
    let matching := filter (where_holds conds) (frases s) in
    let rows := order_by_fecha_desc (flat_map (join_frase s) matching) in
    (inr (FraseRows (firstn (Z.to_nat limit) (skipn (Z.to_nat offset) rows))),
     s).

(** [SELECT COUNT( * ) as total FROM frase WHERE ...] *)
Definition count_frases (conds : list Cond) (s : Store) : Z :=
  Z.of_nat (length (filter (where_holds conds) (frases s))).

(** The store's answer to a statement at time [now]: an error code or a
    result, and the store afterwards. *)
Definition execute (now : Z) (q : Stmt) (s : Store)
  : (string + QResult) * Store :=
  match q with
  | InsertUsuario n c h r => insert_usuario now n c h r s
  | SelectUsuarioById id =>
      (inr (UsuarioRows
              (filter (fun u => usuario.id_user u =? id) (usuarios s))), s)
  | SelectUsuarioByEmail e =>
      (inr (UsuarioRows
              (filter (fun u => sql_eq (usuario.correo_electronico u) e)
                 (usuarios s))), s)
  | UpdateUsuario n c r id => update_usuario n c r id s
  | UpdateUsuarioPassword h id => update_usuario_password h id s
  | DeleteUsuario id => delete_usuario id s
  | InsertCategoria n d => insert_categoria n d s
  | UpdateCategoria n d id => update_categoria n d id s
  | CountFrasesDeCategoria id =>
      (inr (CountRow (count_frases_de_categoria id s)), s)
  | DeleteCategoria id => delete_categoria id s
  | InsertFrase t a d st u c => insert_frase now t a d st u c s
  | UpdateFrase t a d st c id => update_frase t a d st c id s
  | DeleteFrase id => delete_frase id s
  | SelectFrases conds limit offset => select_frases conds limit offset s
  | CountFrases conds => (inr (CountRow (count_frases conds s)), s)
  | SelectLastInsertId => (inr (CountRow (last_insert_id s)), s)
  end.

(* ===================================================================== *)
(** * The process state and the [Database] singleton *)
(* ===================================================================== *)

(** The state the methods act on: the store, the one connection of the
    process ([Database.instance.connection], here whether it is non-null),
    whether the server accepts connections, the wall clock, the entropy
    [crypto.randomBytes] draws from, and the statements handed to
    [connection.execute] so far. *)
Record World : Type := {
  store : Store;
  connection : bool;
  server_up : bool;
  clock : Z;
  entropy : nat -> list byte;
  draws : nat;
  trace : list Stmt
}.

Definition with_connection (w : World) (c : bool) : World :=
  {| store := store w; connection := c; server_up := server_up w;
     clock := clock w; entropy := entropy w; draws := draws w;
     trace := trace w |}.

Definition with_execution (w : World) (s : Store) (q : Stmt) : World :=
  {| store := s; connection := connection w; server_up := server_up w;
     clock := clock w; entropy := entropy w; draws := draws w;
     trace := trace w ++ [q] |}.

Definition with_draw (w : World) : World :=
  {| store := store w; connection := connection w; server_up := server_up w;
     clock := clock w; entropy := entropy w; draws := S (draws w);
     trace := trace w |}.

(** [new Date()] *)
Definition new_Date : M World Z := fun w => (Return (clock w), w).

(** [crypto.randomBytes(n)]: the next draw, cut or padded to [n] bytes. *)
Definition randomBytes (n : nat) : M World (list byte) :=
  fun w =>
    (Return (firstn n (entropy w (draws w) ++ repeat x00 n)), with_draw w).

Module Database.

(** [connect()]: nothing to do when the connection exists; otherwise
    [mysql.createConnection], which fails when the server is not there. *)
Definition connect : M World unit :=
  fun w =>
    if connection w then (Return tt, w)
    else if server_up w then (Return tt, with_connection w true)
    else (Throw (DriverError "ECONNREFUSED"), w).

(** [connection.execute(query, params)] *)
Definition run (q : Stmt) : M World QResult :=
  fun w =>
    match execute (clock w) q (store w) with
    | (inl code, s') => (Throw (DriverError code), with_execution w s' q)
    | (inr r, s') => (Return r, with_execution w s' q)
    end.

(** [query(query, params)]: connects first when there is no connection,
    and rethrows whatever fails. *)
Definition query (q : Stmt) : M World QResult :=
  (c <- (fun w => (Return (connection w), w)) ;;
   (if c : bool then ret tt else connect) ;;;
   run q)%js.

(** [getLastInsertId()] *)
Definition getLastInsertId : M World Z :=
  (c <- (fun w => (Return (connection w), w)) ;;
   if c : bool then
     r <- run SelectLastInsertId ;;
     match r with
     | CountRow id => ret id
     | _ => throw (Error "TypeError")
     end
   else throw (Error "No hay conexión activa"))%js.

(** [isConnected()] *)
Definition isConnected (w : World) : bool := connection w.

(** [disconnect()]: ends the connection when there is one and forgets it;
    what belonged to the connection ends with it. *)
Definition disconnect : M World unit :=
  fun w =>
    if connection w then
      (Return tt,
       {| store := new_session (store w); connection := false;
          server_up := server_up w; clock := clock w; entropy := entropy w;
          draws := draws w; trace := trace w |})
    else (Return tt, w).

End Database.

(** Running a computation on the process state from inside an instance
    method, whose state is [this] together with the process state. *)
Definition on_world {T A} (m : M World A) : M (T * World) A :=
  fun tw =>
    match m (snd tw) with
    | (o, w') => (o, (fst tw, w'))
    end.

(** Reading and assigning [this]. *)
Definition this {T} : M (T * World) T := fun tw => (Return (fst tw), tw).

Definition assign {T} (upd : T -> T) : M (T * World) unit :=
  fun tw => (Return tt, (upd (fst tw), snd tw)).

(* ===================================================================== *)
(** * Results of [validate()] and helpers shared by the entity classes *)
(* ===================================================================== *)

Record Validation : Type := {
  isValid : bool;
  errors : list string
}.

(** [errors.push(msg)] under a guard. *)
Definition push_if (guard : bool) (msg : string) (errors : list string)
  : list string :=
  if guard then errors ++ [msg] else errors.

(** [{ isValid: errors.length === 0, errors }] *)
Definition validation_of (errors : list string) : Validation :=
  {| isValid := (length errors =? 0)%nat; errors := errors |}.

(** [new Error(`Datos inválidos: ${validation.errors.join(', ')}`)] *)
Definition invalid_data (v : Validation) : JsError :=
  Error ("Datos inválidos: " ++ join ", " (errors v))%string.

(** [data.field || ''] and the like, where an absent key is [None]. *)
Definition or_string (v : option jsstring) (default : jsstring) : jsstring :=
  match v with
  | Some s => if truthy_str s then s else default
  | None => default
  end.

(** [data.field || null] on a number. *)
Definition or_null (v : option Z) : option Z :=
  if truthy_num v then v else None.

(** [this[key] = updateData[key]] when the key is present and not
    [undefined]. *)
Definition merged {A} (payload : option A) (current : A) : A :=
  match payload with
  | Some v => v
  | None => current
  end.

Definition double_quote : string := String (ascii_of_nat 34) EmptyString.

(* ===================================================================== *)
(** * Usuario *)
(* ===================================================================== *)

Module Usuario.

(** The fields of an instance. *)
Record t : Type := {
  id_user : option Z;
  nombre : jsstring;
  correo_electronico : jsstring;
  password_hash : jsstring;
  fecha_creacion : option Z;
  rol : jsstring
}.

(** The object given to the constructor: any subset of the keys. *)
Record data : Type := {
  d_id_user : option Z;
  d_nombre : option jsstring;
  d_correo_electronico : option jsstring;
  d_password_hash : option jsstring;
  d_fecha_creacion : option Z;
  d_rol : option jsstring
}.

(** The object given to [update]: any subset of the keys; a key can hold
    [null] where the field can. *)
Record patch : Type := {
  p_id_user : option (option Z);
  p_nombre : option jsstring;
  p_correo_electronico : option jsstring;
  p_password_hash : option jsstring;
  p_fecha_creacion : option (option Z);
  p_rol : option jsstring
}.

Definition constructor (d : data) : t :=
  {| id_user := or_null (d_id_user d);
     nombre := or_string (d_nombre d) [];
     correo_electronico := or_string (d_correo_electronico d) [];
     password_hash := or_string (d_password_hash d) [];
     fecha_creacion := d_fecha_creacion d;
     rol := or_string (d_rol d) (js "user") |}.

(** The object a result row is. *)
Definition of_row (r : usuario.row) : data :=
  {| d_id_user := Some (usuario.id_user r);
     d_nombre := Some (usuario.nombre r);
     d_correo_electronico := Some (usuario.correo_electronico r);
     d_password_hash := Some (usuario.password_hash r);
     d_fecha_creacion := Some (usuario.fecha_creacion r);
     d_rol := Some (usuario.rol r) |}.

(** [/^[^\s@]+@[^\s@]+\.[^\s@]+$/] *)
Definition not_space_nor_at (c : Z) : bool :=
  negb (is_space c) && negb (c =? 64).

Definition emailRegex : list re_item :=
  [Plus not_space_nor_at; Lit 64; Plus not_space_nor_at; Lit 46;
   Plus not_space_nor_at].

Definition isValidEmail (email : jsstring) : bool := re_test emailRegex email.

Definition msg_nombre : string := "El nombre debe tener al menos 2 caracteres".
Definition msg_correo : string := "El correo electrónico no es válido".
Definition msg_password : string :=
  "La contraseña debe tener al menos 6 caracteres".
Definition msg_rol : string :=
  ("El rol debe ser " ++ double_quote ++ "admin" ++ double_quote ++ " o "
     ++ double_quote ++ "user" ++ double_quote)%string.

Definition validate (u : t) : Validation :=
  let errors := [] in
  let errors :=
    push_if (negb (truthy_str (nombre u)) || (len (trim (nombre u)) <? 2))
      msg_nombre errors in
  let errors :=
    push_if (negb (truthy_str (correo_electronico u))
             || negb (isValidEmail (correo_electronico u)))
      msg_correo errors in
  let errors :=
    push_if (negb (truthy_str (password_hash u))
             || (len (password_hash u) <? 6))
      msg_password errors in
  let errors :=
    push_if (negb (includes rol_enum (rol u))) msg_rol errors in
  validation_of errors.

Definition set_password_hash (h : jsstring) (u : t) : t :=
  {| id_user := id_user u; nombre := nombre u;
     correo_electronico := correo_electronico u; password_hash := h;
     fecha_creacion := fecha_creacion u; rol := rol u |}.

Definition set_created (id : Z) (at_ : Z) (u : t) : t :=
  {| id_user := Some id; nombre := nombre u;
     correo_electronico := correo_electronico u;
     password_hash := password_hash u;
     fecha_creacion := Some at_; rol := rol u |}.

(** The [forEach] over the keys of [updateData]: every key but [id_user]
    whose value is not [undefined] is assigned. *)
Definition merge (p : patch) (u : t) : t :=
  {| id_user := id_user u;
     nombre := merged (p_nombre p) (nombre u);
     correo_electronico := merged (p_correo_electronico p)
                             (correo_electronico u);
     password_hash := merged (p_password_hash p) (password_hash u);
     fecha_creacion := merged (p_fecha_creacion p) (fecha_creacion u);
     rol := merged (p_rol p) (rol u) |}.

(** [catch (error)] of [create] and [update]. *)
Definition on_duplicate {S A} (e : JsError) : M S A :=
  if has_code e "ER_DUP_ENTRY"
  then throw (Error "El correo electrónico ya está registrado")
  else throw e.

Section Crypto.

(** [crypto.pbkdf2Sync(password, salt, iterations, keylen, 'sha512')] on
    the bytes of its two first arguments. *)
Variable pbkdf2Sync : list byte -> list byte -> Z -> Z -> list byte.

(** [crypto.pbkdf2Sync(password, salt, 1000, 64, 'sha512')
      .toString('hex')] with string arguments. *)
Definition derive (password salt : jsstring) : jsstring :=
  to_hex (pbkdf2Sync (utf8_encode password) (utf8_encode salt) 1000 64).

(** The value [hashPassword] returns once the salt bytes are drawn. *)
Definition salted_hash (salt_bytes : list byte) (password : jsstring)
  : jsstring :=
  let salt := to_hex salt_bytes in
  salt ++ js ":" ++ derive password salt.

Definition hashPassword (password : jsstring) : M World jsstring :=
  (salt_bytes <- randomBytes 16 ;;
   ret (salted_hash salt_bytes password))%js.

Definition verifyPassword (password hash : jsstring) : bool :=
  let parts := split 58 hash in
  let salt := nth 0 parts [] in
  let verifyHash := derive password salt in
  match nth_error parts 1 with
  | Some originalHash => str_eqb originalHash verifyHash
  | None => false
  end.

Definition create (password : jsstring) : M (t * World) t :=
  (u <- this ;;
   let validation := validate u in
   if negb (isValid validation) then throw (invalid_data validation)
   else
     h <- on_world (hashPassword password) ;;
     assign (set_password_hash h) ;;;
     try_catch
       (u <- this ;;
        on_world
          (Database.query
             (InsertUsuario (nombre u) (correo_electronico u)
                (password_hash u) (rol u))) ;;;
        id <- on_world Database.getLastInsertId ;;
        now <- on_world new_Date ;;
        assign (set_created id now) ;;;
        this)
       on_duplicate)%js.

Definition first_row (r : QResult) : M World (option t) :=
  match r with
  | UsuarioRows [] => ret None
  | UsuarioRows (row :: _) => ret (Some (constructor (of_row row)))
  | _ => throw (Error "TypeError")
  end.

Definition findById (id : Z) : M World (option t) :=
  try_catch
    (results <- Database.query (SelectUsuarioById id) ;;
     first_row results)%js
    throw.

Definition findByEmail (email : jsstring) : M World (option t) :=
  try_catch
    (results <- Database.query (SelectUsuarioByEmail email) ;;
     first_row results)%js
    throw.

Definition update (updateData : patch) : M (t * World) t :=
  (u <- this ;;
   match id_user u with
   | None => throw (Error "No se puede actualizar un usuario sin ID")
   | Some id =>
       assign (merge updateData) ;;;
       u <- this ;;
       let validation := validate u in
       if negb (isValid validation) then throw (invalid_data validation)
       else
         try_catch
           (on_world
              (Database.query
                 (UpdateUsuario (nombre u) (correo_electronico u)
                    (rol u) id)) ;;;
            this)
           on_duplicate
   end)%js.

Definition updatePassword (newPassword : jsstring) : M (t * World) t :=
  (u <- this ;;
   match id_user u with
   | None =>
       throw (Error
                "No se puede actualizar la contraseña de un usuario sin ID")
   | Some id =>
       if negb (truthy_str newPassword) || (len newPassword <? 6)
       then throw (Error msg_password)
       else
         hashedPassword <- on_world (hashPassword newPassword) ;;
         try_catch
           (on_world
              (Database.query (UpdateUsuarioPassword hashedPassword id)) ;;;
            assign (set_password_hash hashedPassword) ;;;
            this)
           throw
   end)%js.

(** [delete()]; resolves to [affectedRows > 0]. *)
Definition delete : M (t * World) bool :=
  (u <- this ;;
   match id_user u with
   | None => throw (Error "No se puede eliminar un usuario sin ID")
   | Some id =>
       try_catch
         (result <- on_world (Database.query (DeleteUsuario id)) ;;
          match result with
          | OkPacket affectedRows _ => ret (0 <? affectedRows)
          | _ => throw (Error "TypeError")
          end)
         throw
   end)%js.

Definition authenticate (email password : jsstring) : M World (option t) :=
  try_catch
    (found <- findByEmail email ;;
     match found with
     | None => ret None
     | Some usuario =>
         if verifyPassword password (password_hash usuario)
         then ret (Some usuario)
         else ret None
     end)%js
    throw.

End Crypto.

End Usuario.

(* ===================================================================== *)
(** * Categoria *)
(* ===================================================================== *)

Module Categoria.

Record t : Type := {
  id_category : option Z;
  nombre : jsstring;
  descripcion : jsstring
}.

Record data : Type := {
  d_id_category : option Z;
  d_nombre : option jsstring;
  d_descripcion : option jsstring
}.

Record patch : Type := {
  p_id_category : option (option Z);
  p_nombre : option jsstring;
  p_descripcion : option jsstring
}.

Definition constructor (d : data) : t :=
  {| id_category := or_null (d_id_category d);
     nombre := or_string (d_nombre d) [];
     descripcion := or_string (d_descripcion d) [] |}.

Definition msg_nombre_min : string :=
  "El nombre debe tener al menos 2 caracteres".
Definition msg_nombre_max : string :=
  "El nombre no puede exceder 80 caracteres".
Definition msg_descripcion : string :=
  "La descripción no puede exceder 255 caracteres".

Definition validate (c : t) : Validation :=
  let errors := [] in
  let errors :=
    push_if (negb (truthy_str (nombre c)) || (len (trim (nombre c)) <? 2))
      msg_nombre_min errors in
  let errors :=
    push_if (truthy_str (nombre c) && (80 <? len (nombre c)))
      msg_nombre_max errors in
  let errors :=
    push_if (truthy_str (descripcion c) && (255 <? len (descripcion c)))
      msg_descripcion errors in
  validation_of errors.

Definition set_id (id : Z) (c : t) : t :=
  {| id_category := Some id; nombre := nombre c;
     descripcion := descripcion c |}.

Definition merge (p : patch) (c : t) : t :=
  {| id_category := id_category c;
     nombre := merged (p_nombre p) (nombre c);
     descripcion := merged (p_descripcion p) (descripcion c) |}.

Definition on_duplicate {S A} (e : JsError) : M S A :=
  if has_code e "ER_DUP_ENTRY"
  then throw (Error "Ya existe una categoría con ese nombre")
  else throw e.

Definition create : M (t * World) t :=
  (c <- this ;;
   let validation := validate c in
   if negb (isValid validation) then throw (invalid_data validation)
   else
     try_catch
       (on_world
          (Database.query (InsertCategoria (nombre c) (descripcion c))) ;;;
        id <- on_world Database.getLastInsertId ;;
        assign (set_id id) ;;;
        this)
       on_duplicate)%js.

Definition update (updateData : patch) : M (t * World) t :=
  (c <- this ;;
   match id_category c with
   | None => throw (Error "No se puede actualizar una categoría sin ID")
   | Some id =>
       assign (merge updateData) ;;;
       c <- this ;;
       let validation := validate c in
       if negb (isValid validation) then throw (invalid_data validation)
       else
         try_catch
           (on_world
              (Database.query
                 (UpdateCategoria (nombre c) (descripcion c) id)) ;;;
            this)
           on_duplicate
   end)%js.

Definition msg_tiene_frases : string :=
  "No se puede eliminar la categoría porque tiene frases asociadas".

(** [delete(forceDelete = false)]; resolves to [affectedRows > 0]. *)
Definition delete (forceDelete : bool) : M (t * World) bool :=
  (c <- this ;;
   match id_category c with
   | None => throw (Error "No se puede eliminar una categoría sin ID")
   | Some id =>
       (if negb forceDelete then
          countResult <- on_world
                           (Database.query (CountFrasesDeCategoria id)) ;;
          match countResult with
          | CountRow count =>
              if 0 <? count then throw (Error msg_tiene_frases) else ret tt
          | _ => throw (Error "TypeError")
          end
        else ret tt) ;;;
       try_catch
         (result <- on_world (Database.query (DeleteCategoria id)) ;;
          match result with
          | OkPacket affectedRows _ => ret (0 <? affectedRows)
          | _ => throw (Error "TypeError")
          end)
         throw
   end)%js.

(** [getFrasesCount()]: its statement is the text [count] of [Frase]
    builds for the one condition on the category. *)
Definition getFrasesCount : M (t * World) Z :=
  (c <- this ;;
   match id_category c with
   | None =>
       throw (Error
                "No se puede obtener el conteo de frases sin ID de categoría")
   | Some id =>
       try_catch
         (results <- on_world
                       (Database.query (CountFrases [CondCategoria id])) ;;
          match results with
          | CountRow total => ret total
          | _ => throw (Error "TypeError")
          end)
         throw
   end)%js.

(** [getFrases(limit, offset)]: the joined [SELECT] of [findAll] with the
    one condition on the category; resolves to the rows as they come. *)
Definition getFrases (limit offset : Z) : M (t * World) (list frase.joined) :=
  (c <- this ;;
   match id_category c with
   | None =>
       throw (Error "No se puede obtener las frases sin ID de categoría")
   | Some id =>
       try_catch
         (results <- on_world
                       (Database.query
                          (SelectFrases [CondCategoria id] limit offset)) ;;
          match results with
          | FraseRows rows => ret rows
          | _ => throw (Error "TypeError")
          end)
         throw
   end)%js.

End Categoria.

(* ===================================================================== *)
(** * Frase *)
(* ===================================================================== *)

Module Frase.

Record t : Type := {
  id_quote : option Z;
  texto : jsstring;
  autor : jsstring;
  fecha_creacion : option Z;
  scheduled_at : option JsDate;
  status : jsstring;
  creado_por : option Z;
  categoria_id : option Z;
  creado_por_nombre : jsstring;
  categoria_nombre : jsstring
}.

Record data : Type := {
  d_id_quote : option Z;
  d_texto : option jsstring;
  d_autor : option jsstring;
  d_fecha_creacion : option Z;
  d_scheduled_at : option JsDate;
  d_status : option jsstring;
  d_creado_por : option Z;
  d_categoria_id : option Z;
  d_creado_por_nombre : option jsstring;
  d_categoria_nombre : option jsstring
}.

(** The object given to [update]: an absent key is [None]; the nullable
    fields can be given [null], which is [Some None]. *)
Record patch : Type := {
  p_id_quote : option (option Z);
  p_texto : option jsstring;
  p_autor : option jsstring;
  p_fecha_creacion : option (option Z);
  p_scheduled_at : option (option JsDate);
  p_status : option jsstring;
  p_creado_por : option (option Z);
  p_categoria_id : option (option Z)
}.

Definition empty_patch : patch :=
  {| p_id_quote := None; p_texto := None; p_autor := None;
     p_fecha_creacion := None; p_scheduled_at := None; p_status := None;
     p_creado_por := None; p_categoria_id := None |}.

Definition constructor (d : data) : t :=
  {| id_quote := or_null (d_id_quote d);
     texto := or_string (d_texto d) [];
     autor := or_string (d_autor d) [];
     fecha_creacion := d_fecha_creacion d;
     scheduled_at := d_scheduled_at d;
     status := or_string (d_status d) (js "draft");
     creado_por := or_null (d_creado_por d);
     categoria_id := or_null (d_categoria_id d);
     creado_por_nombre := or_string (d_creado_por_nombre d) [];
     categoria_nombre := or_string (d_categoria_nombre d) [] |}.

(** The object a row of the joined result is. *)
Definition of_row (j : frase.joined) : data :=
  let r := frase.f j in
  {| d_id_quote := Some (frase.id_quote r);
     d_texto := Some (frase.texto r);
     d_autor := frase.autor r;
     d_fecha_creacion := Some (frase.fecha_creacion r);
     d_scheduled_at := option_map Instant (frase.scheduled_at r);
     d_status := Some (frase.status r);
     d_creado_por := Some (frase.creado_por r);
     d_categoria_id := Some (frase.categoria_id r);
     d_creado_por_nombre := Some (frase.creado_por_nombre j);
     d_categoria_nombre := Some (frase.categoria_nombre j) |}.

Definition msg_texto_min : string :=
  "El texto debe tener al menos 10 caracteres".
Definition msg_texto_max : string :=
  "El texto no puede exceder 1000 caracteres".
Definition msg_autor : string :=
  "El nombre del autor no puede exceder 120 caracteres".
Definition msg_creado_por : string :=
  "Debe especificar el ID del usuario creador".
Definition msg_categoria : string :=
  "Debe especificar el ID de la categoría".
Definition msg_status : string :=
  "El estado debe ser draft, scheduled o published".
Definition msg_sin_fecha : string :=
  "Las frases programadas deben tener una fecha de publicación".
Definition msg_fecha_futura : string :=
  "La fecha de publicación programada debe ser futura".

(** [!this.field || this.field <= 0] on an identifier. *)
Definition missing_id (v : option Z) : bool :=
  negb (truthy_num v)
  || match v with Some z => z <=? 0 | None => false end.

(** [validate()], at the time [now] that [new Date()] reads. *)
Definition validate (now : Z) (q : t) : Validation :=
  let errors := [] in
  let errors :=
    push_if (negb (truthy_str (texto q)) || (len (trim (texto q)) <? 10))
      msg_texto_min errors in
  let errors :=
    push_if (truthy_str (texto q) && (1000 <? len (texto q)))
      msg_texto_max errors in
  let errors :=
    push_if (truthy_str (autor q) && (120 <? len (autor q)))
      msg_autor errors in
  let errors := push_if (missing_id (creado_por q)) msg_creado_por errors in
  let errors := push_if (missing_id (categoria_id q)) msg_categoria errors in
  let errors :=
    push_if (negb (includes status_enum (status q))) msg_status errors in
  let errors :=
    push_if (str_eqb (status q) (js "scheduled")
             && match scheduled_at q with None => true | Some _ => false end)
      msg_sin_fecha errors in
  let errors :=
    push_if (match scheduled_at q with
             | Some d => date_le_now d now
             | None => false
             end)
      msg_fecha_futura errors in
  validation_of errors.

Definition set_created (id : Z) (at_ : Z) (q : t) : t :=
  {| id_quote := Some id; texto := texto q; autor := autor q;
     fecha_creacion := Some at_; scheduled_at := scheduled_at q;
     status := status q; creado_por := creado_por q;
     categoria_id := categoria_id q;
     creado_por_nombre := creado_por_nombre q;
     categoria_nombre := categoria_nombre q |}.

(** The [forEach] over the keys of [updateData]: every key but [id_quote]
    whose value is not [undefined] is assigned. *)
Definition merge (p : patch) (q : t) : t :=
  {| id_quote := id_quote q;
     texto := merged (p_texto p) (texto q);
     autor := merged (p_autor p) (autor q);
     fecha_creacion := merged (p_fecha_creacion p) (fecha_creacion q);
     scheduled_at := merged (p_scheduled_at p) (scheduled_at q);
     status := merged (p_status p) (status q);
     creado_por := merged (p_creado_por p) (creado_por q);
     categoria_id := merged (p_categoria_id p) (categoria_id q);
     creado_por_nombre := creado_por_nombre q;
     categoria_nombre := categoria_nombre q |}.

Definition on_missing_reference {S A} (e : JsError) : M S A :=
  if has_code e "ER_NO_REFERENCED_ROW_2"
  then throw (Error "El usuario o categoría especificados no existen")
  else throw e.

Definition create : M (t * World) t :=
  (q <- this ;;
   now <- on_world new_Date ;;
   let validation := validate now q in
   if negb (isValid validation) then throw (invalid_data validation)
   else
     try_catch
       (on_world
          (Database.query
             (InsertFrase (texto q) (autor q) (scheduled_at q) (status q)
                (creado_por q) (categoria_id q))) ;;;
        id <- on_world Database.getLastInsertId ;;
        created <- on_world new_Date ;;
        assign (set_created id created) ;;;
        this)
       on_missing_reference)%js.

Definition update (updateData : patch) : M (t * World) t :=
  (q <- this ;;
   match id_quote q with
   | None => throw (Error "No se puede actualizar una frase sin ID")
   | Some id =>
       assign (merge updateData) ;;;
       q <- this ;;
       now <- on_world new_Date ;;
       let validation := validate now q in
       if negb (isValid validation) then throw (invalid_data validation)
       else
         try_catch
           (on_world
              (Database.query
                 (UpdateFrase (texto q) (autor q) (scheduled_at q)
                    (status q) (categoria_id q) id)) ;;;
            this)
           on_missing_reference
   end)%js.

Definition publish : M (t * World) t :=
  update {| p_id_quote := None; p_texto := None; p_autor := None;
            p_fecha_creacion := None; p_scheduled_at := Some None;
            p_status := Some (js "published"); p_creado_por := None;
            p_categoria_id := None |}.

Definition schedule (scheduledDate : JsDate) : M (t * World) t :=
  update {| p_id_quote := None; p_texto := None; p_autor := None;
            p_fecha_creacion := None;
            p_scheduled_at := Some (Some scheduledDate);
            p_status := Some (js "scheduled"); p_creado_por := None;
            p_categoria_id := None |}.

Definition draft : M (t * World) t :=
  update {| p_id_quote := None; p_texto := None; p_autor := None;
            p_fecha_creacion := None; p_scheduled_at := Some None;
            p_status := Some (js "draft"); p_creado_por := None;
            p_categoria_id := None |}.

(** The optional-field filter object of [findAll] and [count]. *)
Record filters : Type := {
  f_status : option jsstring;
  f_categoria_id : option Z;
  f_creado_por : option Z;
  f_search : option jsstring
}.

Definition given_str (v : option jsstring) : option jsstring :=
  match v with
  | Some s => if truthy_str s then Some s else None
  | None => None
  end.

Definition given_num (v : option Z) : option Z :=
  if truthy_num v then v else None.

(** The [WHERE] conditions and parameters [findAll] builds from the
    filter object: one [if (filters.x)] block per key. *)
Definition findAll_where (fs : filters) : list Cond :=
  let whereConditions := [] in
  let whereConditions :=
    match given_str (f_status fs) with
    | Some v => whereConditions ++ [CondStatus v]
    | None => whereConditions
    end in
  let whereConditions :=
    match given_num (f_categoria_id fs) with
    | Some v => whereConditions ++ [CondCategoria v]
    | None => whereConditions
    end in
  let whereConditions :=
    match given_num (f_creado_por fs) with
    | Some v => whereConditions ++ [CondCreadoPor v]
    | None => whereConditions
    end in
  let whereConditions :=
    match given_str (f_search fs) with
    | Some v =>
        let searchPattern := [37] ++ v ++ [37] in
        whereConditions ++ [CondSearch searchPattern searchPattern]
    | None => whereConditions
    end in
  whereConditions.

Definition findAll (fs : filters) (limit offset : Z) : M World (list t) :=
  try_catch
    (results <- Database.query
                  (SelectFrases (findAll_where fs) limit offset) ;;
     match results with
     | FraseRows rows => ret (map (fun row => constructor (of_row row)) rows)
     | _ => throw (Error "TypeError")
     end)%js
    throw.

(** [findPublished(limit, offset)] *)
Definition findPublished (limit offset : Z) : M World (list t) :=
  findAll {| f_status := Some (js "published"); f_categoria_id := None;
             f_creado_por := None; f_search := None |} limit offset.

(** [delete()]; resolves to [affectedRows > 0]. *)
Definition delete : M (t * World) bool :=
  (q <- this ;;
   match id_quote q with
   | None => throw (Error "No se puede eliminar una frase sin ID")
   | Some id =>
       try_catch
         (result <- on_world (Database.query (DeleteFrase id)) ;;
          match result with
          | OkPacket affectedRows _ => ret (0 <? affectedRows)
          | _ => throw (Error "TypeError")
          end)
         throw
   end)%js.

(** The conditions and parameters [count] builds: the same four blocks,
    written a second time in the source, on the unqualified columns. *)
Definition count_where (fs : filters) : list Cond :=
  let whereConditions := [] in
  let whereConditions :=
    match given_str (f_status fs) with
    | Some v => whereConditions ++ [CondStatus v]
    | None => whereConditions
    end in
  let whereConditions :=
    match given_num (f_categoria_id fs) with
    | Some v => whereConditions ++ [CondCategoria v]
    | None => whereConditions
    end in
  let whereConditions :=
    match given_num (f_creado_por fs) with
    | Some v => whereConditions ++ [CondCreadoPor v]
    | None => whereConditions
    end in
  let whereConditions :=
    match given_str (f_search fs) with
    | Some v =>
        let searchPattern := [37] ++ v ++ [37] in
        whereConditions ++ [CondSearch searchPattern searchPattern]
    | None => whereConditions
    end in
  whereConditions.

Definition count (fs : filters) : M World Z :=
  try_catch
    (results <- Database.query (CountFrases (count_where fs)) ;;
     match results with
     | CountRow total => ret total
     | _ => throw (Error "TypeError")
     end)%js
    throw.

End Frase.

(* ===================================================================== *)
(** * Vocabulary of the properties *)
(* ===================================================================== *)

(** The messages of the checks that fire, in the order of the checks. *)
Definition collect (checks : list (bool * string)) : list string :=
  map snd (filter fst checks).

(** ** The checks of the three [validate()] methods *)

Definition Usuario_checks (u : Usuario.t) : list (bool * string) :=
  [ (negb (truthy_str (Usuario.nombre u))
     || (len (trim (Usuario.nombre u)) <? 2), Usuario.msg_nombre);
    (negb (truthy_str (Usuario.correo_electronico u))
     || negb (Usuario.isValidEmail (Usuario.correo_electronico u)),
     Usuario.msg_correo);
    (negb (truthy_str (Usuario.password_hash u))
     || (len (Usuario.password_hash u) <? 6), Usuario.msg_password);
    (negb (includes rol_enum (Usuario.rol u)), Usuario.msg_rol) ].

Definition Categoria_checks (c : Categoria.t) : list (bool * string) :=
  [ (negb (truthy_str (Categoria.nombre c))
     || (len (trim (Categoria.nombre c)) <? 2), Categoria.msg_nombre_min);
    (truthy_str (Categoria.nombre c) && (80 <? len (Categoria.nombre c)),
     Categoria.msg_nombre_max);
    (truthy_str (Categoria.descripcion c)
     && (255 <? len (Categoria.descripcion c)), Categoria.msg_descripcion) ].

Definition Frase_checks (now : Z) (q : Frase.t) : list (bool * string) :=
  [ (negb (truthy_str (Frase.texto q)) || (len (trim (Frase.texto q)) <? 10),
     Frase.msg_texto_min);
    (truthy_str (Frase.texto q) && (1000 <? len (Frase.texto q)),
     Frase.msg_texto_max);
    (truthy_str (Frase.autor q) && (120 <? len (Frase.autor q)),
     Frase.msg_autor);
    (Frase.missing_id (Frase.creado_por q), Frase.msg_creado_por);
    (Frase.missing_id (Frase.categoria_id q), Frase.msg_categoria);
    (negb (includes status_enum (Frase.status q)), Frase.msg_status);
    (str_eqb (Frase.status q) (js "scheduled")
     && match Frase.scheduled_at q with None => true | Some _ => false end,
     Frase.msg_sin_fecha);
    (match Frase.scheduled_at q with
     | Some d => date_le_now d now
     | None => false
     end, Frase.msg_fecha_futura) ].

(** ** The field rules of a quote *)

(** The field rules of a quote as the specification words them, at the
    time [now] of the validation. An Invalid Date is not in the future. *)
Record spec_quote_rules (now : Z) (q : Frase.t) : Prop := {
  spec_text : 10 <= len (Frase.texto q) <= 1000;
  spec_author : len (Frase.autor q) <= 120;
  spec_creator : exists u, Frase.creado_por q = Some u /\ 0 < u;
  spec_category : exists c, Frase.categoria_id q = Some c /\ 0 < c;
  spec_status : In (Frase.status q) status_enum;
  spec_scheduled :
    Frase.status q = js "scheduled" -> Frase.scheduled_at q <> None;
  spec_future :
    forall d, Frase.scheduled_at q = Some d ->
              exists ms, d = Instant ms /\ now < ms
}.

(** The same rules with the lower bound on the text taken after trimming,
    which is what the first check of [validate()] measures. *)
Record quote_rules (now : Z) (q : Frase.t) : Prop := {
  rule_text_min : 10 <= len (trim (Frase.texto q));
  rule_text_max : len (Frase.texto q) <= 1000;
  rule_author : len (Frase.autor q) <= 120;
  rule_creator : exists u, Frase.creado_por q = Some u /\ 0 < u;
  rule_category : exists c, Frase.categoria_id q = Some c /\ 0 < c;
  rule_status : In (Frase.status q) status_enum;
  rule_scheduled :
    Frase.status q = js "scheduled" -> Frase.scheduled_at q <> None;
  rule_future :
    forall d, Frase.scheduled_at q = Some d ->
              exists ms, d = Instant ms /\ now < ms
}.

Inductive QuoteRule : Type :=
  | TextMin | TextMax | Author | Creator | Category | Status
  | ScheduledNeedsDate | FutureDate.

(** What it is for a quote to violate one rule. A scheduled date violates
    [FutureDate] when it is an instant that is not after [now]. *)
Definition violates (now : Z) (q : Frase.t) (r : QuoteRule) : Prop :=
  match r with
  | TextMin => len (trim (Frase.texto q)) < 10
  | TextMax => 1000 < len (Frase.texto q)
  | Author => 120 < len (Frase.autor q)
  | Creator => ~ exists u, Frase.creado_por q = Some u /\ 0 < u
  | Category => ~ exists c, Frase.categoria_id q = Some c /\ 0 < c
  | Status => ~ In (Frase.status q) status_enum
  | ScheduledNeedsDate =>
      Frase.status q = js "scheduled" /\ Frase.scheduled_at q = None
  | FutureDate =>
      exists ms, Frase.scheduled_at q = Some (Instant ms) /\ ms <= now
  end.

(** The message [validate()] has for each rule. *)
Definition rule_message (r : QuoteRule) : string :=
  match r with
  | TextMin => Frase.msg_texto_min
  | TextMax => Frase.msg_texto_max
  | Author => Frase.msg_autor
  | Creator => Frase.msg_creado_por
  | Category => Frase.msg_categoria
  | Status => Frase.msg_status
  | ScheduledNeedsDate => Frase.msg_sin_fecha
  | FutureDate => Frase.msg_fecha_futura
  end.

Definition accepted : Validation := {| isValid := true; errors := [] |}.

(** A draft by user 1 in category 1 with the given text. *)
Definition draft_with_text (texto : jsstring) : Frase.t :=
  Frase.constructor
    {| Frase.d_id_quote := None; Frase.d_texto := Some texto;
       Frase.d_autor := None; Frase.d_fecha_creacion := None;
       Frase.d_scheduled_at := None; Frase.d_status := Some (js "draft");
       Frase.d_creado_por := Some 1; Frase.d_categoria_id := Some 1;
       Frase.d_creado_por_nombre := None; Frase.d_categoria_nombre := None |}.

(** Ten spaces. *)
Definition blank_text : jsstring := repeat 32 10.

Definition gift_text : jsstring := js "Every day is a gift to cherish".

(** ** States of the connection *)

(** The server can be talked to: the connection exists or can be made. *)
Definition available (w : World) : Prop :=
  connection w = true \/ server_up w = true.

(** The state in which a statement runs: the connection is there. *)
Definition connected (w : World) : World :=
  if connection w then w else with_connection w true.

(** ** Sample data *)

Definition ana : usuario.row :=
  {| usuario.id_user := 1; usuario.nombre := js "Ana";
     usuario.correo_electronico := js "ana@x.com";
     usuario.password_hash := js "0a:0b"; usuario.fecha_creacion := 1;
     usuario.rol := js "user" |}.

Definition hope : categoria.row :=
  {| categoria.id_category := 1; categoria.nombre := js "Hope";
     categoria.descripcion := Some [] |}.

(** A quote of Ana in Hope, scheduled for the instant 100. *)
Definition gift : frase.row :=
  {| frase.id_quote := 1; frase.texto := gift_text; frase.autor := Some [];
     frase.fecha_creacion := 5; frase.scheduled_at := Some 100;
     frase.status := js "scheduled"; frase.creado_por := 1;
     frase.categoria_id := 1 |}.

(** A second quote in Hope, published. *)
Definition thanks : frase.row :=
  {| frase.id_quote := 2; frase.texto := js "Give thanks for a little";
     frase.autor := Some (js "Anon"); frase.fecha_creacion := 7;
     frase.scheduled_at := None; frase.status := js "published";
     frase.creado_por := 1; frase.categoria_id := 1 |}.

Definition empty_store : Store :=
  {| usuarios := []; categorias := []; frases := [];
     next_id_user := 1; next_id_category := 1; next_id_quote := 1;
     last_insert_id := 0; on_delete := Restrict |}.

Definition sample_store : Store :=
  {| usuarios := [ana]; categorias := [hope]; frases := [gift; thanks];
     next_id_user := 2; next_id_category := 2; next_id_quote := 3;
     last_insert_id := 2; on_delete := Restrict |}.

(** A process that has not connected yet, at the instant 50, in front of
    a server that holds [s]. *)
Definition world_of (s : Store) : World :=
  {| store := s; connection := false; server_up := true; clock := 50;
     entropy := fun _ => []; draws := 0%nat; trace := [] |}.

(** The same process when the server is down. *)
Definition offline (s : Store) : World :=
  {| store := s; connection := false; server_up := false; clock := 50;
     entropy := fun _ => []; draws := 0%nat; trace := [] |}.

(** The instance [findById] builds from a row of [frase] and the joined
    names. *)
Definition loaded (r : frase.row) (u c : jsstring) : Frase.t :=
  Frase.constructor
    (Frase.of_row {| frase.f := r; frase.creado_por_nombre := u;
                     frase.categoria_nombre := c |}).

(** ** Vocabulary of the quote properties *)

(** The owning-user column of every stored quote. *)
Definition owners (s : Store) : list (Z * Z) :=
  map (fun r => (frase.id_quote r, frase.creado_por r)) (frases s).

(** The fields [publish()] does not set pass their validation rules. *)
Record remaining_fields_valid (q : Frase.t) : Prop := {
  remaining_text_min : 10 <= len (trim (Frase.texto q));
  remaining_text_max : len (Frase.texto q) <= 1000;
  remaining_author : len (Frase.autor q) <= 120;
  remaining_creator : exists u, Frase.creado_por q = Some u /\ 0 < u;
  remaining_category : exists c, Frase.categoria_id q = Some c /\ 0 < c
}.

(** The store takes an [UPDATE] of the quote: the server can be talked to
    and the category the instance names exists. *)
Definition store_takes_update (q : Frase.t) (w : World) : Prop :=
  available w
  /\ exists c, Frase.categoria_id q = Some c
               /\ categoria_exists (store w) c = true.

(** The row of a quote once published with the fields of [q]. *)
Definition published_row (q : Frase.t) (c : Z) (r : frase.row) : frase.row :=
  set_frase (Frase.texto q) (Frase.autor q) None (js "published") c r.

(** ** Instances against their rows *)

(** The columns [update] writes, as the instance holds them. *)
Definition Usuario_columns (u : Usuario.t) : jsstring * jsstring * jsstring :=
  (Usuario.nombre u, Usuario.correo_electronico u, Usuario.rol u).

Definition Categoria_columns (c : Categoria.t) : jsstring * jsstring :=
  (Categoria.nombre c, Categoria.descripcion c).

Definition Frase_columns (q : Frase.t)
  : jsstring * jsstring * option JsDate * jsstring * option Z :=
  (Frase.texto q, Frase.autor q, Frase.scheduled_at q, Frase.status q,
   Frase.categoria_id q).

(** The instance a row of [categoria] is loaded into. *)
Definition Categoria_of_row (r : categoria.row) : Categoria.t :=
  Categoria.constructor
    {| Categoria.d_id_category := Some (categoria.id_category r);
       Categoria.d_nombre := Some (categoria.nombre r);
       Categoria.d_descripcion := categoria.descripcion r |}.

(** An instance agrees with a stored row when it holds, in the columns
    [update] writes, what loading that row gives. *)
Definition Usuario_agrees (u : Usuario.t) (r : usuario.row) : Prop :=
  Usuario_columns u = Usuario_columns (Usuario.constructor (Usuario.of_row r)).

Definition Categoria_agrees (c : Categoria.t) (r : categoria.row) : Prop :=
  Categoria_columns c = Categoria_columns (Categoria_of_row r).

Definition Frase_agrees (q : Frase.t) (r : frase.row) : Prop :=
  Frase_columns q = Frase_columns (loaded r [] []).

(** The error a failed validation is reported with: the messages of all
    the checks that fired, joined. *)
Definition validation_error (checks : list (bool * string)) : JsError :=
  Error ("Datos inválidos: " ++ join ", " (collect checks))%string.

(** A user as the console builds it before [create]: no credential field. *)
Definition new_user (nombre correo rol : jsstring) : Usuario.t :=
  Usuario.constructor
    {| Usuario.d_id_user := None; Usuario.d_nombre := Some nombre;
       Usuario.d_correo_electronico := Some correo;
       Usuario.d_password_hash := None; Usuario.d_fecha_creacion := None;
       Usuario.d_rol := Some rol |}.

(** ** Vocabulary of the deletion and lookup properties *)

(** Whether a message contains a decimal digit. *)
Definition has_digit (m : string) : bool :=
  existsb (fun a => let n := N_of_ascii a in (48 <=? n)%N && (n <=? 57)%N)
    (list_ascii_of_string m).

(** What [delete] resolves to from the store's answer to the [DELETE]. *)
Definition delete_outcome (answer : string + QResult) : Outcome bool :=
  match answer with
  | inl code => Throw (DriverError code)
  | inr (OkPacket affectedRows _) => Return (0 <? affectedRows)
  | inr _ => Throw (Error "TypeError")
  end.

(** The user the first row of a result is loaded into, if there is one. *)
Definition first_usuario (rows : list usuario.row) : option Usuario.t :=
  option_map (fun r => Usuario.constructor (Usuario.of_row r)) (hd_error rows).

Definition usuarios_by_id (id : Z) (s : Store) : list usuario.row :=
  filter (fun u => usuario.id_user u =? id) (usuarios s).

Definition usuarios_by_email (email : jsstring) (s : Store)
  : list usuario.row :=
  filter (fun u => sql_eq (usuario.correo_electronico u) email) (usuarios s).

(** ** A stand-in for the key derivation *)

(** A function of the right shape, used where a property that holds for
    every key derivation is shown at one. *)
Definition toy_kdf (password salt : list byte) (iterations keylen : Z)
  : list byte :=
  firstn (Z.to_nat keylen) (password ++ salt ++ repeat x00 (Z.to_nat keylen)).

(** Ana as the console builds her before [create]. *)
Definition new_ana : Usuario.t :=
  new_user (js "Ana") (js "ana@x.com") (js "user").

(** ** Vocabulary of the password properties *)

(** The salt bytes the next call of [randomBytes(16)] draws. *)
Definition next_salt (w : World) : list byte :=
  firstn 16 (entropy w (draws w) ++ repeat x00 16).

(** Two strings that are each one surrogate without its partner. *)
Definition lone_d800 : jsstring := [55296].
Definition lone_d801 : jsstring := [55297].

(** A process whose entropy source gives a different draw each time. *)
Definition ticking (s : Store) : World :=
  {| store := s; connection := false; server_up := true; clock := 50;
     entropy := fun n => repeat (if Nat.even n then x00 else x01) 16;
     draws := 0%nat; trace := [] |}.

(** ** Well-formed and reachable stores *)

Definition usuario_ids (s : Store) : list Z :=
  map usuario.id_user (usuarios s).

Definition categoria_ids (s : Store) : list Z :=
  map categoria.id_category (categorias s).

Definition frase_ids (s : Store) : list Z :=
  map frase.id_quote (frases s).

(** What the schema guarantees of a store: primary keys are unique and
    below the next generated value, and the two foreign keys of every
    quote name an existing user and an existing category. *)
Record store_wf (s : Store) : Prop := {
  wf_user_keys : NoDup (usuario_ids s);
  wf_category_keys : NoDup (categoria_ids s);
  wf_quote_keys : NoDup (frase_ids s);
  wf_next_user : forall id, In id (usuario_ids s) -> id < next_id_user s;
  wf_next_category :
    forall id, In id (categoria_ids s) -> id < next_id_category s;
  wf_next_quote : forall id, In id (frase_ids s) -> id < next_id_quote s;
  wf_creado_por :
    forall r, In r (frases s) -> In (frase.creado_por r) (usuario_ids s);
  wf_categoria_id :
    forall r, In r (frases s) -> In (frase.categoria_id r) (categoria_ids s)
}.

(** The store of a freshly created schema, under either action. *)
Definition fresh_store (a : FkAction) : Store :=
  {| usuarios := []; categorias := []; frases := [];
     next_id_user := 1; next_id_category := 1; next_id_quote := 1;
     last_insert_id := 0; on_delete := a |}.

(** The stores that statements can lead to from a fresh schema. *)
Inductive Reachable : Store -> Prop :=
  | reachable_fresh (a : FkAction) : Reachable (fresh_store a)
  | reachable_step (s : Store) (now : Z) (q : Stmt) :
      Reachable s -> Reachable (snd (execute now q s)).

(** The statements that build [sample_store] from a fresh schema. *)
Definition sample_history : list (Z * Stmt) :=
  [ (1, InsertUsuario (js "Ana") (js "ana@x.com") (js "0a:0b") (js "user"));
    (2, InsertCategoria (js "Hope") []);
    (5, InsertFrase gift_text [] (Some (Instant 100)) (js "scheduled")
          (Some 1) (Some 1));
    (7, InsertFrase (js "Give thanks for a little") (js "Anon") None
          (js "published") (Some 1) (Some 1)) ].

Definition replay (history : list (Z * Stmt)) (s : Store) : Store :=
  fold_left (fun s step => snd (execute (fst step) (snd step) s)) history s.

(** A filter on the status and on a search term, as in the example of the
    specification. *)
Definition published_with_thanks : Frase.filters :=
  {| Frase.f_status := Some (js "published"); Frase.f_categoria_id := None;
     Frase.f_creado_por := None; Frase.f_search := Some (js "THANKS") |}.

(** ** Byte strings of a given length *)

(** Every byte. *)
Definition all_bytes : list byte :=
  map (fun n => byte_of_Z (Z.of_nat n)) (seq 0 256).

(** Every byte string of length [n]. *)
Fixpoint byte_strings (n : nat) : list (list byte) :=
  match n with
  | O => [[]]
  | S n' => flat_map (fun b => map (cons b) (byte_strings n')) all_bytes
  end.

(** The password made of [n] letters a. *)
Definition letters (n : nat) : jsstring := repeat 97 n.

(** ** Vocabulary of the further properties *)

(** Ana with six characters in the credential field, which [create]
    needs in order to get past [validate()]. *)
Definition ana_with_field : Usuario.t :=
  Usuario.set_password_hash (js "xxxxxx") new_ana.

(** The generated keys start above zero, so a key is never the falsy [0]
    that the constructors turn into [null]. *)
Record store_positive (s : Store) : Prop := {
  positive_next_user : 0 < next_id_user s;
  positive_next_category : 0 < next_id_category s;
  positive_next_quote : 0 < next_id_quote s
}.

(** The instance [create] of a user leaves behind: the hash of the
    password under the salt drawn, the generated key and the time. *)
Definition created_usuario
    (kdf : list byte -> list byte -> Z -> Z -> list byte)
    (password : jsstring) (u : Usuario.t) (w : World) : Usuario.t :=
  Usuario.set_created (next_id_user (store w)) (clock w)
    (Usuario.set_password_hash
       (Usuario.salted_hash kdf (next_salt w) password) u).

(** No stored user has this email, under the comparison of the store. *)
Definition email_free (email : jsstring) (s : Store) : Prop :=
  forall r, In r (usuarios s) ->
            sql_eq (usuario.correo_electronico r) email = false.

(** The columns of the user rows that [update] does not write. *)
Definition usuario_kept (s : Store) : list (Z * jsstring * Z) :=
  map (fun r => (usuario.id_user r, usuario.password_hash r,
                 usuario.fecha_creacion r)) (usuarios s).

(** A stored row with a new credential hash. *)
Definition with_hash (h : jsstring) (r : usuario.row) : usuario.row :=
  {| usuario.id_user := usuario.id_user r;
     usuario.nombre := usuario.nombre r;
     usuario.correo_electronico := usuario.correo_electronico r;
     usuario.password_hash := h;
     usuario.fecha_creacion := usuario.fecha_creacion r;
     usuario.rol := usuario.rol r |}.

(** No stored quote was created by this user. *)
Definition without_quotes (id : Z) (s : Store) : Prop :=
  forall q, In q (frases s) -> frase.creado_por q <> id.

(** No stored category has this name, under the comparison of the store. *)
Definition name_free (nombre : jsstring) (s : Store) : Prop :=
  forall r, In r (categorias s) -> sql_eq (categoria.nombre r) nombre = false.

(** The row [create] of a category inserts. *)
Definition categoria_row_of (id : Z) (c : Categoria.t) : categoria.row :=
  {| categoria.id_category := id; categoria.nombre := Categoria.nombre c;
     categoria.descripcion := Some (Categoria.descripcion c) |}.

(** ** Vocabulary of the listing properties *)

(** The rows a [SELECT] of quotes has before [LIMIT] and [OFFSET]. *)
Definition selected (conds : list Cond) (s : Store) : list frase.joined :=
  order_by_fecha_desc
    (flat_map (join_frase s) (filter (where_holds conds) (frases s))).

(** The row [a] was created after [b] or at the same time. *)
Definition not_older (a b : frase.joined) : Prop :=
  frase.fecha_creacion (frase.f b) <= frase.fecha_creacion (frase.f a).

(** The same on instances, which hold their creation time or [null]. *)
Definition created_not_before (a b : Frase.t) : Prop :=
  match Frase.fecha_creacion a, Frase.fecha_creacion b with
  | Some x, Some y => y <= x
  | _, _ => False
  end.

(** A quote satisfies a filter object: each filter that is given (a
    non-empty string, a number other than zero) holds of it, the strings
    being compared as the store compares them. *)
Definition satisfies (fs : Frase.filters) (q : Frase.t) : Prop :=
  (forall v, Frase.given_str (Frase.f_status fs) = Some v ->
             sql_eq (Frase.status q) v = true)
  /\ (forall v, Frase.given_num (Frase.f_categoria_id fs) = Some v ->
                Frase.categoria_id q = Some v)
  /\ (forall v, Frase.given_num (Frase.f_creado_por fs) = Some v ->
                Frase.creado_por q = Some v)
  /\ (forall v, Frase.given_str (Frase.f_search fs) = Some v ->
                sql_like ([37] ++ v ++ [37]) (Frase.texto q) = true
                \/ sql_like ([37] ++ v ++ [37]) (Frase.autor q) = true).

(** The filter object with no key. *)
Definition no_filters : Frase.filters :=
  {| Frase.f_status := None; Frase.f_categoria_id := None;
     Frase.f_creado_por := None; Frase.f_search := None |}.

(** The filter object of [findPublished]. *)
Definition only_published : Frase.filters :=
  {| Frase.f_status := Some (js "published"); Frase.f_categoria_id := None;
     Frase.f_creado_por := None; Frase.f_search := None |}.

(** Every stored quote has a positive key. *)
Definition quote_keys_positive (s : Store) : Prop :=
  forall r, In r (frases s) -> 0 < frase.id_quote r.

(** The payload of the three named transitions: a status and a scheduled
    date or [null]. *)
Definition transition (st : jsstring) (d : option JsDate) : Frase.patch :=
  {| Frase.p_id_quote := None; Frase.p_texto := None; Frase.p_autor := None;
     Frase.p_fecha_creacion := None; Frase.p_scheduled_at := Some d;
     Frase.p_status := Some st; Frase.p_creado_por := None;
     Frase.p_categoria_id := None |}.

(** The row of a quote after a transition written with the fields of [q]. *)
Definition moved_row (q : Frase.t) (c : Z) (st : jsstring) (at_ : option Z)
    (r : frase.row) : frase.row :=
  set_frase (Frase.texto q) (Frase.autor q) at_ st c r.

(** The column value of a scheduled date that is [null] or an instant. *)
Definition column_of (d : option JsDate) : option Z :=
  match d with
  | Some (Instant ms) => Some ms
  | _ => None
  end.

(** The payload that moves a quote to category 7, which [sample_store]
    does not hold. *)
Definition to_category_seven : Frase.patch :=
  {| Frase.p_id_quote := None; Frase.p_texto := None; Frase.p_autor := None;
     Frase.p_fecha_creacion := None; Frase.p_scheduled_at := None;
     Frase.p_status := None; Frase.p_creado_por := None;
     Frase.p_categoria_id := Some (Some 7) |}.

(** ** Vocabulary of the rejected updates *)

(** What a key of the payload does to a field: a key that is present
    gives the field its value, an absent key leaves the field. *)
Definition takes {A} (payload : option A) (before after : A) : Prop :=
  match payload with
  | Some v => after = v
  | None => after = before
  end.

(** The payload has the key, with a value other than the current one. *)
Definition changes {A} (payload : option A) (current : A) : Prop :=
  exists v, payload = Some v /\ v <> current.

(** The instance [u'] is [u] with the payload assigned: every field but
    the identifier takes its key. *)
Record Usuario_after_payload (p : Usuario.patch) (u u' : Usuario.t)
  : Prop := {
  usuario_keeps_id : Usuario.id_user u' = Usuario.id_user u;
  usuario_takes_nombre :
    takes (Usuario.p_nombre p) (Usuario.nombre u) (Usuario.nombre u');
  usuario_takes_correo :
    takes (Usuario.p_correo_electronico p) (Usuario.correo_electronico u)
      (Usuario.correo_electronico u');
  usuario_takes_password_hash :
    takes (Usuario.p_password_hash p) (Usuario.password_hash u)
      (Usuario.password_hash u');
  usuario_takes_fecha :
    takes (Usuario.p_fecha_creacion p) (Usuario.fecha_creacion u)
      (Usuario.fecha_creacion u');
  usuario_takes_rol :
    takes (Usuario.p_rol p) (Usuario.rol u) (Usuario.rol u')
}.

Record Categoria_after_payload (p : Categoria.patch) (c c' : Categoria.t)
  : Prop := {
  categoria_keeps_id : Categoria.id_category c' = Categoria.id_category c;
  categoria_takes_nombre :
    takes (Categoria.p_nombre p) (Categoria.nombre c) (Categoria.nombre c');
  categoria_takes_descripcion :
    takes (Categoria.p_descripcion p) (Categoria.descripcion c)
      (Categoria.descripcion c')
}.

Record Frase_after_payload (p : Frase.patch) (q q' : Frase.t) : Prop := {
  frase_keeps_id : Frase.id_quote q' = Frase.id_quote q;
  frase_takes_texto :
    takes (Frase.p_texto p) (Frase.texto q) (Frase.texto q');
  frase_takes_autor :
    takes (Frase.p_autor p) (Frase.autor q) (Frase.autor q');
  frase_takes_fecha :
    takes (Frase.p_fecha_creacion p) (Frase.fecha_creacion q)
      (Frase.fecha_creacion q');
  frase_takes_scheduled_at :
    takes (Frase.p_scheduled_at p) (Frase.scheduled_at q)
      (Frase.scheduled_at q');
  frase_takes_status :
    takes (Frase.p_status p) (Frase.status q) (Frase.status q');
  frase_takes_creado_por :
    takes (Frase.p_creado_por p) (Frase.creado_por q) (Frase.creado_por q');
  frase_takes_categoria_id :
    takes (Frase.p_categoria_id p) (Frase.categoria_id q)
      (Frase.categoria_id q');
  frase_keeps_creado_por_nombre :
    Frase.creado_por_nombre q' = Frase.creado_por_nombre q;
  frase_keeps_categoria_nombre :
    Frase.categoria_nombre q' = Frase.categoria_nombre q
}.

(** The payload gives one of the columns [update] writes a value other
    than the one the instance holds. *)
Definition Usuario_payload_changes (p : Usuario.patch) (u : Usuario.t)
  : Prop :=
  changes (Usuario.p_nombre p) (Usuario.nombre u)
  \/ changes (Usuario.p_correo_electronico p) (Usuario.correo_electronico u)
  \/ changes (Usuario.p_rol p) (Usuario.rol u).

Definition Categoria_payload_changes (p : Categoria.patch)
    (c : Categoria.t) : Prop :=
  changes (Categoria.p_nombre p) (Categoria.nombre c)
  \/ changes (Categoria.p_descripcion p) (Categoria.descripcion c).

Definition Frase_payload_changes (p : Frase.patch) (q : Frase.t) : Prop :=
  changes (Frase.p_texto p) (Frase.texto q)
  \/ changes (Frase.p_autor p) (Frase.autor q)
  \/ changes (Frase.p_scheduled_at p) (Frase.scheduled_at q)
  \/ changes (Frase.p_status p) (Frase.status q)
  \/ changes (Frase.p_categoria_id p) (Frase.categoria_id q).

(** Payloads that fail validation: a name of one letter for a user and
    for a category, a status outside the enumeration for a quote. *)
Definition usuario_named_a : Usuario.patch :=
  {| Usuario.p_id_user := None; Usuario.p_nombre := Some (js "A");
     Usuario.p_correo_electronico := None; Usuario.p_password_hash := None;
     Usuario.p_fecha_creacion := None; Usuario.p_rol := None |}.

Definition categoria_named_h : Categoria.patch :=
  {| Categoria.p_id_category := None; Categoria.p_nombre := Some (js "H");
     Categoria.p_descripcion := None |}.

Definition frase_archived : Frase.patch :=
  {| Frase.p_id_quote := None; Frase.p_texto := None; Frase.p_autor := None;
     Frase.p_fecha_creacion := None; Frase.p_scheduled_at := None;
     Frase.p_status := Some (js "archived"); Frase.p_creado_por := None;
     Frase.p_categoria_id := None |}.

(** The fields of a user other than the creation time, which the
    instance reads from its own clock and the row from the store's. *)
Definition Usuario_identity (u : Usuario.t)
  : option Z * jsstring * jsstring * jsstring * jsstring :=
  (Usuario.id_user u, Usuario.nombre u, Usuario.correo_electronico u,
   Usuario.password_hash u, Usuario.rol u).

(** A character [LIKE] takes literally: not [%], [_] or the backslash. *)
Definition literal (c : Z) : Prop := c <> 37 /\ c <> 95 /\ c <> 92.

(** The term occurs in the string: a part of the string equals the term,
    under the comparison of the store. *)
Definition occurs_in (v s : jsstring) : Prop :=
  exists pre mid post, s = pre ++ mid ++ post /\ sql_eq mid v = true.

(** The filter object with a search term only. *)
Definition searching (term : jsstring) : Frase.filters :=
  {| Frase.f_status := None; Frase.f_categoria_id := None;
     Frase.f_creado_por := None; Frase.f_search := Some term |}.

(** The creation time of a row of the joined result. *)
Definition created_at (j : frase.joined) : Z :=
  frase.fecha_creacion (frase.f j).

(** A list the server may answer an [ORDER BY f.fecha_creacion DESC]
    with: the selected rows in an order that is newest first. Rows created
    at the same instant may come in either order. *)
Definition server_order (conds : list Cond) (s : Store)
    (l : list frase.joined) : Prop :=
  Permutation l
    (flat_map (join_frase s) (filter (where_holds conds) (frases s)))
  /\ StronglySorted not_older l.

(** No two stored quotes were created at the same instant. *)
Definition distinct_times (s : Store) : Prop :=
  NoDup (map frase.fecha_creacion (frases s)).


(* ===================================================================== *)
(** * Properties *)
(* ===================================================================== *)

(** ** The primitives on examples *)

Example trim_example : trim (js "  hola  ") = js "hola".
Proof. reflexivity. Qed.

Example trim_blank_text : trim blank_text = [].
Proof. reflexivity. Qed.

Example split_example : split 58 (js "ab:cd:ef") = [js "ab"; js "cd"; js "ef"].
Proof. reflexivity. Qed.

Example join_example : join ", " ["a"; "b"; "c"]%string = "a, b, c"%string.
Proof. reflexivity. Qed.

Example email_accepted : Usuario.isValidEmail (js "ana.b@x.com.mx") = true.
Proof. reflexivity. Qed.

Example email_without_dot : Usuario.isValidEmail (js "ana@x") = false.
Proof. reflexivity. Qed.

Example email_with_space : Usuario.isValidEmail (js "a na@x.com") = false.
Proof. reflexivity. Qed.

Example email_with_two_ats : Usuario.isValidEmail (js "a@b@c.com") = false.
Proof. reflexivity. Qed.

Example like_ignores_case : sql_like (js "%hope%") (js "There is Hope.") = true.
Proof. reflexivity. Qed.

Example like_one_character :
  sql_like (js "h_pe") (js "hope") = true
  /\ sql_like (js "h_pe") (js "hoope") = false.
Proof. split; reflexivity. Qed.

Example to_hex_example : to_hex [x0a; xff] = js "0aff".
Proof. reflexivity. Qed.

Example utf8_two_bytes : utf8_encode [233] = [xc3; xa9].
Proof. reflexivity. Qed.

Example utf8_surrogate_pair :
  utf8_encode [55357; 56832] = [xf0; x9f; x98; x80].
Proof. reflexivity. Qed.

Example utf8_lone_surrogate : utf8_encode [55296] = [xef; xbf; xbd].
Proof. reflexivity. Qed.

(** ** Strings *)

Lemma str_eqb_eq (a b : jsstring) : str_eqb a b = true <-> a = b.
Proof.
  revert b; induction a as [| x a IH]; intros [| y b]; simpl;
    try (split; [discriminate | congruence]); try tauto.
  rewrite andb_true_iff, Z.eqb_eq, IH.
  split; [intros [-> ->]; reflexivity | intros H; inversion H; auto].
Qed.

Lemma str_eqb_refl (a : jsstring) : str_eqb a a = true.
Proof. apply str_eqb_eq; reflexivity. Qed.

Lemma str_eqb_neq (a b : jsstring) : str_eqb a b = false <-> a <> b.
Proof.
  rewrite <- str_eqb_eq. destruct (str_eqb a b); split; congruence.
Qed.

Lemma includes_In (arr : list jsstring) (x : jsstring) :
  includes arr x = true <-> In x arr.
Proof.
  unfold includes. rewrite existsb_exists. split.
  - intros (y & Hy & E). apply str_eqb_eq in E. subst; assumption.
  - intros H. exists x. split; [assumption | apply str_eqb_refl].
Qed.

Lemma truthy_str_len (s : jsstring) : truthy_str s = false -> len s = 0.
Proof. destruct s; [reflexivity | discriminate]. Qed.

Lemma length_trimStart (s : jsstring) :
  (length (trimStart s) <= length s)%nat.
Proof.
  induction s as [| c s IH]; simpl; [lia |].
  destruct (is_space c); simpl; lia.
Qed.

(** Trimming never lengthens a string. *)
Lemma len_trim_le (s : jsstring) : len (trim s) <= len s.
Proof.
  unfold len, trim, trimEnd.
  rewrite length_rev.
  pose proof (length_trimStart (rev (trimStart s))) as H1.
  rewrite length_rev in H1.
  pose proof (length_trimStart s). lia.
Qed.

(** A string with fewer than [n] characters fails [trim().length < n]
    whether or not it is empty. *)
Lemma short_guard (s : jsstring) (n : Z) :
  0 < n ->
  (negb (truthy_str s) || (len (trim s) <? n)) = (len (trim s) <? n).
Proof.
  intros Hn. destruct s as [| c s]; simpl; [| reflexivity].
  symmetry. apply Z.ltb_lt. assumption.
Qed.

(** ** Error lists *)

Lemma push_if_collect (g : bool) (m : string) (cs : list (bool * string)) :
  push_if g m (collect cs) = collect (cs ++ [(g, m)]).
Proof.
  unfold push_if, collect. rewrite filter_app, map_app. simpl.
  destruct g; simpl; [reflexivity | rewrite app_nil_r; reflexivity].
Qed.

Lemma In_collect (m : string) (cs : list (bool * string)) :
  In (true, m) cs -> In m (collect cs).
Proof.
  intros H. unfold collect. apply in_map_iff. exists (true, m).
  split; [reflexivity |]. apply filter_In. split; [assumption | reflexivity].
Qed.

Lemma collect_none (cs : list (bool * string)) :
  (forall g m, In (g, m) cs -> g = false) -> collect cs = [].
Proof.
  induction cs as [| [g m] cs IH]; intros H; [reflexivity |].
  unfold collect; simpl. rewrite (H g m (or_introl eq_refl)). simpl.
  apply IH. intros g' m' Hin. apply (H g' m'). right; assumption.
Qed.

Lemma isValid_validation_of (es : list string) :
  isValid (validation_of es) = true <-> es = [].
Proof. destruct es; simpl; split; congruence. Qed.

Lemma invalid_of_In (m : string) (es : list string) :
  In m es -> isValid (validation_of es) = false.
Proof. destruct es; simpl; [tauto | reflexivity]. Qed.

(** ** The three [validate()] methods collect their checks *)

Lemma Usuario_validate_collect (u : Usuario.t) :
  Usuario.validate u = validation_of (collect (Usuario_checks u)).
Proof.
  unfold Usuario.validate, Usuario_checks.
  change (@nil string) with (collect []).
  repeat rewrite push_if_collect. reflexivity.
Qed.

Lemma Categoria_validate_collect (c : Categoria.t) :
  Categoria.validate c = validation_of (collect (Categoria_checks c)).
Proof.
  unfold Categoria.validate, Categoria_checks.
  change (@nil string) with (collect []).
  repeat rewrite push_if_collect. reflexivity.
Qed.

Lemma Frase_validate_collect (now : Z) (q : Frase.t) :
  Frase.validate now q = validation_of (collect (Frase_checks now q)).
Proof.
  unfold Frase.validate, Frase_checks.
  change (@nil string) with (collect []).
  repeat rewrite push_if_collect. reflexivity.
Qed.

(** ** Frase.validate *)

Lemma missing_id_false (v : option Z) :
  (exists z, v = Some z /\ 0 < z) -> Frase.missing_id v = false.
Proof.
  intros (z & -> & Hz). unfold Frase.missing_id; simpl.
  assert ((z =? 0) = false) as -> by (apply Z.eqb_neq; lia).
  assert ((z <=? 0) = false) as -> by (apply Z.leb_gt; lia).
  reflexivity.
Qed.

Lemma missing_id_true (v : option Z) :
  ~ (exists z, v = Some z /\ 0 < z) -> Frase.missing_id v = true.
Proof.
  intros H. unfold Frase.missing_id. destruct v as [z |]; simpl;
    [| reflexivity].
  destruct (Z.leb_spec z 0) as [Hle | Hgt].
  - apply orb_true_r.
  - exfalso. apply H. exists z. split; [reflexivity | assumption].
Qed.

(** Every rule that a quote violates has its message in the error list. *)
Lemma Frase_violation_reported (now : Z) (q : Frase.t) (r : QuoteRule) :
  violates now q r -> In (true, rule_message r) (Frase_checks now q).
Proof.
  unfold Frase_checks.
  destruct r; cbn [violates rule_message]; intros H.
  - left. f_equal. rewrite short_guard by lia. apply Z.ltb_lt. assumption.
  - right; left. f_equal.
    assert ((1000 <? len (Frase.texto q)) = true) as E by (apply Z.ltb_lt; lia).
    rewrite E. destruct (Frase.texto q); [discriminate E | reflexivity].
  - do 2 right; left. f_equal.
    assert ((120 <? len (Frase.autor q)) = true) as E by (apply Z.ltb_lt; lia).
    rewrite E. destruct (Frase.autor q); [discriminate E | reflexivity].
  - do 3 right; left. f_equal. apply missing_id_true. assumption.
  - do 4 right; left. f_equal. apply missing_id_true. assumption.
  - do 5 right; left. f_equal. apply negb_true_iff.
    destruct (includes status_enum (Frase.status q)) eqn:E; [| reflexivity].
    apply includes_In in E. contradiction.
  - do 6 right; left. destruct H as [Hs Hn]. rewrite Hs, Hn. reflexivity.
  - do 7 right; left. destruct H as (ms & Hs & Hle). rewrite Hs.
    cbn [date_le_now]. f_equal. apply Z.leb_le. assumption.
Qed.

(** A quote within the rules fires no check. *)
Lemma Frase_rules_no_check (now : Z) (q : Frase.t) :
  quote_rules now q ->
  forall g m, In (g, m) (Frase_checks now q) -> g = false.
Proof.
  intros [Hmin Hmax Hau Hcr Hca Hst Hsc Hfu] g m Hin.
  unfold Frase_checks in Hin. cbn [In] in Hin.
  repeat (destruct Hin as [Hin | Hin];
          [injection Hin as Hg _; subst g; clear m |]);
    try contradiction.
  - rewrite short_guard by lia. apply Z.ltb_ge. assumption.
  - apply andb_false_iff. right. apply Z.ltb_ge. assumption.
  - apply andb_false_iff. right. apply Z.ltb_ge. assumption.
  - apply missing_id_false. assumption.
  - apply missing_id_false. assumption.
  - change (negb (includes status_enum (Frase.status q)) = false).
    rewrite (proj2 (includes_In _ _) Hst). reflexivity.
  - destruct (str_eqb (Frase.status q) (js "scheduled")) eqn:E;
      [| reflexivity].
    apply str_eqb_eq in E. specialize (Hsc E).
    destruct (Frase.scheduled_at q); [reflexivity | congruence].
  - destruct (Frase.scheduled_at q) as [d |]; [| reflexivity].
    destruct (Hfu d eq_refl) as (ms & -> & Hlt). cbn [date_le_now].
    apply Z.leb_gt. assumption.
Qed.

Lemma Frase_validate_accepts (now : Z) (q : Frase.t) :
  quote_rules now q -> Frase.validate now q = accepted.
Proof.
  intros H. rewrite Frase_validate_collect.
  rewrite (collect_none _ (Frase_rules_no_check now q H)). reflexivity.
Qed.

(** C1, as the specification states it, fails: a text of ten spaces has a
    length within [10, 1000] and every other field within its rule, and
    [validate()] rejects it, because the lower bound is measured after
    trimming. *)
Lemma Frase_validate_rejects_blank_text :
  spec_quote_rules 0 (draft_with_text blank_text)
  /\ Frase.validate 0 (draft_with_text blank_text)
     = {| isValid := false; errors := [Frase.msg_texto_min] |}.
Proof.
  split; [| reflexivity].
  constructor; simpl.
  - vm_compute. split; discriminate.
  - vm_compute. discriminate.
  - exists 1. split; [reflexivity | lia].
  - exists 1. split; [reflexivity | lia].
  - left. reflexivity.
  - intros H. discriminate H.
  - intros d H. discriminate H.
Qed.

(** C1, amended: a quote whose fields satisfy the rules, the lower bound of
    the text being on its trimmed length and a scheduled date being an
    instant after now, is accepted with an empty error list; and every
    rule that a quote violates, alone or with others, makes [validate()]
    reject it with the message of that rule. *)
Theorem Frase_validate_field_rules (now : Z) (q : Frase.t) :
  (quote_rules now q -> Frase.validate now q = accepted)
  /\ (forall r, violates now q r ->
        isValid (Frase.validate now q) = false
        /\ In (rule_message r) (errors (Frase.validate now q))).
Proof.
  split; [apply Frase_validate_accepts |].
  rewrite Frase_validate_collect.
  - intros r H.
    pose proof (In_collect _ _ (Frase_violation_reported now q r H)) as Hin.
    split; [apply (invalid_of_In _ _ Hin) | exact Hin].
Qed.

Lemma Frase_validate_field_rules_witness :
  Frase.validate 0 (draft_with_text gift_text) = accepted
  /\ (isValid (Frase.validate 0 (draft_with_text blank_text)) = false
      /\ In (rule_message TextMin)
           (errors (Frase.validate 0 (draft_with_text blank_text)))).
Proof.
  split.
  - apply (proj1 (Frase_validate_field_rules 0 (draft_with_text gift_text))).
    constructor; simpl.
    + vm_compute. discriminate.
    + vm_compute. discriminate.
    + vm_compute. discriminate.
    + exists 1. split; [reflexivity | lia].
    + exists 1. split; [reflexivity | lia].
    + left. reflexivity.
    + intros H. discriminate H.
    + intros d H. discriminate H.
  - apply (proj2 (Frase_validate_field_rules 0 (draft_with_text blank_text))
             TextMin).
    vm_compute. reflexivity.
Defined.

(** ** Running the methods *)

Lemma query_available (q : Stmt) (w : World) :
  available w -> Database.query q w = Database.run q (connected w).
Proof.
  intros H. unfold Database.query, Database.connect, connected, bind, ret.
  cbv beta.
  destruct (connection w) eqn:Hc; [reflexivity |].
  destruct H as [H | H]; [congruence |]. rewrite Hc, H. reflexivity.
Qed.

Lemma query_unavailable (q : Stmt) (w : World) :
  ~ available w ->
  Database.query q w = (Throw (DriverError "ECONNREFUSED"), w).
Proof.
  intros H. unfold Database.query, Database.connect, bind, ret.
  unfold available in H. cbv beta.
  destruct (connection w) eqn:Hc; [tauto |]. rewrite Hc.
  destruct (server_up w); [tauto | reflexivity].
Qed.

Lemma available_dec (w : World) : available w \/ ~ available w.
Proof.
  unfold available.
  destruct (connection w); [left; left; reflexivity |].
  destruct (server_up w); [left; right; reflexivity |].
  right. intros [H | H]; discriminate H.
Qed.

Lemma store_connected (w : World) : store (connected w) = store w.
Proof. unfold connected. destruct (connection w); reflexivity. Qed.

Lemma trace_connected (w : World) : trace (connected w) = trace w.
Proof. unfold connected. destruct (connection w); reflexivity. Qed.

Lemma clock_connected (w : World) : clock (connected w) = clock w.
Proof. unfold connected. destruct (connection w); reflexivity. Qed.

(** What [run] leaves behind, whether the statement succeeds or not. *)
Lemma run_world (q : Stmt) (w : World) :
  snd (Database.run q w)
  = with_execution w (snd (execute (clock w) q (store w))) q.
Proof.
  unfold Database.run.
  destruct (execute (clock w) q (store w)) as [[code | r] s']; reflexivity.
Qed.

(** [update] of a quote that has an identifier: the payload is merged, the
    merged fields are validated, and only then is the statement sent. *)
Lemma Frase_update_eval (p : Frase.patch) (q : Frase.t) (w : World) (id : Z) :
  Frase.id_quote q = Some id ->
  Frase.update p (q, w) =
    let q1 := Frase.merge p q in
    let v := Frase.validate (clock w) q1 in
    if isValid v then
      match Database.query
              (UpdateFrase (Frase.texto q1) (Frase.autor q1)
                 (Frase.scheduled_at q1) (Frase.status q1)
                 (Frase.categoria_id q1) id) w with
      | (Return _, w') => (Return q1, (q1, w'))
      | (Throw e, w') =>
          (Throw (if has_code e "ER_NO_REFERENCED_ROW_2"
                  then Error "El usuario o categoría especificados no existen"
                  else e), (q1, w'))
      end
    else (Throw (invalid_data v), (q1, w)).
Proof.
  intros Hid. cbv zeta.
  unfold Frase.update, bind, this, assign, on_world, new_Date, try_catch,
    throw, Frase.on_missing_reference; cbn [fst snd].
  rewrite Hid. cbn [fst snd].
  destruct (isValid (Frase.validate (clock w) (Frase.merge p q)));
    cbn [negb]; [| reflexivity].
  cbv beta iota. cbn [fst snd].
  destruct (Database.query _ w) as [[r | e] w']; cbn [fst snd];
    [reflexivity |].
  destruct (has_code e "ER_NO_REFERENCED_ROW_2"); reflexivity.
Qed.

Lemma Frase_update_without_id (p : Frase.patch) (q : Frase.t) (w : World) :
  Frase.id_quote q = None ->
  Frase.update p (q, w)
  = (Throw (Error "No se puede actualizar una frase sin ID"), (q, w)).
Proof.
  intros Hid. unfold Frase.update, bind, this, throw; cbn [fst snd].
  rewrite Hid. reflexivity.
Qed.

(** ** Frase.update and the owning user *)

Lemma update_frase_owners (t a : jsstring) (d : option JsDate) (st : jsstring)
    (c : option Z) (id : Z) (s : Store) :
  owners (snd (update_frase t a d st c id s)) = owners s.
Proof.
  unfold update_frase.
  destruct (negb (existsb _ (frases s))); [reflexivity |].
  destruct c as [c |]; [| reflexivity].
  destruct (negb (includes status_enum st)); [reflexivity |].
  destruct (datetime_of d) as [at_ |]; [| reflexivity].
  destruct (negb (categoria_exists s c)); [reflexivity |].
  unfold owners; cbn [snd with_frases frases]. rewrite map_map.
  apply map_ext. intros r. destruct (frase.id_quote r =? id); reflexivity.
Qed.

Lemma query_update_frase_owners (t a : jsstring) (d : option JsDate)
    (st : jsstring) (c : option Z) (id : Z) (w : World) :
  owners (store (snd (Database.query (UpdateFrase t a d st c id) w)))
  = owners (store w).
Proof.
  destruct (available_dec w) as [Ha | Hn].
  - rewrite (query_available _ _ Ha), run_world; cbn [store with_execution].
    rewrite store_connected. apply update_frase_owners.
  - rewrite (query_unavailable _ _ Hn). reflexivity.
Qed.

Lemma query_trace (q : Stmt) (w : World) :
  trace (snd (Database.query q w)) = trace w
  \/ trace (snd (Database.query q w)) = trace w ++ [q].
Proof.
  destruct (available_dec w) as [Ha | Hn].
  - right. rewrite (query_available _ _ Ha), run_world.
    cbn [trace with_execution]. rewrite trace_connected. reflexivity.
  - left. rewrite (query_unavailable _ _ Hn). reflexivity.
Qed.

(** C9: whatever the payload, [update] leaves the owning-user column of
    every stored quote as it was: the one statement it may send binds the
    text, the author, the scheduled date, the status and the category of
    the instance and the identifier, and no owner. A [creado_por] of the
    payload is assigned to the instance in memory and is validated: when
    it is not a positive identifier the update is rejected with the
    message of the creator rule and nothing is sent. *)
Theorem Frase_update_keeps_creado_por (p : Frase.patch) (q : Frase.t)
    (w : World) (id : Z) :
  Frase.id_quote q = Some id ->
  let r := Frase.update p (q, w) in
  let q' := fst (snd r) in
  let w' := snd (snd r) in
  owners (store w') = owners (store w)
  /\ (trace w' = trace w
      \/ trace w' = trace w ++
           [UpdateFrase (Frase.texto q') (Frase.autor q')
              (Frase.scheduled_at q') (Frase.status q')
              (Frase.categoria_id q') id])
  /\ Frase.creado_por q' = merged (Frase.p_creado_por p) (Frase.creado_por q)
  /\ (Frase.missing_id (Frase.creado_por q') = true ->
      w' = w
      /\ exists v, fst r = Throw (invalid_data v)
                   /\ In Frase.msg_creado_por (errors v)).
Proof.
  intros Hid. cbv zeta. rewrite (Frase_update_eval p q w id Hid). cbv zeta.
  set (q1 := Frase.merge p q).
  set (stmt := UpdateFrase _ _ _ _ _ id).
  destruct (isValid (Frase.validate (clock w) q1)) eqn:Hv.
  - pose proof (query_update_frase_owners (Frase.texto q1) (Frase.autor q1)
                  (Frase.scheduled_at q1) (Frase.status q1)
                  (Frase.categoria_id q1) id w) as Ho.
    pose proof (query_trace stmt w) as Ht.
    fold stmt in Ho.
    destruct (Database.query stmt w) as [[res | e] w1]; cbn [fst snd] in *.
    + split; [exact Ho | split; [exact Ht | split; [reflexivity |]]].
      intros Hm. exfalso.
      rewrite Frase_validate_collect in Hv.
      assert (In Frase.msg_creado_por (collect (Frase_checks (clock w) q1)))
        as Hin.
      { apply In_collect. unfold Frase_checks. do 3 right; left.
        f_equal. exact Hm. }
      rewrite (invalid_of_In _ _ Hin) in Hv. discriminate Hv.
    + split; [exact Ho | split; [exact Ht | split; [reflexivity |]]].
      intros Hm. exfalso.
      rewrite Frase_validate_collect in Hv.
      assert (In Frase.msg_creado_por (collect (Frase_checks (clock w) q1)))
        as Hin.
      { apply In_collect. unfold Frase_checks. do 3 right; left.
        f_equal. exact Hm. }
      rewrite (invalid_of_In _ _ Hin) in Hv. discriminate Hv.
  - cbn [fst snd].
    split; [reflexivity | split; [left; reflexivity | split; [reflexivity |]]].
    intros Hm. split; [reflexivity |].
    exists (Frase.validate (clock w) q1). split; [reflexivity |].
    rewrite Frase_validate_collect. cbn [errors validation_of].
    apply In_collect. unfold Frase_checks. do 3 right; left.
    f_equal. exact Hm.
Qed.

Lemma Frase_update_keeps_creado_por_witness :
  let p := {| Frase.p_id_quote := None;
              Frase.p_texto := Some (js "A new text for this quote");
              Frase.p_autor := None; Frase.p_fecha_creacion := None;
              Frase.p_scheduled_at := Some None;
              Frase.p_status := Some (js "draft");
              Frase.p_creado_por := Some (Some 7);
              Frase.p_categoria_id := None |} in
  let q := loaded gift (js "Ana") (js "Hope") in
  let w := world_of sample_store in
  Frase.id_quote q = Some 1
  /\ owners (store (snd (snd (Frase.update p (q, w))))) = owners (store w).
Proof.
  cbv zeta. split; [reflexivity |].
  refine (proj1 (Frase_update_keeps_creado_por _ _ _ 1 _)). reflexivity.
Defined.

(** ** Frase.publish *)

Lemma map_unchanged {A} (f : A -> A) (l : list A) :
  (forall x, In x l -> f x = x) -> map f l = l.
Proof.
  induction l as [| x l IH]; intros H; simpl; [reflexivity |].
  rewrite (H x (or_introl eq_refl)), IH; [reflexivity |].
  intros y Hy. apply H. right; assumption.
Qed.

Lemma existsb_false_forall {A} (f : A -> bool) (l : list A) :
  existsb f l = false -> forall x, In x l -> f x = false.
Proof.
  intros H x Hx. destruct (f x) eqn:E; [| reflexivity].
  assert (existsb f l = true) as H' by (apply existsb_exists; eauto).
  congruence.
Qed.

(** The rows after an accepted [UPDATE frase], whether or not a row has
    the identifier. *)
Lemma update_frase_accepted (t a : jsstring) (st : jsstring) (c id : Z)
    (s : Store) :
  includes status_enum st = true ->
  categoria_exists s c = true ->
  exists n,
    update_frase t a None st (Some c) id s
    = (inr (OkPacket n 0),
       with_frases s
         (map (fun r => if frase.id_quote r =? id
                        then set_frase t a None st c r else r)
            (frases s))).
Proof.
  intros Hst Hc. unfold update_frase.
  destruct (existsb (fun r => frase.id_quote r =? id) (frases s)) eqn:He;
    cbn [negb].
  - rewrite Hst, Hc. cbn [negb datetime_of]. exists 1. reflexivity.
  - exists 0. f_equal.
    rewrite map_unchanged.
    + destruct s; reflexivity.
    + intros r Hr.
      rewrite (existsb_false_forall _ _ He r Hr). reflexivity.
Qed.

(** C2, as the specification states it, fails: an identifier and valid
    remaining fields are not enough. The quote [gift] is loaded and given
    the category 7, which is not stored: the store refuses that update,
    and the instance keeps 7. It has an identifier and its text, author,
    creator and category pass their rules, yet [publish()] throws the
    error on the missing user or category; the instance is then published
    with no scheduled date and passes [validate()], and the row is as
    before, scheduled for the instant 100. *)
Lemma Frase_publish_missing_category :
  let r1 := Frase.update to_category_seven
              (loaded gift (js "Ana") (js "Hope"), world_of sample_store) in
  let q := fst (snd r1) in
  let r2 := Frase.publish (q, snd (snd r1)) in
  fst r1 = Throw (Error "El usuario o categoría especificados no existen")
  /\ Frase.id_quote q = Some 1
  /\ remaining_fields_valid q
  /\ Frase.categoria_id q = Some 7
  /\ fst r2 = Throw (Error "El usuario o categoría especificados no existen")
  /\ Frase.status (fst (snd r2)) = js "published"
  /\ Frase.scheduled_at (fst (snd r2)) = None
  /\ isValid (Frase.validate 50 (fst (snd r2))) = true
  /\ frases (store (snd (snd r2))) = [gift; thanks]
  /\ frase.status gift = js "scheduled"
  /\ frase.scheduled_at gift = Some 100.
Proof.
  cbv zeta.
  split; [vm_compute; reflexivity |]. split; [reflexivity |].
  split.
  { constructor.
    - vm_compute. discriminate.
    - vm_compute. discriminate.
    - vm_compute. discriminate.
    - exists 1. split; [reflexivity | lia].
    - exists 7. split; [reflexivity | lia]. }
  split; [reflexivity |].
  split; [vm_compute; reflexivity |].
  split; [vm_compute; reflexivity |].
  split; [vm_compute; reflexivity |].
  split; [vm_compute; reflexivity |].
  split; [vm_compute; reflexivity |].
  split; reflexivity.
Qed.

(** C2: [publish()] on a quote that has an identifier and whose other
    fields pass validation, in front of a store that takes the update,
    returns the instance with the status published and no scheduled date,
    and the row of that identifier holds the same two values afterwards
    (with the text, author and category of the instance); the rows of the
    other quotes are as before. *)
Theorem Frase_publish_persists (q : Frase.t) (w : World) (id : Z) :
  Frase.id_quote q = Some id ->
  remaining_fields_valid q ->
  store_takes_update q w ->
  exists (q' : Frase.t) (w' : World) (c : Z),
    Frase.publish (q, w) = (Return q', (q', w'))
    /\ Frase.status q' = js "published"
    /\ Frase.scheduled_at q' = None
    /\ Frase.categoria_id q = Some c
    /\ frases (store w')
       = map (fun r => if frase.id_quote r =? id
                       then published_row q c r else r)
           (frases (store w))
    /\ (forall r, In r (frases (store w')) -> frase.id_quote r = id ->
          frase.status r = js "published" /\ frase.scheduled_at r = None)
    /\ ((exists r, In r (frases (store w)) /\ frase.id_quote r = id) ->
        exists r', In r' (frases (store w')) /\ frase.id_quote r' = id).
Proof.
  intros Hid [Hmin Hmax Hau Hcr Hca] (Hav & c & Hc & Hex).
  unfold Frase.publish. rewrite (Frase_update_eval _ q w id Hid). cbv zeta.
  set (q1 := Frase.merge _ q).
  assert (Frase.validate (clock w) q1 = accepted) as Hv.
  { apply Frase_validate_accepts. constructor; subst q1; cbn; try assumption.
    - right; right; left. reflexivity.
    - intros H. discriminate H.
    - intros d H. discriminate H. }
  rewrite Hv. cbn [isValid accepted].
  rewrite (query_available _ _ Hav). unfold Database.run.
  rewrite store_connected. cbn [execute].
  subst q1. cbn [Frase.merge merged Frase.p_texto Frase.p_autor
                   Frase.p_scheduled_at Frase.p_status Frase.p_categoria_id
                   Frase.texto Frase.autor Frase.scheduled_at Frase.status
                   Frase.categoria_id].
  rewrite Hc.
  destruct (update_frase_accepted (Frase.texto q) (Frase.autor q)
              (js "published") c id (store w) eq_refl Hex) as (n & ->).
  eexists. eexists. exists c.
  split; [reflexivity |].
  split; [reflexivity |]. split; [reflexivity |]. split; [reflexivity |].
  cbn [store with_execution with_frases frases].
  split; [reflexivity |]. split.
  - intros r Hr Hrid. apply in_map_iff in Hr. destruct Hr as (r0 & E & _).
    destruct (frase.id_quote r0 =? id) eqn:E0.
    + subst r. split; reflexivity.
    + subst r. apply Z.eqb_neq in E0. contradiction.
  - intros (r & Hr & Hrid).
    exists (published_row q c r). split; [| exact Hrid].
    apply in_map_iff. exists r. split; [| exact Hr].
    rewrite (proj2 (Z.eqb_eq _ _) Hrid). reflexivity.
Qed.

Lemma Frase_publish_persists_witness :
  let q := loaded gift (js "Ana") (js "Hope") in
  let w := world_of sample_store in
  Frase.id_quote q = Some 1
  /\ remaining_fields_valid q
  /\ store_takes_update q w
  /\ exists (q' : Frase.t) (w' : World),
       Frase.publish (q, w) = (Return q', (q', w'))
       /\ Frase.status q' = js "published"
       /\ Frase.scheduled_at q' = None
       /\ exists r', In r' (frases (store w')) /\ frase.id_quote r' = 1
                     /\ frase.status r' = js "published"
                     /\ frase.scheduled_at r' = None.
Proof.
  cbv zeta.
  assert (remaining_fields_valid (loaded gift (js "Ana") (js "Hope"))) as Hr.
  { constructor.
    - vm_compute. discriminate.
    - vm_compute. discriminate.
    - vm_compute. discriminate.
    - exists 1. split; [reflexivity | lia].
    - exists 1. split; [reflexivity | lia]. }
  assert (store_takes_update (loaded gift (js "Ana") (js "Hope"))
            (world_of sample_store)) as Hs.
  { split; [right; reflexivity |]. exists 1. split; reflexivity. }
  split; [reflexivity |]. split; [exact Hr |]. split; [exact Hs |].
  destruct (Frase_publish_persists (loaded gift (js "Ana") (js "Hope"))
              (world_of sample_store) 1 eq_refl Hr Hs)
    as (q' & w' & c & Hp & Hst & Hsc & _ & _ & Hrows & Hkeep).
  exists q', w'. split; [exact Hp |]. split; [exact Hst |].
  split; [exact Hsc |].
  destruct Hkeep as (r' & Hin & Hid).
  { exists gift. split; [left; reflexivity | reflexivity]. }
  exists r'. split; [exact Hin |]. split; [exact Hid |].
  exact (Hrows r' Hin Hid).
Defined.

(** ** Validation comes first in the write operations *)

Lemma invalid_data_collect (checks : list (bool * string)) :
  invalid_data (validation_of (collect checks)) = validation_error checks.
Proof. reflexivity. Qed.

Lemma Usuario_create_invalid
    (kdf : list byte -> list byte -> Z -> Z -> list byte)
    (password : jsstring) (u : Usuario.t) (w : World) :
  isValid (Usuario.validate u) = false ->
  Usuario.create kdf password (u, w)
  = (Throw (invalid_data (Usuario.validate u)), (u, w)).
Proof.
  intros Hv. unfold Usuario.create, bind, this, throw; cbn [fst snd].
  rewrite Hv. reflexivity.
Qed.

Lemma Categoria_create_invalid (c : Categoria.t) (w : World) :
  isValid (Categoria.validate c) = false ->
  Categoria.create (c, w)
  = (Throw (invalid_data (Categoria.validate c)), (c, w)).
Proof.
  intros Hv. unfold Categoria.create, bind, this, throw; cbn [fst snd].
  rewrite Hv. reflexivity.
Qed.

Lemma Frase_create_invalid (q : Frase.t) (w : World) :
  isValid (Frase.validate (clock w) q) = false ->
  Frase.create (q, w)
  = (Throw (invalid_data (Frase.validate (clock w) q)), (q, w)).
Proof.
  intros Hv.
  unfold Frase.create, bind, this, throw, on_world, new_Date; cbn [fst snd].
  rewrite Hv. reflexivity.
Qed.

Lemma Usuario_update_invalid (p : Usuario.patch) (u : Usuario.t) (w : World)
    (id : Z) :
  Usuario.id_user u = Some id ->
  isValid (Usuario.validate (Usuario.merge p u)) = false ->
  Usuario.update p (u, w)
  = (Throw (invalid_data (Usuario.validate (Usuario.merge p u))),
     (Usuario.merge p u, w)).
Proof.
  intros Hid Hv.
  unfold Usuario.update, bind, this, assign, throw; cbn [fst snd].
  rewrite Hid. cbn [fst snd]. rewrite Hv. reflexivity.
Qed.

Lemma Categoria_update_invalid (p : Categoria.patch) (c : Categoria.t)
    (w : World) (id : Z) :
  Categoria.id_category c = Some id ->
  isValid (Categoria.validate (Categoria.merge p c)) = false ->
  Categoria.update p (c, w)
  = (Throw (invalid_data (Categoria.validate (Categoria.merge p c))),
     (Categoria.merge p c, w)).
Proof.
  intros Hid Hv.
  unfold Categoria.update, bind, this, assign, throw; cbn [fst snd].
  rewrite Hid. cbn [fst snd]. rewrite Hv. reflexivity.
Qed.

Lemma Frase_update_invalid (p : Frase.patch) (q : Frase.t) (w : World)
    (id : Z) :
  Frase.id_quote q = Some id ->
  isValid (Frase.validate (clock w) (Frase.merge p q)) = false ->
  Frase.update p (q, w)
  = (Throw (invalid_data (Frase.validate (clock w) (Frase.merge p q))),
     (Frase.merge p q, w)).
Proof.
  intros Hid Hv. rewrite (Frase_update_eval p q w id Hid). cbv zeta.
  rewrite Hv. reflexivity.
Qed.

(** C7, as stated, fails for [update]: the guard on the identifier comes
    before the validation. A quote without an identifier whose text is
    empty violates the rule on the text, and [update] throws the error
    about the missing identifier, which is not the validation error. *)
Lemma Frase_update_without_id_skips_validation :
  let q := draft_with_text [] in
  let w := world_of empty_store in
  violates (clock w) q TextMin
  /\ Frase.update Frase.empty_patch (q, w)
     = (Throw (Error "No se puede actualizar una frase sin ID"), (q, w))
  /\ Error "No se puede actualizar una frase sin ID"
     <> invalid_data (Frase.validate (clock w) q).
Proof.
  cbv zeta. split; [vm_compute; reflexivity |].
  split; [reflexivity |]. vm_compute. discriminate.
Qed.

(** C7, amended: [create] on the three entities, and [update] on an
    instance that has an identifier, when the fields to be written (for
    [update], the fields after the payload is merged) fail [validate()],
    throw before anything is sent to the store: the process state, with
    its trace of statements and its connection, is as before, and the
    message of the error joins the messages of all the checks that fired. *)
Theorem validation_precedes_store :
  (forall kdf password u w,
      isValid (Usuario.validate u) = false ->
      Usuario.create kdf password (u, w)
      = (Throw (validation_error (Usuario_checks u)), (u, w)))
  /\ (forall c w,
      isValid (Categoria.validate c) = false ->
      Categoria.create (c, w)
      = (Throw (validation_error (Categoria_checks c)), (c, w)))
  /\ (forall q w,
      isValid (Frase.validate (clock w) q) = false ->
      Frase.create (q, w)
      = (Throw (validation_error (Frase_checks (clock w) q)), (q, w)))
  /\ (forall p u w id,
      Usuario.id_user u = Some id ->
      isValid (Usuario.validate (Usuario.merge p u)) = false ->
      Usuario.update p (u, w)
      = (Throw (validation_error (Usuario_checks (Usuario.merge p u))),
         (Usuario.merge p u, w)))
  /\ (forall p c w id,
      Categoria.id_category c = Some id ->
      isValid (Categoria.validate (Categoria.merge p c)) = false ->
      Categoria.update p (c, w)
      = (Throw (validation_error (Categoria_checks (Categoria.merge p c))),
         (Categoria.merge p c, w)))
  /\ (forall p q w id,
      Frase.id_quote q = Some id ->
      isValid (Frase.validate (clock w) (Frase.merge p q)) = false ->
      Frase.update p (q, w)
      = (Throw (validation_error
                  (Frase_checks (clock w) (Frase.merge p q))),
         (Frase.merge p q, w))).
Proof.
  repeat split.
  - intros kdf password u w Hv.
    rewrite (Usuario_create_invalid kdf password u w Hv).
    rewrite Usuario_validate_collect. reflexivity.
  - intros c w Hv. rewrite (Categoria_create_invalid c w Hv).
    rewrite Categoria_validate_collect. reflexivity.
  - intros q w Hv. rewrite (Frase_create_invalid q w Hv).
    rewrite Frase_validate_collect. reflexivity.
  - intros p u w id Hid Hv. rewrite (Usuario_update_invalid p u w id Hid Hv).
    rewrite Usuario_validate_collect. reflexivity.
  - intros p c w id Hid Hv.
    rewrite (Categoria_update_invalid p c w id Hid Hv).
    rewrite Categoria_validate_collect. reflexivity.
  - intros p q w id Hid Hv. rewrite (Frase_update_invalid p q w id Hid Hv).
    rewrite Frase_validate_collect. reflexivity.
Qed.

Lemma validation_precedes_store_witness :
  let q := draft_with_text (js "short") in
  let p := {| Frase.p_id_quote := None; Frase.p_texto := None;
              Frase.p_autor := None; Frase.p_fecha_creacion := None;
              Frase.p_scheduled_at := Some (Some (Instant 10));
              Frase.p_status := Some (js "archived");
              Frase.p_creado_por := None; Frase.p_categoria_id := None |} in
  let l := loaded gift (js "Ana") (js "Hope") in
  let w := world_of sample_store in
  (isValid (Frase.validate (clock w) q) = false
   /\ Frase.create (q, w)
      = (Throw (Error
                  "Datos inválidos: El texto debe tener al menos 10 caracteres"),
         (q, w)))
  /\ (Frase.id_quote l = Some 1
      /\ isValid (Frase.validate (clock w) (Frase.merge p l)) = false
      /\ Frase.update p (l, w)
         = (Throw (Error
                     ("Datos inválidos: "
                      ++ "El estado debe ser draft, scheduled o published, "
                      ++ "La fecha de publicación programada debe ser futura")),
            (Frase.merge p l, w))).
Proof.
  cbv zeta. split.
  - split; [reflexivity |].
    apply (proj1 (proj2 (proj2 validation_precedes_store))). reflexivity.
  - split; [reflexivity |]. split; [reflexivity |].
    etransitivity;
      [ apply (proj2 (proj2 (proj2 (proj2 (proj2 validation_precedes_store))))
                _ _ _ 1); reflexivity
      | reflexivity ].
Defined.

(** ** A rejected update leaves the merged values in the instance *)

Lemma Usuario_update_instance (p : Usuario.patch) (u : Usuario.t)
    (w : World) (id : Z) :
  Usuario.id_user u = Some id ->
  fst (snd (Usuario.update p (u, w))) = Usuario.merge p u.
Proof.
  intros Hid.
  cbv [Usuario.update bind this assign on_world try_catch throw
         Usuario.on_duplicate].
  cbn [fst snd]. rewrite Hid. cbn [fst snd].
  destruct (isValid (Usuario.validate (Usuario.merge p u))); cbn [negb];
    [| reflexivity].
  cbv beta iota. cbn [fst snd].
  destruct (Database.query _ w) as [[r | e] w']; cbn [fst snd];
    [reflexivity |].
  destruct (has_code e "ER_DUP_ENTRY"); reflexivity.
Qed.

Lemma Categoria_update_instance (p : Categoria.patch) (c : Categoria.t)
    (w : World) (id : Z) :
  Categoria.id_category c = Some id ->
  fst (snd (Categoria.update p (c, w))) = Categoria.merge p c.
Proof.
  intros Hid.
  cbv [Categoria.update bind this assign on_world try_catch throw
         Categoria.on_duplicate].
  cbn [fst snd]. rewrite Hid. cbn [fst snd].
  destruct (isValid (Categoria.validate (Categoria.merge p c))); cbn [negb];
    [| reflexivity].
  cbv beta iota. cbn [fst snd].
  destruct (Database.query _ w) as [[r | e] w']; cbn [fst snd];
    [reflexivity |].
  destruct (has_code e "ER_DUP_ENTRY"); reflexivity.
Qed.

Lemma Frase_update_instance (p : Frase.patch) (q : Frase.t) (w : World)
    (id : Z) :
  Frase.id_quote q = Some id ->
  fst (snd (Frase.update p (q, w))) = Frase.merge p q.
Proof.
  intros Hid. rewrite (Frase_update_eval p q w id Hid). cbv zeta.
  destruct (isValid (Frase.validate (clock w) (Frase.merge p q)));
    [| reflexivity].
  destruct (Database.query _ w) as [[r | e] w']; reflexivity.
Qed.

Lemma takes_merged {A} (payload : option A) (before : A) :
  takes payload before (merged payload before).
Proof. destruct payload; reflexivity. Qed.

Lemma changes_merged {A} (payload : option A) (current : A) :
  changes payload current -> merged payload current <> current.
Proof. intros (v & -> & Hv). exact Hv. Qed.

(** C10: [update] on an instance that has an identifier assigns the
    payload to the instance before it validates: whatever the outcome,
    every field but the identifier whose key the payload has holds the
    value of the payload afterwards, and the other fields are as before.
    When the fields the instance then holds fail validation, the call
    throws the validation error and the process state - the stored rows
    and the trace of statements - is as before; so an instance that
    agreed with its row, and whose payload gives one of the written
    columns another value, no longer agrees with that row, which is
    still in the store. *)
Theorem update_rejected_after_merge :
  (forall p u w id,
      Usuario.id_user u = Some id ->
      let r := Usuario.update p (u, w) in
      let u' := fst (snd r) in
      Usuario_after_payload p u u'
      /\ (isValid (Usuario.validate u') = false ->
          fst r = Throw (invalid_data (Usuario.validate u'))
          /\ snd (snd r) = w
          /\ forall row,
               In row (usuarios (store w)) -> Usuario_agrees u row ->
               Usuario_payload_changes p u ->
               In row (usuarios (store (snd (snd r))))
               /\ ~ Usuario_agrees u' row))
  /\ (forall p c w id,
      Categoria.id_category c = Some id ->
      let r := Categoria.update p (c, w) in
      let c' := fst (snd r) in
      Categoria_after_payload p c c'
      /\ (isValid (Categoria.validate c') = false ->
          fst r = Throw (invalid_data (Categoria.validate c'))
          /\ snd (snd r) = w
          /\ forall row,
               In row (categorias (store w)) -> Categoria_agrees c row ->
               Categoria_payload_changes p c ->
               In row (categorias (store (snd (snd r))))
               /\ ~ Categoria_agrees c' row))
  /\ (forall p q w id,
      Frase.id_quote q = Some id ->
      let r := Frase.update p (q, w) in
      let q' := fst (snd r) in
      Frase_after_payload p q q'
      /\ (isValid (Frase.validate (clock w) q') = false ->
          fst r = Throw (invalid_data (Frase.validate (clock w) q'))
          /\ snd (snd r) = w
          /\ forall row,
               In row (frases (store w)) -> Frase_agrees q row ->
               Frase_payload_changes p q ->
               In row (frases (store (snd (snd r))))
               /\ ~ Frase_agrees q' row)).
Proof.
  split; [| split].
  - intros p u w id Hid. cbv zeta.
    rewrite (Usuario_update_instance p u w id Hid). split.
    + constructor; cbn [Usuario.merge Usuario.id_user Usuario.nombre
                          Usuario.correo_electronico Usuario.password_hash
                          Usuario.fecha_creacion Usuario.rol];
        reflexivity || apply takes_merged.
    + intros Hv.
      rewrite (Usuario_update_invalid p u w id Hid Hv). cbn [fst snd].
      split; [reflexivity |]. split; [reflexivity |].
      intros row Hin Hag Hch. split; [exact Hin |].
      unfold Usuario_agrees in *. rewrite <- Hag. clear Hag.
      unfold Usuario_columns.
      cbn [Usuario.merge Usuario.nombre Usuario.correo_electronico
             Usuario.rol].
      intros E. injection E as E1 E2 E3.
      destruct Hch as [H | [H | H]]; apply changes_merged in H; contradiction.
  - intros p c w id Hid. cbv zeta.
    rewrite (Categoria_update_instance p c w id Hid). split.
    + constructor; cbn [Categoria.merge Categoria.id_category
                          Categoria.nombre Categoria.descripcion];
        reflexivity || apply takes_merged.
    + intros Hv.
      rewrite (Categoria_update_invalid p c w id Hid Hv). cbn [fst snd].
      split; [reflexivity |]. split; [reflexivity |].
      intros row Hin Hag Hch. split; [exact Hin |].
      unfold Categoria_agrees in *. rewrite <- Hag. clear Hag.
      unfold Categoria_columns.
      cbn [Categoria.merge Categoria.nombre Categoria.descripcion].
      intros E. injection E as E1 E2.
      destruct Hch as [H | H]; apply changes_merged in H; contradiction.
  - intros p q w id Hid. cbv zeta.
    rewrite (Frase_update_instance p q w id Hid). split.
    + constructor; cbn [Frase.merge Frase.id_quote Frase.texto Frase.autor
                          Frase.fecha_creacion Frase.scheduled_at
                          Frase.status Frase.creado_por Frase.categoria_id
                          Frase.creado_por_nombre Frase.categoria_nombre];
        reflexivity || apply takes_merged.
    + intros Hv.
      rewrite (Frase_update_invalid p q w id Hid Hv). cbn [fst snd].
      split; [reflexivity |]. split; [reflexivity |].
      intros row Hin Hag Hch. split; [exact Hin |].
      unfold Frase_agrees in *. rewrite <- Hag. clear Hag.
      unfold Frase_columns.
      cbn [Frase.merge Frase.texto Frase.autor Frase.scheduled_at
             Frase.status Frase.categoria_id].
      intros E. injection E as E1 E2 E3 E4 E5.
      destruct Hch as [H | [H | [H | [H | H]]]];
        apply changes_merged in H; contradiction.
Qed.

Lemma update_rejected_after_merge_witness :
  let w := world_of sample_store in
  let u := Usuario.constructor (Usuario.of_row ana) in
  let ru := Usuario.update usuario_named_a (u, w) in
  let c := Categoria_of_row hope in
  let rc := Categoria.update categoria_named_h (c, w) in
  let q := loaded gift (js "Ana") (js "Hope") in
  let rq := Frase.update frase_archived (q, w) in
  (Usuario.id_user u = Some 1
   /\ isValid (Usuario.validate (fst (snd ru))) = false
   /\ In ana (usuarios (store w)) /\ Usuario_agrees u ana
   /\ Usuario_payload_changes usuario_named_a u
   /\ Usuario.nombre (fst (snd ru)) = js "A"
   /\ Usuario.correo_electronico (fst (snd ru)) = js "ana@x.com"
   /\ snd (snd ru) = w
   /\ In ana (usuarios (store (snd (snd ru))))
   /\ ~ Usuario_agrees (fst (snd ru)) ana)
  /\ (Categoria.id_category c = Some 1
      /\ isValid (Categoria.validate (fst (snd rc))) = false
      /\ In hope (categorias (store w)) /\ Categoria_agrees c hope
      /\ Categoria_payload_changes categoria_named_h c
      /\ fst rc
         = Throw (Error
                    "Datos inválidos: El nombre debe tener al menos 2 caracteres")
      /\ Categoria.nombre (fst (snd rc)) = js "H"
      /\ snd (snd rc) = w
      /\ In hope (categorias (store (snd (snd rc))))
      /\ ~ Categoria_agrees (fst (snd rc)) hope)
  /\ (Frase.id_quote q = Some 1
      /\ isValid (Frase.validate (clock w) (fst (snd rq))) = false
      /\ In gift (frases (store w)) /\ Frase_agrees q gift
      /\ Frase_payload_changes frase_archived q
      /\ fst rq
         = Throw (Error
                    "Datos inválidos: El estado debe ser draft, scheduled o published")
      /\ Frase.status (fst (snd rq)) = js "archived"
      /\ Frase.texto (fst (snd rq)) = gift_text
      /\ snd (snd rq) = w
      /\ In gift (frases (store (snd (snd rq))))
      /\ ~ Frase_agrees (fst (snd rq)) gift).
Proof.
  cbv zeta.
  destruct update_rejected_after_merge as (HU & HC & HQ).
  split; [| split].
  - destruct (HU usuario_named_a (Usuario.constructor (Usuario.of_row ana))
                (world_of sample_store) 1 eq_refl) as (Hafter & Hrej).
    assert (Usuario_payload_changes usuario_named_a
              (Usuario.constructor (Usuario.of_row ana))) as Hch.
    { left. exists (js "A"). split; [reflexivity |].
      vm_compute. discriminate. }
    destruct (Hrej eq_refl) as (_ & Hstate & Hrow).
    destruct (Hrow ana (or_introl eq_refl) eq_refl Hch) as (Hin & Hdis).
    split; [reflexivity |]. split; [reflexivity |].
    split; [left; reflexivity |]. split; [reflexivity |].
    split; [exact Hch |].
    split; [exact (usuario_takes_nombre _ _ _ Hafter) |].
    split; [exact (usuario_takes_correo _ _ _ Hafter) |].
    split; [exact Hstate |]. split; [exact Hin | exact Hdis].
  - destruct (HC categoria_named_h (Categoria_of_row hope)
                (world_of sample_store) 1 eq_refl) as (Hafter & Hrej).
    assert (Categoria_payload_changes categoria_named_h
              (Categoria_of_row hope)) as Hch.
    { left. exists (js "H"). split; [reflexivity |].
      vm_compute. discriminate. }
    destruct (Hrej eq_refl) as (Hthrow & Hstate & Hrow).
    destruct (Hrow hope (or_introl eq_refl) eq_refl Hch) as (Hin & Hdis).
    split; [reflexivity |]. split; [reflexivity |].
    split; [left; reflexivity |]. split; [reflexivity |].
    split; [exact Hch |]. split; [exact Hthrow |].
    split; [exact (categoria_takes_nombre _ _ _ Hafter) |].
    split; [exact Hstate |]. split; [exact Hin | exact Hdis].
  - destruct (HQ frase_archived (loaded gift (js "Ana") (js "Hope"))
                (world_of sample_store) 1 eq_refl) as (Hafter & Hrej).
    assert (Frase_payload_changes frase_archived
              (loaded gift (js "Ana") (js "Hope"))) as Hch.
    { right. right. right. left. exists (js "archived").
      split; [reflexivity |]. vm_compute. discriminate. }
    destruct (Hrej eq_refl) as (Hthrow & Hstate & Hrow).
    destruct (Hrow gift (or_introl eq_refl) eq_refl Hch) as (Hin & Hdis).
    split; [reflexivity |]. split; [reflexivity |].
    split; [left; reflexivity |]. split; [reflexivity |].
    split; [exact Hch |]. split; [exact Hthrow |].
    split; [exact (frase_takes_status _ _ _ Hafter) |].
    split; [exact (frase_takes_texto _ _ _ Hafter) |].
    split; [exact Hstate |]. split; [exact Hin | exact Hdis].
Defined.

(** ** Categoria.delete *)

Lemma Categoria_delete_blocked (c : Categoria.t) (w : World) (id : Z) :
  Categoria.id_category c = Some id ->
  available w ->
  0 < count_frases_de_categoria id (store w) ->
  Categoria.delete false (c, w)
  = (Throw (Error Categoria.msg_tiene_frases),
     (c, with_execution (connected w) (store w) (CountFrasesDeCategoria id))).
Proof.
  intros Hid Hav Hcount.
  unfold Categoria.delete, bind, this, on_world, throw; cbn [fst snd negb].
  rewrite Hid. cbn [fst snd].
  rewrite (query_available _ _ Hav). unfold Database.run. cbn [execute].
  rewrite store_connected.
  rewrite (proj2 (Z.ltb_lt _ _) Hcount). reflexivity.
Qed.

Lemma Categoria_delete_forced (c : Categoria.t) (w : World) (id : Z) :
  Categoria.id_category c = Some id ->
  available w ->
  Categoria.delete true (c, w)
  = (delete_outcome (fst (delete_categoria id (store w))),
     (c, with_execution (connected w)
           (snd (delete_categoria id (store w))) (DeleteCategoria id))).
Proof.
  intros Hid Hav.
  unfold Categoria.delete, bind, this, on_world, throw, try_catch, ret;
    cbn [fst snd negb].
  rewrite Hid. cbn [fst snd].
  rewrite (query_available _ _ Hav). unfold Database.run. cbn [execute].
  rewrite store_connected.
  destruct (delete_categoria id (store w)) as [[code | res] s'];
    cbn [fst snd delete_outcome]; [reflexivity |].
  destruct res; reflexivity.
Qed.

(** C5, as stated, fails on the message: the error thrown for a category
    that two quotes reference is the fixed sentence of the source, which
    holds no digit, so it does not name the count. *)
Lemma Categoria_delete_error_has_no_count :
  let c := Categoria_of_row hope in
  let w := world_of sample_store in
  Categoria.id_category c = Some 1
  /\ count_frases_de_categoria 1 (store w) = 2
  /\ fst (Categoria.delete false (c, w))
     = Throw (Error
                "No se puede eliminar la categoría porque tiene frases asociadas")
  /\ has_digit
       "No se puede eliminar la categoría porque tiene frases asociadas"
     = false.
Proof. cbv zeta. repeat split. Qed.

(** C5, amended: for a category that has an identifier, in front of a
    server that can be talked to. Without [forceDelete], when quotes
    reference the category, [delete] throws an error with the fixed
    message of the source, after the one counting statement and with the
    store as it was. With [forceDelete], no count is made: the one
    statement sent is the [DELETE], whatever the number of quotes, and
    [delete] resolves to what the store answers to it. *)
Theorem Categoria_delete_guard (c : Categoria.t) (w : World) (id : Z) :
  Categoria.id_category c = Some id ->
  available w ->
  (0 < count_frases_de_categoria id (store w) ->
   let r := Categoria.delete false (c, w) in
   fst r = Throw (Error Categoria.msg_tiene_frases)
   /\ store (snd (snd r)) = store w
   /\ trace (snd (snd r)) = trace w ++ [CountFrasesDeCategoria id])
  /\ (let r := Categoria.delete true (c, w) in
      trace (snd (snd r)) = trace w ++ [DeleteCategoria id]
      /\ store (snd (snd r)) = snd (delete_categoria id (store w))
      /\ fst r = delete_outcome (fst (delete_categoria id (store w)))).
Proof.
  intros Hid Hav. split.
  - intros Hcount. cbv zeta.
    rewrite (Categoria_delete_blocked c w id Hid Hav Hcount).
    cbn [fst snd store trace with_execution].
    rewrite trace_connected. repeat split.
  - cbv zeta. rewrite (Categoria_delete_forced c w id Hid Hav).
    cbn [fst snd store trace with_execution].
    rewrite trace_connected. repeat split.
Qed.

Lemma Categoria_delete_guard_witness :
  let c := Categoria_of_row hope in
  let w := world_of sample_store in
  Categoria.id_category c = Some 1
  /\ available w
  /\ 0 < count_frases_de_categoria 1 (store w)
  /\ fst (Categoria.delete false (c, w))
     = Throw (Error Categoria.msg_tiene_frases)
  /\ store (snd (snd (Categoria.delete false (c, w)))) = sample_store
  /\ trace (snd (snd (Categoria.delete true (c, w)))) = [DeleteCategoria 1]
  /\ fst (Categoria.delete true (c, w))
     = Throw (DriverError "ER_ROW_IS_REFERENCED_2").
Proof.
  cbv zeta.
  assert (available (world_of sample_store)) as Hav by (right; reflexivity).
  assert (0 < count_frases_de_categoria 1 (store (world_of sample_store)))
    as Hcount by reflexivity.
  destruct (Categoria_delete_guard (Categoria_of_row hope)
              (world_of sample_store) 1 eq_refl Hav)
    as (Hblocked & Htrace & _ & Hout).
  destruct (Hblocked Hcount) as (Hthrow & Hstore & _).
  split; [reflexivity |]. split; [exact Hav |]. split; [exact Hcount |].
  split; [exact Hthrow |]. split; [exact Hstore |].
  split; [exact Htrace | exact Hout].
Defined.

(** ** Lookups of users *)

Lemma Usuario_findById_eval (id : Z) (w : World) :
  available w ->
  Usuario.findById id w
  = (Return (first_usuario (usuarios_by_id id (store w))),
     with_execution (connected w) (store w) (SelectUsuarioById id)).
Proof.
  intros Hav. unfold Usuario.findById, try_catch, bind.
  rewrite (query_available _ _ Hav). unfold Database.run. cbn [execute].
  rewrite store_connected. unfold usuarios_by_id, first_usuario.
  destruct (filter _ (usuarios (store w))); reflexivity.
Qed.

Lemma Usuario_findByEmail_eval (email : jsstring) (w : World) :
  available w ->
  Usuario.findByEmail email w
  = (Return (first_usuario (usuarios_by_email email (store w))),
     with_execution (connected w) (store w) (SelectUsuarioByEmail email)).
Proof.
  intros Hav. unfold Usuario.findByEmail, try_catch, bind.
  rewrite (query_available _ _ Hav). unfold Database.run. cbn [execute].
  rewrite store_connected. unfold usuarios_by_email, first_usuario.
  destruct (filter _ (usuarios (store w))); reflexivity.
Qed.

Lemma Usuario_findById_unavailable (id : Z) (w : World) :
  ~ available w ->
  Usuario.findById id w = (Throw (DriverError "ECONNREFUSED"), w).
Proof.
  intros Hn. unfold Usuario.findById, try_catch, bind.
  rewrite (query_unavailable _ _ Hn). reflexivity.
Qed.

Lemma Usuario_findByEmail_unavailable (email : jsstring) (w : World) :
  ~ available w ->
  Usuario.findByEmail email w = (Throw (DriverError "ECONNREFUSED"), w).
Proof.
  intros Hn. unfold Usuario.findByEmail, try_catch, bind.
  rewrite (query_unavailable _ _ Hn). reflexivity.
Qed.

Lemma filter_none {A} (f : A -> bool) (l : list A) :
  (forall x, In x l -> f x = false) -> filter f l = [].
Proof.
  induction l as [| x l IH]; intros H; simpl; [reflexivity |].
  rewrite (H x (or_introl eq_refl)). apply IH.
  intros y Hy. apply H. right; assumption.
Qed.

Section Lookups.

Variable kdf : list byte -> list byte -> Z -> Z -> list byte.

Lemma Usuario_authenticate_eval (email password : jsstring) (w : World) :
  available w ->
  Usuario.authenticate kdf email password w
  = (Return
       match first_usuario (usuarios_by_email email (store w)) with
       | None => None
       | Some u =>
           if Usuario.verifyPassword kdf password (Usuario.password_hash u)
           then Some u else None
       end,
     with_execution (connected w) (store w) (SelectUsuarioByEmail email)).
Proof.
  intros Hav. unfold Usuario.authenticate, try_catch, bind.
  rewrite (Usuario_findByEmail_eval email w Hav).
  destruct (first_usuario _) as [u |]; [| reflexivity].
  destruct (Usuario.verifyPassword kdf password (Usuario.password_hash u));
    reflexivity.
Qed.

(** C8: a lookup that matches no row resolves to [null]: [findById] and
    [findByEmail] when no stored user has the identifier or the email,
    [authenticate] when no stored user has the email and when the
    password does not verify against the hash of the user found. None of
    the three throws unless the server cannot be reached, and then the
    error is the driver's. *)
Theorem Usuario_lookups_return_null :
  (forall id w,
      available w ->
      (forall r, In r (usuarios (store w)) -> usuario.id_user r <> id) ->
      fst (Usuario.findById id w) = Return None)
  /\ (forall email w,
      available w ->
      (forall r, In r (usuarios (store w)) ->
                 sql_eq (usuario.correo_electronico r) email = false) ->
      fst (Usuario.findByEmail email w) = Return None)
  /\ (forall email password w,
      available w ->
      (forall r, In r (usuarios (store w)) ->
                 sql_eq (usuario.correo_electronico r) email = false) ->
      fst (Usuario.authenticate kdf email password w) = Return None)
  /\ (forall email password w u,
      available w ->
      first_usuario (usuarios_by_email email (store w)) = Some u ->
      Usuario.verifyPassword kdf password (Usuario.password_hash u) = false ->
      fst (Usuario.authenticate kdf email password w) = Return None)
  /\ (forall id w e,
      fst (Usuario.findById id w) = Throw e ->
      ~ available w /\ e = DriverError "ECONNREFUSED")
  /\ (forall email w e,
      fst (Usuario.findByEmail email w) = Throw e ->
      ~ available w /\ e = DriverError "ECONNREFUSED")
  /\ (forall email password w e,
      fst (Usuario.authenticate kdf email password w) = Throw e ->
      ~ available w /\ e = DriverError "ECONNREFUSED").
Proof.
  repeat split.
  - intros id w Hav Hno. rewrite (Usuario_findById_eval id w Hav).
    unfold usuarios_by_id. rewrite filter_none; [reflexivity |].
    intros r Hr. apply Z.eqb_neq. apply Hno. exact Hr.
  - intros email w Hav Hno. rewrite (Usuario_findByEmail_eval email w Hav).
    unfold usuarios_by_email. rewrite filter_none; [reflexivity | exact Hno].
  - intros email password w Hav Hno.
    rewrite (Usuario_authenticate_eval email password w Hav).
    unfold usuarios_by_email. rewrite filter_none; [reflexivity | exact Hno].
  - intros email password w u Hav Hu Hv.
    rewrite (Usuario_authenticate_eval email password w Hav).
    rewrite Hu, Hv. reflexivity.
  - destruct (available_dec w) as [Hav | Hn]; [| exact Hn].
    rewrite (Usuario_findById_eval id w Hav) in H. discriminate H.
  - destruct (available_dec w) as [Hav | Hn].
    + rewrite (Usuario_findById_eval id w Hav) in H. discriminate H.
    + rewrite (Usuario_findById_unavailable id w Hn) in H.
      injection H as <-. reflexivity.
  - destruct (available_dec w) as [Hav | Hn]; [| exact Hn].
    rewrite (Usuario_findByEmail_eval email w Hav) in H. discriminate H.
  - destruct (available_dec w) as [Hav | Hn].
    + rewrite (Usuario_findByEmail_eval email w Hav) in H. discriminate H.
    + rewrite (Usuario_findByEmail_unavailable email w Hn) in H.
      injection H as <-. reflexivity.
  - destruct (available_dec w) as [Hav | Hn]; [| exact Hn].
    rewrite (Usuario_authenticate_eval email password w Hav) in H.
    discriminate H.
  - destruct (available_dec w) as [Hav | Hn].
    + rewrite (Usuario_authenticate_eval email password w Hav) in H.
      discriminate H.
    + unfold Usuario.authenticate, try_catch, bind in H.
      rewrite (Usuario_findByEmail_unavailable email w Hn) in H.
      injection H as <-. reflexivity.
Qed.

End Lookups.

Lemma Usuario_lookups_return_null_witness :
  let w := world_of sample_store in
  available w
  /\ fst (Usuario.findById 9 w) = Return None
  /\ fst (Usuario.authenticate toy_kdf (js "nobody@x.com") (js "secret1") w)
     = Return None
  /\ fst (Usuario.authenticate toy_kdf (js "ana@x.com") (js "wrong") w)
     = Return None.
Proof.
  cbv zeta.
  assert (available (world_of sample_store)) as Hav by (right; reflexivity).
  destruct (Usuario_lookups_return_null toy_kdf)
    as (Hid & _ & Hnone & Hwrong & _).
  split; [exact Hav |]. split; [| split].
  - apply Hid; [exact Hav |].
    intros r [<- | []]. vm_compute. discriminate.
  - apply Hnone; [exact Hav |].
    intros r [<- | []]. reflexivity.
  - apply (Hwrong _ _ _ (Usuario.constructor (Usuario.of_row ana)));
      [exact Hav | reflexivity | reflexivity].
Defined.

(** ** Usuario.create and the length of the password *)

(** C4 fails on the code: [create(password)] validates the credential
    field of the instance, not its argument, and it does so before the
    field is given the hash. A user built without that field, as the
    console does, is rejected with the message on the length of the
    password whatever the password is - here a password of 7 characters -
    and nothing is sent to the store; a user built with any 6 characters
    in the field passes that check with a password of 3 characters, which
    is hashed and stored. [updatePassword] measures its argument. *)
Theorem Usuario_create_measures_stored_field
    (kdf : list byte -> list byte -> Z -> Z -> list byte) :
  (forall w,
      Usuario.create kdf (js "secret1") (new_ana, w)
      = (Throw (Error
                  "Datos inválidos: La contraseña debe tener al menos 6 caracteres"),
         (new_ana, w)))
  /\ (forall nombre correo rol password w,
         exists e,
           Usuario.create kdf password (new_user nombre correo rol, w)
           = (Throw e, (new_user nombre correo rol, w)))
  /\ (let u := Usuario.set_password_hash (js "xxxxxx") new_ana in
      let r := Usuario.create kdf (js "abc") (u, world_of empty_store) in
      let h := Usuario.salted_hash kdf (repeat x00 16) (js "abc") in
      fst r = Return (Usuario.set_created 1 50 (Usuario.set_password_hash h u))
      /\ map usuario.password_hash (usuarios (store (snd (snd r)))) = [h])
  /\ (forall w,
         let u := Usuario.constructor (Usuario.of_row ana) in
         Usuario.updatePassword kdf (js "abc") (u, w)
         = (Throw (Error "La contraseña debe tener al menos 6 caracteres"),
            (u, w))).
Proof.
  split; [| split; [| split]].
  - intros w. reflexivity.
  - intros nombre correo rol password w. eexists.
    apply Usuario_create_invalid.
    rewrite Usuario_validate_collect.
    apply (invalid_of_In Usuario.msg_password). apply In_collect.
    unfold Usuario_checks. do 2 right; left. reflexivity.
  - cbv zeta. split; reflexivity.
  - intros w. reflexivity.
Qed.

(** ** Hashing and verifying passwords *)

Lemma hex_digit_range (n : Z) :
  48 <= hex_digit n <= 57 \/ 97 <= hex_digit n <= 102.
Proof.
  unfold hex_digit. pose proof (Z.mod_pos_bound n 16 ltac:(lia)) as Hb.
  destruct (Z.ltb_spec (n mod 16) 10); lia.
Qed.

Lemma hex_digit_inj (a b : Z) :
  hex_digit a = hex_digit b -> a mod 16 = b mod 16.
Proof.
  unfold hex_digit.
  pose proof (Z.mod_pos_bound a 16 ltac:(lia)).
  pose proof (Z.mod_pos_bound b 16 ltac:(lia)).
  destruct (Z.ltb_spec (a mod 16) 10), (Z.ltb_spec (b mod 16) 10); lia.
Qed.

Lemma Z_of_byte_range (b : byte) : 0 <= Z_of_byte b <= 255.
Proof.
  unfold Z_of_byte. pose proof (Byte.to_N_bounded b). lia.
Qed.

Lemma Z_of_byte_inj (a b : byte) : Z_of_byte a = Z_of_byte b -> a = b.
Proof.
  unfold Z_of_byte. intros H. apply N2Z.inj in H.
  pose proof (Byte.of_to_N a) as Ha. pose proof (Byte.of_to_N b) as Hb.
  rewrite H in Ha. congruence.
Qed.

(** The hexadecimal rendering never holds a colon. *)
Lemma to_hex_no_colon (bs : list byte) : ~ In 58 (to_hex bs).
Proof.
  induction bs as [| b bs IH]; simpl; [tauto |].
  pose proof (hex_digit_range (Z_of_byte b / 16)).
  pose proof (hex_digit_range (Z_of_byte b)).
  intros [H1 | [H2 | H3]]; [lia | lia | tauto].
Qed.

(** Two byte strings with the same hexadecimal rendering are equal. *)
Lemma to_hex_inj (xs ys : list byte) : to_hex xs = to_hex ys -> xs = ys.
Proof.
  revert ys; induction xs as [| x xs IH]; intros [| y ys] H; simpl in H;
    try discriminate; [reflexivity |].
  injection H as Hhi Hlo Hrest.
  apply hex_digit_inj in Hhi, Hlo.
  pose proof (Z_of_byte_range x). pose proof (Z_of_byte_range y).
  rewrite (Z.mod_small (Z_of_byte x / 16)) in Hhi
    by (split; [apply Z.div_pos | apply Z.div_lt_upper_bound]; lia).
  rewrite (Z.mod_small (Z_of_byte y / 16)) in Hhi
    by (split; [apply Z.div_pos | apply Z.div_lt_upper_bound]; lia).
  f_equal; [| apply IH; assumption].
  apply Z_of_byte_inj.
  rewrite (Z.div_mod (Z_of_byte x) 16), (Z.div_mod (Z_of_byte y) 16) by lia.
  congruence.
Qed.

Lemma split_without_separator (sep : Z) (s : jsstring) :
  ~ In sep s -> split sep s = [s].
Proof.
  induction s as [| c s IH]; intros H; simpl; [reflexivity |].
  destruct (Z.eqb_spec c sep) as [E | E].
  - exfalso. apply H. left. assumption.
  - rewrite IH; [reflexivity |]. intros Hin. apply H. right. assumption.
Qed.

Lemma split_at_separator (sep : Z) (a b : jsstring) :
  ~ In sep a -> split sep (a ++ sep :: b) = a :: split sep b.
Proof.
  induction a as [| c a IH]; intros H; simpl.
  - rewrite Z.eqb_refl. reflexivity.
  - destruct (Z.eqb_spec c sep) as [E | E].
    + exfalso. apply H. left. assumption.
    + rewrite IH; [reflexivity |]. intros Hin. apply H. right. assumption.
Qed.

Section Passwords.

Variable kdf : list byte -> list byte -> Z -> Z -> list byte.

(** The parts [verifyPassword] recovers from a stored hash. *)
Lemma split_salted_hash (salt_bytes : list byte) (password : jsstring) :
  split 58 (Usuario.salted_hash kdf salt_bytes password)
  = [to_hex salt_bytes; Usuario.derive kdf password (to_hex salt_bytes)].
Proof.
  unfold Usuario.salted_hash. cbv zeta.
  change (js ":" ++ ?x) with (58 :: x).
  rewrite split_at_separator by apply to_hex_no_colon.
  rewrite split_without_separator; [reflexivity |].
  unfold Usuario.derive. apply to_hex_no_colon.
Qed.

Lemma verify_salted_hash (salt_bytes : list byte) (p w : jsstring) :
  Usuario.verifyPassword kdf w (Usuario.salted_hash kdf salt_bytes p)
  = str_eqb (Usuario.derive kdf p (to_hex salt_bytes))
      (Usuario.derive kdf w (to_hex salt_bytes)).
Proof.
  unfold Usuario.verifyPassword. cbv zeta.
  rewrite split_salted_hash. reflexivity.
Qed.

Lemma hashPassword_eval (password : jsstring) (w : World) :
  Usuario.hashPassword kdf password w
  = (Return (Usuario.salted_hash kdf (next_salt w) password), with_draw w).
Proof. reflexivity. Qed.

End Passwords.

(** C6, as stated, fails on wrong passwords: two different strings that
    are each a surrogate without its partner have the same UTF-8 bytes,
    the replacement character, so whatever the key derivation and the
    salt, the one verifies against the hash of the other. *)
Lemma lone_surrogates_verify :
  lone_d801 <> lone_d800
  /\ utf8_encode lone_d801 = utf8_encode lone_d800
  /\ forall kdf salt_bytes,
       Usuario.verifyPassword kdf lone_d801
         (Usuario.salted_hash kdf salt_bytes lone_d800) = true.
Proof.
  split; [discriminate |]. split; [reflexivity |].
  intros kdf salt_bytes. rewrite verify_salted_hash.
  unfold Usuario.derive.
  change (utf8_encode lone_d801) with (utf8_encode lone_d800).
  apply str_eqb_refl.
Qed.

(** C6, amended: [hashPassword] returns the salt it drew and the derived
    key, in hexadecimal, around a colon. A password verifies against its
    own hash. Another password verifies against that hash exactly when
    the key derived from it with the stored salt is the key of the hash;
    so it is rejected whenever the two derived keys differ. Two hashes of
    one password made with different salts are different strings, and so
    are the results of two calls in a row whose draws differ. *)
Theorem password_hash_verification
    (kdf : list byte -> list byte -> Z -> Z -> list byte) :
  (forall salt_bytes p,
      Usuario.verifyPassword kdf p (Usuario.salted_hash kdf salt_bytes p)
      = true)
  /\ (forall p w, exists w',
      Usuario.hashPassword kdf p w = (Return (Usuario.salted_hash kdf (next_salt w) p), w')
      /\ Usuario.verifyPassword kdf p (Usuario.salted_hash kdf (next_salt w) p)
         = true)
  /\ (forall salt_bytes p w,
      Usuario.verifyPassword kdf w (Usuario.salted_hash kdf salt_bytes p)
      = str_eqb (Usuario.derive kdf p (to_hex salt_bytes))
          (Usuario.derive kdf w (to_hex salt_bytes)))
  /\ (forall salt_bytes p w,
      Usuario.derive kdf w (to_hex salt_bytes)
      <> Usuario.derive kdf p (to_hex salt_bytes) ->
      Usuario.verifyPassword kdf w (Usuario.salted_hash kdf salt_bytes p)
      = false)
  /\ (forall salt1 salt2 p,
      salt1 <> salt2 ->
      Usuario.salted_hash kdf salt1 p <> Usuario.salted_hash kdf salt2 p)
  /\ (forall p w,
      next_salt w <> next_salt (with_draw w) ->
      forall h1 w1 h2 w2,
        Usuario.hashPassword kdf p w = (Return h1, w1) ->
        Usuario.hashPassword kdf p w1 = (Return h2, w2) ->
        h1 <> h2).
Proof.
  assert (forall salt1 salt2 p,
             salt1 <> salt2 ->
             Usuario.salted_hash kdf salt1 p <> Usuario.salted_hash kdf salt2 p)
    as Hsalts.
  { intros salt1 salt2 p Hne Heq.
    apply (f_equal (split 58)) in Heq.
    rewrite !split_salted_hash in Heq.
    injection Heq as Hs _. apply to_hex_inj in Hs. contradiction. }
  split; [| split; [| split; [| split; [| split]]]].
  - intros salt_bytes p. rewrite verify_salted_hash. apply str_eqb_refl.
  - intros p w. exists (with_draw w). split; [apply hashPassword_eval |].
    rewrite verify_salted_hash. apply str_eqb_refl.
  - intros salt_bytes p w. apply verify_salted_hash.
  - intros salt_bytes p w Hne. rewrite verify_salted_hash.
    apply str_eqb_neq. congruence.
  - exact Hsalts.
  - intros p w Hne h1 w1 h2 w2 H1 H2.
    rewrite hashPassword_eval in H1. injection H1 as <- <-.
    rewrite hashPassword_eval in H2. injection H2 as <- _.
    apply Hsalts. exact Hne.
Qed.

Lemma password_hash_verification_witness :
  let w := ticking sample_store in
  Usuario.derive toy_kdf (js "wrong") (to_hex [x00])
  <> Usuario.derive toy_kdf (js "secret1") (to_hex [x00])
  /\ Usuario.verifyPassword toy_kdf (js "wrong")
       (Usuario.salted_hash toy_kdf [x00] (js "secret1")) = false
  /\ [x00] <> [x01]
  /\ Usuario.salted_hash toy_kdf [x00] (js "secret1")
     <> Usuario.salted_hash toy_kdf [x01] (js "secret1")
  /\ next_salt w <> next_salt (with_draw w)
  /\ exists h1 w1 h2 w2,
       Usuario.hashPassword toy_kdf (js "secret1") w = (Return h1, w1)
       /\ Usuario.hashPassword toy_kdf (js "secret1") w1 = (Return h2, w2)
       /\ h1 <> h2.
Proof.
  cbv zeta.
  destruct (password_hash_verification toy_kdf)
    as (_ & _ & _ & Hwrong & Hsalts & Hcalls).
  assert (Usuario.derive toy_kdf (js "wrong") (to_hex [x00])
          <> Usuario.derive toy_kdf (js "secret1") (to_hex [x00])) as Hd.
  { vm_compute. discriminate. }
  assert ([x00] <> [x01]) as Hs by discriminate.
  assert (next_salt (ticking sample_store)
          <> next_salt (with_draw (ticking sample_store))) as Hn.
  { vm_compute. discriminate. }
  split; [exact Hd |]. split; [exact (Hwrong _ _ _ Hd) |].
  split; [exact Hs |]. split; [exact (Hsalts _ _ _ Hs) |].
  split; [exact Hn |].
  eexists. eexists. eexists. eexists.
  split; [reflexivity |]. split; [reflexivity |].
  apply (Hcalls (js "secret1") (ticking sample_store) Hn _ _ _ _
           eq_refl eq_refl).
Defined.

(** ** The schema's constraints are an invariant of the store *)

Lemma flat_map_nil {A B} (f : A -> list B) (l : list A) :
  (forall x, In x l -> f x = []) -> flat_map f l = [].
Proof.
  induction l as [| x l IH]; intros H; simpl; [reflexivity |].
  rewrite (H x (or_introl eq_refl)). apply IH.
  intros y Hy. apply H. right; assumption.
Qed.

Section Keys.

Context {A : Type} (key : A -> Z).

Lemma existsb_key_In (l : list A) (k : Z) :
  existsb (fun x => key x =? k) l = true <-> In k (map key l).
Proof.
  rewrite existsb_exists, in_map_iff. split.
  - intros (x & Hx & E). apply Z.eqb_eq in E. exists x. auto.
  - intros (x & E & Hx). exists x. split; [exact Hx |].
    apply Z.eqb_eq. exact E.
Qed.

Lemma keys_of_update (f : A -> A) (l : list A) :
  (forall x, key (f x) = key x) -> map key (map f l) = map key l.
Proof.
  intros H. rewrite map_map. apply map_ext. exact H.
Qed.

Lemma keys_of_filter_incl (f : A -> bool) (l : list A) (k : Z) :
  In k (map key (filter f l)) -> In k (map key l).
Proof.
  rewrite !in_map_iff. intros (x & E & Hx). apply filter_In in Hx.
  exists x. tauto.
Qed.

Lemma keys_of_filter_NoDup (f : A -> bool) (l : list A) :
  NoDup (map key l) -> NoDup (map key (filter f l)).
Proof.
  induction l as [| x l IH]; simpl; intros H; [constructor |].
  apply NoDup_cons_iff in H as [Hx Hl].
  destruct (f x); simpl; [| apply IH; exact Hl].
  constructor; [| apply IH; exact Hl].
  intros Hin. apply Hx. apply (keys_of_filter_incl f l). exact Hin.
Qed.

Lemma keys_of_delete (l : list A) (id k : Z) :
  In k (map key l) -> k <> id ->
  In k (map key (filter (fun x => negb (key x =? id)) l)).
Proof.
  rewrite !in_map_iff. intros (x & E & Hx) Hne. exists x.
  split; [exact E |]. apply filter_In. split; [exact Hx |].
  apply negb_true_iff, Z.eqb_neq. congruence.
Qed.

Lemma keys_of_insert_NoDup (l : list A) (x : A) (next : Z) :
  NoDup (map key l) -> (forall k, In k (map key l) -> k < next) ->
  key x = next -> NoDup (map key (l ++ [x])).
Proof.
  intros Hnd Hlt Hx. rewrite map_app. apply NoDup_app.
  - exact Hnd.
  - simpl. constructor; [tauto | constructor].
  - intros k Hk [E | []]. specialize (Hlt k Hk). simpl in E. lia.
Qed.

Lemma keys_of_insert_bound (l : list A) (x : A) (next k : Z) :
  (forall k, In k (map key l) -> k < next) -> key x = next ->
  In k (map key (l ++ [x])) -> k < next + 1.
Proof.
  intros Hlt Hx Hk. rewrite map_app in Hk. apply in_app_or in Hk.
  destruct Hk as [Hk | [E | []]].
  - specialize (Hlt k Hk). lia.
  - simpl in E. lia.
Qed.

(** A key that is unique selects one row of a join. *)
Lemma flat_map_unique_key {B} (g : A -> list B) (l : list A) (x0 : A) :
  NoDup (map key l) -> In x0 l ->
  flat_map (fun x => if key x0 =? key x then g x else []) l = g x0.
Proof.
  induction l as [| x l IH]; intros Hnd Hin; [destruct Hin |].
  simpl in Hnd. apply NoDup_cons_iff in Hnd as [Hx Hl].
  simpl. destruct Hin as [-> | Hin].
  - rewrite Z.eqb_refl.
    replace (flat_map _ l) with (@nil B); [apply app_nil_r |].
    symmetry. apply flat_map_nil. intros y Hy.
    destruct (Z.eqb_spec (key x0) (key y)) as [E | E]; [| reflexivity].
    exfalso. apply Hx. rewrite E. apply in_map. exact Hy.
  - destruct (Z.eqb_spec (key x0) (key x)) as [E | E].
    + exfalso. apply Hx. rewrite <- E. apply in_map. exact Hin.
    + simpl. apply IH; assumption.
Qed.

End Keys.

Lemma usuario_exists_In (s : Store) (id : Z) :
  usuario_exists s id = true <-> In id (usuario_ids s).
Proof. apply (existsb_key_In usuario.id_user). Qed.

Lemma categoria_exists_In (s : Store) (id : Z) :
  categoria_exists s id = true <-> In id (categoria_ids s).
Proof. apply (existsb_key_In categoria.id_category). Qed.

Ltac unchanged := cbn [snd]; assumption.

Lemma insert_usuario_wf (now : Z) (n c h r : jsstring) (s : Store) :
  store_wf s -> store_wf (snd (insert_usuario now n c h r s)).
Proof.
  intros Hwf. unfold insert_usuario.
  destruct (negb (includes rol_enum r)); [unchanged |].
  destruct (existsb _ (usuarios s)); [unchanged |].
  destruct Hwf as [Hu Hc Hq Hnu Hnc Hnq Hfu Hfc].
  constructor; cbn [snd]; try assumption.
  - apply (keys_of_insert_NoDup usuario.id_user _ _ (next_id_user s));
      [exact Hu | exact Hnu | reflexivity].
  - intros id Hid. unfold usuario_ids in Hid; cbn [usuarios] in Hid.
    cbn [next_id_user].
    eapply (keys_of_insert_bound usuario.id_user);
      [exact Hnu | | exact Hid]; reflexivity.
  - intros q Hq'. unfold usuario_ids; cbn [usuarios].
    rewrite map_app. apply in_or_app. left. apply Hfu. exact Hq'.
Qed.

Lemma update_usuario_wf (n c r : jsstring) (id : Z) (s : Store) :
  store_wf s -> store_wf (snd (update_usuario n c r id s)).
Proof.
  intros Hwf. unfold update_usuario.
  destruct (negb (usuario_exists s id)); [unchanged |].
  destruct (negb (includes rol_enum r)); [unchanged |].
  destruct (existsb _ (usuarios s)); [unchanged |].
  destruct Hwf as [Hu Hc Hq Hnu Hnc Hnq Hfu Hfc].
  assert (usuario_ids (snd (inr (OkPacket 1 0) : string + QResult,
            with_usuarios s
              (map (fun u => if usuario.id_user u =? id
                             then {| usuario.id_user := usuario.id_user u;
                                     usuario.nombre := n;
                                     usuario.correo_electronico := c;
                                     usuario.password_hash :=
                                       usuario.password_hash u;
                                     usuario.fecha_creacion :=
                                       usuario.fecha_creacion u;
                                     usuario.rol := r |}
                             else u) (usuarios s))))
          = usuario_ids s) as E.
  { unfold usuario_ids; cbn [snd usuarios with_usuarios].
    apply keys_of_update. intros u.
    destruct (usuario.id_user u =? id); reflexivity. }
  constructor; try rewrite E; cbn [snd]; assumption.
Qed.

Lemma update_usuario_password_wf (h : jsstring) (id : Z) (s : Store) :
  store_wf s -> store_wf (snd (update_usuario_password h id s)).
Proof.
  intros Hwf. unfold update_usuario_password.
  destruct (negb (usuario_exists s id)); [unchanged |].
  destruct Hwf as [Hu Hc Hq Hnu Hnc Hnq Hfu Hfc].
  assert (usuario_ids (snd (inr (OkPacket 1 0) : string + QResult,
            with_usuarios s
              (map (fun u => if usuario.id_user u =? id
                             then {| usuario.id_user := usuario.id_user u;
                                     usuario.nombre := usuario.nombre u;
                                     usuario.correo_electronico :=
                                       usuario.correo_electronico u;
                                     usuario.password_hash := h;
                                     usuario.fecha_creacion :=
                                       usuario.fecha_creacion u;
                                     usuario.rol := usuario.rol u |}
                             else u) (usuarios s))))
          = usuario_ids s) as E.
  { unfold usuario_ids; cbn [snd usuarios with_usuarios].
    apply keys_of_update. intros u.
    destruct (usuario.id_user u =? id); reflexivity. }
  constructor; try rewrite E; cbn [snd]; assumption.
Qed.

Lemma delete_usuario_wf (id : Z) (s : Store) :
  store_wf s -> store_wf (snd (delete_usuario id s)).
Proof.
  intros Hwf. unfold delete_usuario.
  destruct (negb (usuario_exists s id)); [unchanged |].
  destruct Hwf as [Hu Hc Hq Hnu Hnc Hnq Hfu Hfc].
  destruct (on_delete s).
  - destruct (existsb (fun r => frase.creado_por r =? id) (frases s)) eqn:He;
      [constructor; cbn [snd]; assumption |].
    constructor; cbn [snd]; try assumption.
    + apply keys_of_filter_NoDup. exact Hu.
    + intros k Hk. apply Hnu.
      apply (keys_of_filter_incl usuario.id_user _ _ _ Hk).
    + intros r Hr. apply (keys_of_delete usuario.id_user).
      * apply Hfu. exact Hr.
      * apply Z.eqb_neq. apply (existsb_false_forall _ _ He r Hr).
  - constructor; cbn [snd]; try assumption.
    + apply keys_of_filter_NoDup. exact Hu.
    + apply keys_of_filter_NoDup. exact Hq.
    + intros k Hk. apply Hnu.
      apply (keys_of_filter_incl usuario.id_user _ _ _ Hk).
    + intros k Hk. apply Hnq.
      apply (keys_of_filter_incl frase.id_quote _ _ _ Hk).
    + intros r Hr. cbn [frases with_frases] in Hr.
      apply filter_In in Hr. destruct Hr as [Hr Hne].
      apply (keys_of_delete usuario.id_user).
      * apply Hfu. exact Hr.
      * apply Z.eqb_neq. apply negb_true_iff. exact Hne.
    + intros r Hr. cbn [frases with_frases] in Hr.
      apply filter_In in Hr. apply Hfc. tauto.
Qed.

Lemma insert_categoria_wf (n d : jsstring) (s : Store) :
  store_wf s -> store_wf (snd (insert_categoria n d s)).
Proof.
  intros Hwf. unfold insert_categoria.
  destruct (existsb _ (categorias s)); [unchanged |].
  destruct Hwf as [Hu Hc Hq Hnu Hnc Hnq Hfu Hfc].
  constructor; cbn [snd]; try assumption.
  - apply (keys_of_insert_NoDup categoria.id_category _ _
             (next_id_category s)); [exact Hc | exact Hnc | reflexivity].
  - intros id Hid. unfold categoria_ids in Hid; cbn [categorias] in Hid.
    cbn [next_id_category].
    eapply (keys_of_insert_bound categoria.id_category);
      [exact Hnc | | exact Hid]; reflexivity.
  - intros q Hq'. unfold categoria_ids; cbn [categorias].
    rewrite map_app. apply in_or_app. left. apply Hfc. exact Hq'.
Qed.

Lemma update_categoria_wf (n d : jsstring) (id : Z) (s : Store) :
  store_wf s -> store_wf (snd (update_categoria n d id s)).
Proof.
  intros Hwf. unfold update_categoria.
  destruct (negb (categoria_exists s id)); [unchanged |].
  destruct (existsb _ (categorias s)); [unchanged |].
  destruct Hwf as [Hu Hc Hq Hnu Hnc Hnq Hfu Hfc].
  assert (categoria_ids (snd (inr (OkPacket 1 0) : string + QResult,
            with_categorias s
              (map (fun c => if categoria.id_category c =? id
                             then {| categoria.id_category :=
                                       categoria.id_category c;
                                     categoria.nombre := n;
                                     categoria.descripcion := Some d |}
                             else c) (categorias s))))
          = categoria_ids s) as E.
  { unfold categoria_ids; cbn [snd categorias with_categorias].
    apply keys_of_update. intros c.
    destruct (categoria.id_category c =? id); reflexivity. }
  constructor; try rewrite E; cbn [snd]; assumption.
Qed.

Lemma count_zero_no_reference (id : Z) (s : Store) :
  (0 <? count_frases_de_categoria id s) = false ->
  forall r, In r (frases s) -> frase.categoria_id r <> id.
Proof.
  unfold count_frases_de_categoria. intros H r Hr E.
  apply Z.ltb_ge in H.
  assert (In r (filter (fun r => frase.categoria_id r =? id) (frases s)))
    as Hin by (apply filter_In; split; [exact Hr | apply Z.eqb_eq; exact E]).
  destruct (filter _ (frases s)); [destruct Hin | simpl in H; lia].
Qed.

Lemma delete_categoria_wf (id : Z) (s : Store) :
  store_wf s -> store_wf (snd (delete_categoria id s)).
Proof.
  intros Hwf. unfold delete_categoria.
  destruct (negb (categoria_exists s id)); [unchanged |].
  destruct Hwf as [Hu Hc Hq Hnu Hnc Hnq Hfu Hfc].
  destruct (on_delete s).
  - destruct (0 <? count_frases_de_categoria id s) eqn:He;
      [constructor; cbn [snd]; assumption |].
    constructor; cbn [snd]; try assumption.
    + apply keys_of_filter_NoDup. exact Hc.
    + intros k Hk. apply Hnc.
      apply (keys_of_filter_incl categoria.id_category _ _ _ Hk).
    + intros r Hr. apply (keys_of_delete categoria.id_category).
      * apply Hfc. exact Hr.
      * apply (count_zero_no_reference id s He r Hr).
  - constructor; cbn [snd]; try assumption.
    + apply keys_of_filter_NoDup. exact Hc.
    + apply keys_of_filter_NoDup. exact Hq.
    + intros k Hk. apply Hnc.
      apply (keys_of_filter_incl categoria.id_category _ _ _ Hk).
    + intros k Hk. apply Hnq.
      apply (keys_of_filter_incl frase.id_quote _ _ _ Hk).
    + intros r Hr. cbn [frases with_frases] in Hr.
      apply filter_In in Hr. apply Hfu. tauto.
    + intros r Hr. cbn [frases with_frases] in Hr.
      apply filter_In in Hr. destruct Hr as [Hr Hne].
      apply (keys_of_delete categoria.id_category).
      * apply Hfc. exact Hr.
      * apply Z.eqb_neq. apply negb_true_iff. exact Hne.
Qed.

Lemma insert_frase_wf (now : Z) (t a : jsstring) (d : option JsDate)
    (st : jsstring) (u c : option Z) (s : Store) :
  store_wf s -> store_wf (snd (insert_frase now t a d st u c s)).
Proof.
  intros Hwf. unfold insert_frase.
  destruct u as [u |]; [| unchanged].
  destruct c as [c |]; [| unchanged].
  destruct (negb (includes status_enum st)); [unchanged |].
  destruct (datetime_of d) as [at_ |]; [| unchanged].
  destruct (usuario_exists s u && categoria_exists s c) eqn:He;
    cbn [negb]; [| unchanged].
  apply andb_true_iff in He. destruct He as [Heu Hec].
  apply usuario_exists_In in Heu. apply categoria_exists_In in Hec.
  destruct Hwf as [Hu Hc Hq Hnu Hnc Hnq Hfu Hfc].
  constructor; cbn [snd]; try assumption.
  - apply (keys_of_insert_NoDup frase.id_quote _ _ (next_id_quote s));
      [exact Hq | exact Hnq | reflexivity].
  - intros id Hid. unfold frase_ids in Hid; cbn [frases] in Hid.
    cbn [next_id_quote].
    eapply (keys_of_insert_bound frase.id_quote);
      [exact Hnq | | exact Hid]; reflexivity.
  - intros r Hr. cbn [frases] in Hr. apply in_app_or in Hr.
    destruct Hr as [Hr | [<- | []]]; [apply Hfu; exact Hr | exact Heu].
  - intros r Hr. cbn [frases] in Hr. apply in_app_or in Hr.
    destruct Hr as [Hr | [<- | []]]; [apply Hfc; exact Hr | exact Hec].
Qed.

Lemma update_frase_wf (t a : jsstring) (d : option JsDate) (st : jsstring)
    (c : option Z) (id : Z) (s : Store) :
  store_wf s -> store_wf (snd (update_frase t a d st c id s)).
Proof.
  intros Hwf. unfold update_frase.
  destruct (negb (existsb _ (frases s))); [unchanged |].
  destruct c as [c |]; [| unchanged].
  destruct (negb (includes status_enum st)); [unchanged |].
  destruct (datetime_of d) as [at_ |]; [| unchanged].
  destruct (categoria_exists s c) eqn:Hec; cbn [negb]; [| unchanged].
  apply categoria_exists_In in Hec.
  destruct Hwf as [Hu Hc Hq Hnu Hnc Hnq Hfu Hfc].
  set (upd := fun r => if frase.id_quote r =? id
                       then set_frase t a at_ st c r else r).
  assert (map frase.id_quote (map upd (frases s)) = frase_ids s) as E.
  { apply keys_of_update. intros r. unfold upd.
    destruct (frase.id_quote r =? id); reflexivity. }
  constructor; cbn [snd]; try assumption.
  - unfold frase_ids; cbn [frases with_frases]. rewrite E. exact Hq.
  - unfold frase_ids; cbn [frases with_frases]. rewrite E. exact Hnq.
  - intros r Hr. cbn [frases with_frases] in Hr.
    apply in_map_iff in Hr. destruct Hr as (r0 & <- & Hr0).
    unfold upd. destruct (frase.id_quote r0 =? id);
      [change (In (frase.creado_por r0) (usuario_ids s)) |];
      apply Hfu; exact Hr0.
  - intros r Hr. cbn [frases with_frases] in Hr.
    apply in_map_iff in Hr. destruct Hr as (r0 & <- & Hr0).
    unfold upd. destruct (frase.id_quote r0 =? id);
      [exact Hec | apply Hfc; exact Hr0].
Qed.

Lemma delete_frase_wf (id : Z) (s : Store) :
  store_wf s -> store_wf (snd (delete_frase id s)).
Proof.
  intros Hwf. unfold delete_frase.
  destruct (negb (existsb _ (frases s))); [unchanged |].
  destruct Hwf as [Hu Hc Hq Hnu Hnc Hnq Hfu Hfc].
  constructor; cbn [snd]; try assumption.
  - apply keys_of_filter_NoDup. exact Hq.
  - intros k Hk. apply Hnq.
    apply (keys_of_filter_incl frase.id_quote _ _ _ Hk).
  - intros r Hr. cbn [frases with_frases] in Hr.
    apply filter_In in Hr. apply Hfu. tauto.
  - intros r Hr. cbn [frases with_frases] in Hr.
    apply filter_In in Hr. apply Hfc. tauto.
Qed.

(** Every statement keeps the constraints of the schema. *)
Lemma execute_wf (now : Z) (q : Stmt) (s : Store) :
  store_wf s -> store_wf (snd (execute now q s)).
Proof.
  intros Hwf. destruct q; cbn [execute]; try unchanged.
  - apply insert_usuario_wf; exact Hwf.
  - apply update_usuario_wf; exact Hwf.
  - apply update_usuario_password_wf; exact Hwf.
  - apply delete_usuario_wf; exact Hwf.
  - apply insert_categoria_wf; exact Hwf.
  - apply update_categoria_wf; exact Hwf.
  - apply delete_categoria_wf; exact Hwf.
  - apply insert_frase_wf; exact Hwf.
  - apply update_frase_wf; exact Hwf.
  - apply delete_frase_wf; exact Hwf.
  - unfold select_frases.
    destruct ((limit <? 0) || (offset <? 0)); unchanged.
Qed.

Lemma fresh_store_wf (a : FkAction) : store_wf (fresh_store a).
Proof.
  constructor; cbn; try constructor; intros; contradiction.
Qed.

(** A reachable store satisfies the constraints of the schema. *)
Lemma Reachable_wf (s : Store) : Reachable s -> store_wf s.
Proof.
  induction 1 as [a | s now q _ IH].
  - apply fresh_store_wf.
  - apply execute_wf. exact IH.
Qed.

Lemma Reachable_replay (history : list (Z * Stmt)) (s : Store) :
  Reachable s -> Reachable (replay history s).
Proof.
  revert s. induction history as [| [now q] history IH]; intros s Hs;
    [exact Hs |].
  apply IH. apply reachable_step. exact Hs.
Qed.

Lemma sample_store_replayed :
  replay sample_history (fresh_store Restrict) = sample_store.
Proof. reflexivity. Qed.

Lemma sample_store_Reachable : Reachable sample_store.
Proof.
  rewrite <- sample_store_replayed.
  apply Reachable_replay. apply reachable_fresh.
Qed.

(** ** Counting and listing quotes *)

(** In a well-formed store a quote joins with one user and one category. *)
Lemma join_frase_single (s : Store) (r : frase.row) :
  store_wf s -> In r (frases s) -> length (join_frase s r) = 1%nat.
Proof.
  intros Hwf Hr.
  pose proof (wf_creado_por s Hwf r Hr) as Hu.
  pose proof (wf_categoria_id s Hwf r Hr) as Hc.
  unfold usuario_ids in Hu. unfold categoria_ids in Hc.
  apply in_map_iff in Hu. destruct Hu as (u & Eu & Hu).
  apply in_map_iff in Hc. destruct Hc as (c & Ec & Hc).
  unfold join_frase. rewrite <- Eu, <- Ec.
  rewrite (flat_map_unique_key usuario.id_user _ (usuarios s) u
             (wf_user_keys s Hwf) Hu).
  rewrite (flat_map_unique_key categoria.id_category _ (categorias s) c
             (wf_category_keys s Hwf) Hc).
  reflexivity.
Qed.

Lemma length_flat_map_single {A B} (f : A -> list B) (l : list A) :
  (forall x, In x l -> length (f x) = 1%nat) ->
  length (flat_map f l) = length l.
Proof.
  induction l as [| x l IH]; intros H; simpl; [reflexivity |].
  rewrite length_app, (H x (or_introl eq_refl)), IH; [reflexivity |].
  intros y Hy. apply H. right; assumption.
Qed.

Lemma length_insert_desc (x : frase.joined) (l : list frase.joined) :
  length (insert_desc x l) = S (length l).
Proof.
  induction l as [| y l IH]; simpl; [reflexivity |].
  destruct (_ <=? _); simpl; [reflexivity | rewrite IH; reflexivity].
Qed.

(** Ordering keeps the number of rows. *)
Lemma length_order_by_fecha_desc (l : list frase.joined) :
  length (order_by_fecha_desc l) = length l.
Proof.
  induction l as [| x l IH]; simpl; [reflexivity |].
  rewrite length_insert_desc, IH. reflexivity.
Qed.

(** The two methods build the same conditions from a filter object. *)
Lemma findAll_where_count_where (fs : Frase.filters) :
  Frase.findAll_where fs = Frase.count_where fs.
Proof. reflexivity. Qed.

(** The rows the [SELECT] of [findAll] has before [LIMIT] and [OFFSET] are
    as many as the [COUNT] of the same conditions. *)
Lemma joined_rows_count (conds : list Cond) (s : Store) :
  store_wf s ->
  Z.of_nat
    (length (order_by_fecha_desc
               (flat_map (join_frase s) (filter (where_holds conds) (frases s)))))
  = count_frases conds s.
Proof.
  intros Hwf. unfold count_frases.
  rewrite length_order_by_fecha_desc, length_flat_map_single; [reflexivity |].
  intros r Hr. apply filter_In in Hr.
  apply join_frase_single; tauto.
Qed.

Lemma Frase_count_eval (fs : Frase.filters) (w : World) :
  available w ->
  Frase.count fs w
  = (Return (count_frases (Frase.count_where fs) (store w)),
     with_execution (connected w) (store w)
       (CountFrases (Frase.count_where fs))).
Proof.
  intros Hav. unfold Frase.count, try_catch, bind.
  rewrite (query_available _ _ Hav). unfold Database.run. cbn [execute].
  rewrite store_connected. reflexivity.
Qed.

Lemma Frase_findAll_eval (fs : Frase.filters) (limit offset : Z) (w : World) :
  available w -> 0 <= limit -> 0 <= offset ->
  Frase.findAll fs limit offset w
  = (Return
       (map (fun row => Frase.constructor (Frase.of_row row))
          (firstn (Z.to_nat limit)
             (skipn (Z.to_nat offset)
                (order_by_fecha_desc
                   (flat_map (join_frase (store w))
                      (filter (where_holds (Frase.findAll_where fs))
                         (frases (store w)))))))),
     with_execution (connected w) (store w)
       (SelectFrases (Frase.findAll_where fs) limit offset)).
Proof.
  intros Hav Hl Ho. unfold Frase.findAll, try_catch, bind.
  rewrite (query_available _ _ Hav). unfold Database.run.
  cbn [execute]. unfold select_frases.
  rewrite store_connected.
  rewrite (proj2 (Z.ltb_ge _ _) Hl), (proj2 (Z.ltb_ge _ _) Ho).
  reflexivity.
Qed.

Lemma available_after_execution (w : World) (s : Store) (q : Stmt) :
  available w -> available (with_execution (connected w) s q).
Proof.
  intros Hav. left. unfold connected.
  destruct (connection w) eqn:Hc; cbn; [exact Hc | reflexivity].
Qed.

(** C3: on a store reachable under the schema, for every filter object,
    [count(filters)] resolves to the number of quotes that
    [findAll(filters, limit, 0)], called next, resolves to whenever
    [limit] does not cut the result, that is, is at least that number;
    with any other limit the list has [limit] quotes. *)
Theorem Frase_count_equals_findAll_length (fs : Frase.filters) (w : World)
    (limit : Z) :
  Reachable (store w) ->
  available w ->
  0 <= limit ->
  exists n w1 rows w2,
    Frase.count fs w = (Return n, w1)
    /\ Frase.findAll fs limit 0 w1 = (Return rows, w2)
    /\ Z.of_nat (length rows) = Z.min limit n
    /\ (n <= limit -> n = Z.of_nat (length rows)).
Proof.
  intros Hreach Hav Hlimit.
  pose proof (Reachable_wf _ Hreach) as Hwf.
  set (w1 := with_execution (connected w) (store w)
               (CountFrases (Frase.count_where fs))).
  assert (available w1) as Hav1 by (apply available_after_execution; exact Hav).
  pose proof (Frase_findAll_eval fs limit 0 w1 Hav1 Hlimit (Z.le_refl 0))
    as Hfind.
  assert (store w1 = store w) as Es by reflexivity.
  rewrite Es in Hfind.
  eexists. exists w1. eexists. eexists.
  split; [apply (Frase_count_eval fs w Hav) |]. split; [exact Hfind |].
  assert (Z.of_nat
            (length
               (map (fun row => Frase.constructor (Frase.of_row row))
                  (firstn (Z.to_nat limit)
                     (skipn (Z.to_nat 0)
                        (order_by_fecha_desc
                           (flat_map (join_frase (store w))
                              (filter (where_holds (Frase.findAll_where fs))
                                 (frases (store w)))))))))
          = Z.min limit (count_frases (Frase.count_where fs) (store w))) as E.
  { rewrite length_map, length_firstn. cbn [Z.to_nat skipn].
    rewrite <- (joined_rows_count (Frase.count_where fs) (store w) Hwf).
    rewrite findAll_where_count_where. lia. }
  split; [exact E |]. intros Hle. rewrite E. lia.
Qed.

Lemma Frase_count_equals_findAll_length_witness :
  let w := world_of sample_store in
  Reachable (store w)
  /\ available w
  /\ 0 <= 1000
  /\ exists w1 rows w2,
       Frase.count published_with_thanks w = (Return 1, w1)
       /\ Frase.findAll published_with_thanks 1000 0 w1 = (Return rows, w2)
       /\ Z.of_nat (length rows) = 1.
Proof.
  cbv zeta.
  assert (available (world_of sample_store)) as Hav by (right; reflexivity).
  assert (0 <= 1000) as Hl by lia.
  destruct (Frase_count_equals_findAll_length published_with_thanks
              (world_of sample_store) 1000 sample_store_Reachable Hav Hl)
    as (n & w1 & rows & w2 & Hc & Hf & _ & Hn).
  assert (n = 1) as En.
  { rewrite (Frase_count_eval _ _ Hav) in Hc. injection Hc as <- _.
    reflexivity. }
  subst n.
  split; [exact sample_store_Reachable |]. split; [exact Hav |].
  split; [exact Hl |].
  exists w1, rows, w2. split; [exact Hc |]. split; [exact Hf |].
  symmetry. apply Hn. lia.
Defined.

(** ** Derived keys collide *)

Lemma byte_of_Z_of_byte (b : byte) : byte_of_Z (Z_of_byte b) = b.
Proof. destruct b; reflexivity. Qed.

Lemma all_bytes_full (b : byte) : In b all_bytes.
Proof.
  unfold all_bytes. apply in_map_iff.
  exists (Z.to_nat (Z_of_byte b)).
  pose proof (Z_of_byte_range b) as Hb. split.
  - rewrite Z2Nat.id by lia. apply byte_of_Z_of_byte.
  - apply in_seq. lia.
Qed.

Lemma byte_strings_full (n : nat) (l : list byte) :
  length l = n -> In l (byte_strings n).
Proof.
  revert l; induction n as [| n IH]; intros [| b l] H; simpl in H;
    try discriminate.
  - left. reflexivity.
  - cbn [byte_strings]. apply in_flat_map. exists b.
    split; [apply all_bytes_full |].
    apply in_map. apply IH. lia.
Qed.

(** Among more values than a finite set has elements, two are equal. *)
Lemma collision_in_list {B} (dec : forall x y : B, {x = y} + {x <> y})
    (f : nat -> B) (l : list nat) :
  NoDup l -> ~ NoDup (map f l) ->
  exists i j, In i l /\ In j l /\ i <> j /\ f i = f j.
Proof.
  induction l as [| a l IH]; intros Hl Hm; simpl in Hm.
  - exfalso. apply Hm. constructor.
  - apply NoDup_cons_iff in Hl as [Ha Hl].
    destruct (in_dec dec (f a) (map f l)) as [Hin | Hnin].
    + apply in_map_iff in Hin. destruct Hin as (j & E & Hj).
      exists a, j. split; [left; reflexivity |]. split; [right; exact Hj |].
      split; [| symmetry; exact E].
      intros ->. contradiction.
    + destruct IH as (i & j & Hi & Hj & Hne & E); [exact Hl | |].
      * intros Hnd. apply Hm. constructor; assumption.
      * exists i, j. split; [right; exact Hi |].
        split; [right; exact Hj |]. split; assumption.
Qed.

Lemma pigeonhole_byte_strings (n : nat) (f : nat -> list byte) :
  (forall i, length (f i) = n) ->
  exists i j, i <> j /\ f i = f j.
Proof.
  intros Hlen.
  set (m := length (byte_strings n)).
  destruct (collision_in_list (list_eq_dec byte_eq_dec) f (seq 0 (S m)))
    as (i & j & _ & _ & Hne & E).
  - apply seq_NoDup.
  - intros Hnd.
    assert (length (map f (seq 0 (S m))) <= m)%nat as Hle.
    { apply NoDup_incl_length; [exact Hnd |].
      intros x Hx. apply in_map_iff in Hx. destruct Hx as (i & <- & _).
      apply byte_strings_full. apply Hlen. }
    rewrite length_map, length_seq in Hle. lia.
  - exists i, j. split; assumption.
Qed.

Lemma utf8_encode_letters (n : nat) :
  utf8_encode (letters n) = repeat (byte_of_Z 97) n.
Proof.
  induction n as [| n IH]; [reflexivity |].
  change (letters (S n)) with (97 :: letters n).
  cbn [utf8_encode]. rewrite IH. reflexivity.
Qed.

(** Whatever the key derivation, as long as its keys have 64 bytes, and
    whatever the salt, there are two passwords with different UTF-8 bytes
    of which the one verifies against the hash of the other: rejecting a
    wrong password cannot be had from the difference of the passwords. *)
Lemma derived_keys_collide
    (kdf : list byte -> list byte -> Z -> Z -> list byte) :
  (forall password salt, length (kdf password salt 1000 64) = 64%nat) ->
  forall salt_bytes,
  exists p w,
    utf8_encode p <> utf8_encode w
    /\ Usuario.verifyPassword kdf w (Usuario.salted_hash kdf salt_bytes p)
       = true.
Proof.
  intros Hlen salt_bytes.
  destruct (pigeonhole_byte_strings 64
              (fun i => kdf (utf8_encode (letters i))
                          (utf8_encode (to_hex salt_bytes)) 1000 64))
    as (i & j & Hne & E).
  - intros i. apply Hlen.
  - exists (letters i), (letters j). split.
    + rewrite !utf8_encode_letters. intros H.
      apply (f_equal (@length byte)) in H.
      rewrite !repeat_length in H. contradiction.
    + rewrite verify_salted_hash. unfold Usuario.derive.
      rewrite E. apply str_eqb_refl.
Qed.

(* ===================================================================== *)
(** * Further properties of the entity classes *)
(* ===================================================================== *)

(** ** The shape of an accepted email *)

Lemma re_test_end (s : jsstring) : re_test [] s = true <-> s = [].
Proof. destruct s; simpl; split; congruence. Qed.

Lemma re_test_lit (c : Z) (items : list re_item) (s : jsstring) :
  re_test (Lit c :: items) s = true
  <-> exists s', s = c :: s' /\ re_test items s' = true.
Proof.
  destruct s as [| x s']; simpl.
  - split; [discriminate | intros (s0 & H & _); discriminate H].
  - rewrite andb_true_iff, Z.eqb_eq. split.
    + intros [-> H]. exists s'. split; [reflexivity | exact H].
    + intros (s0 & E & H). injection E as -> ->. split; [reflexivity | exact H].
Qed.

Lemma re_test_plus_step (cls : Z -> bool) (items : list re_item) (x : Z)
    (s : jsstring) :
  re_test (Plus cls :: items) (x :: s)
  = cls x && (re_test items s || re_test (Plus cls :: items) s).
Proof. reflexivity. Qed.

Lemma re_test_plus (cls : Z -> bool) (items : list re_item) (s : jsstring) :
  re_test (Plus cls :: items) s = true
  <-> exists a b, s = a ++ b /\ a <> [] /\ forallb cls a = true
                  /\ re_test items b = true.
Proof.
  induction s as [| x s IH].
  - split; [discriminate |].
    intros (a & b & E & Ha & _). destruct a; [congruence | discriminate E].
  - rewrite re_test_plus_step, andb_true_iff, orb_true_iff, IH. split.
    + intros [Hx [Hrest | (a & b & -> & Ha & Hcls & Hb)]].
      * exists [x], s. repeat split; [discriminate | | exact Hrest].
        simpl. rewrite Hx. reflexivity.
      * exists (x :: a), b. repeat split; [discriminate | | exact Hb].
        simpl. rewrite Hx, Hcls. reflexivity.
    + intros (a & b & E & Ha & Hcls & Hb).
      destruct a as [| y a]; [congruence |].
      injection E as -> ->. simpl in Hcls.
      apply andb_true_iff in Hcls. destruct Hcls as [Hy Hcls].
      split; [exact Hy |].
      destruct a as [| z a]; [left; exact Hb |].
      right. exists (z :: a), b. repeat split; [discriminate | exact Hcls | exact Hb].
Qed.

Lemma count_occ_allowed (l : jsstring) :
  forallb Usuario.not_space_nor_at l = true -> count_occ Z.eq_dec l 64 = 0%nat.
Proof.
  intros H. apply count_occ_not_In. intros Hin.
  rewrite forallb_forall in H. specialize (H 64 Hin). discriminate H.
Qed.

Lemma allowed_not_space (l : jsstring) :
  forallb Usuario.not_space_nor_at l = true ->
  forallb (fun c => negb (is_space c)) l = true.
Proof.
  rewrite !forallb_forall. intros H c Hc. specialize (H c Hc).
  unfold Usuario.not_space_nor_at in H. apply andb_true_iff in H. tauto.
Qed.

(** X1: [isValidEmail] accepts exactly the strings made of a local part,
    an at sign, and a domain that has a dot with something on both sides,
    none of the three parts holding white space or an at sign. So an
    accepted address has exactly one at sign and no white space. *)
Theorem isValidEmail_shape (email : jsstring) :
  (Usuario.isValidEmail email = true
   <-> exists local d1 d2,
         email = local ++ 64 :: d1 ++ 46 :: d2
         /\ local <> [] /\ d1 <> [] /\ d2 <> []
         /\ forallb Usuario.not_space_nor_at local = true
         /\ forallb Usuario.not_space_nor_at d1 = true
         /\ forallb Usuario.not_space_nor_at d2 = true)
  /\ (Usuario.isValidEmail email = true ->
      count_occ Z.eq_dec email 64 = 1%nat
      /\ forallb (fun c => negb (is_space c)) email = true).
Proof.
  assert (Usuario.isValidEmail email = true
          <-> exists local d1 d2,
                email = local ++ 64 :: d1 ++ 46 :: d2
                /\ local <> [] /\ d1 <> [] /\ d2 <> []
                /\ forallb Usuario.not_space_nor_at local = true
                /\ forallb Usuario.not_space_nor_at d1 = true
                /\ forallb Usuario.not_space_nor_at d2 = true) as Hshape.
  { unfold Usuario.isValidEmail, Usuario.emailRegex. rewrite re_test_plus.
    split.
    - intros (local & b & -> & Hl & Hcl & Hb).
      apply re_test_lit in Hb. destruct Hb as (b1 & -> & Hb1).
      apply re_test_plus in Hb1. destruct Hb1 as (d1 & b2 & -> & Hd1 & Hc1 & Hb2).
      apply re_test_lit in Hb2. destruct Hb2 as (b3 & -> & Hb3).
      apply re_test_plus in Hb3. destruct Hb3 as (d2 & b4 & -> & Hd2 & Hc2 & Hb4).
      apply re_test_end in Hb4. subst b4. rewrite app_nil_r.
      exists local, d1, d2. repeat split; assumption.
    - intros (local & d1 & d2 & -> & Hl & Hd1 & Hd2 & Hcl & Hc1 & Hc2).
      exists local, (64 :: d1 ++ 46 :: d2). repeat split; try assumption.
      apply re_test_lit. eexists. split; [reflexivity |].
      apply re_test_plus. exists d1, (46 :: d2). repeat split; try assumption.
      apply re_test_lit. eexists. split; [reflexivity |].
      apply re_test_plus. exists d2, []. rewrite app_nil_r.
      repeat split; try assumption. }
  split; [exact Hshape |].
  intros H. apply Hshape in H.
  destruct H as (local & d1 & d2 & -> & _ & _ & _ & Hcl & Hc1 & Hc2). split.
  - rewrite count_occ_app. cbn [count_occ].
    destruct (Z.eq_dec 64 64) as [_ | Hne]; [| congruence].
    rewrite count_occ_app. cbn [count_occ].
    destruct (Z.eq_dec 46 64) as [Hbad | _]; [discriminate Hbad |].
    rewrite !count_occ_allowed by assumption. reflexivity.
  - rewrite forallb_app. cbn [forallb]. rewrite forallb_app. cbn [forallb].
    rewrite !allowed_not_space by assumption. reflexivity.
Qed.

Lemma isValidEmail_shape_witness :
  Usuario.isValidEmail (js "ana.b@x.com.mx") = true
  /\ count_occ Z.eq_dec (js "ana.b@x.com.mx") 64 = 1%nat
  /\ forallb (fun c => negb (is_space c)) (js "ana.b@x.com.mx") = true.
Proof.
  split; [reflexivity |].
  apply (proj2 (isValidEmail_shape (js "ana.b@x.com.mx"))). reflexivity.
Defined.

(** ** What the other two [validate()] methods accept *)

Lemma collect_nil_iff (cs : list (bool * string)) :
  collect cs = [] <-> forallb (fun c => negb (fst c)) cs = true.
Proof.
  induction cs as [| [g m] cs IH]; [simpl; tauto |].
  unfold collect in *. simpl. destruct g; simpl.
  - split; discriminate.
  - exact IH.
Qed.

Lemma guard_min_false (s : jsstring) (n : Z) :
  0 < n ->
  (negb (truthy_str s) || (len s <? n)) = false <-> n <= len s.
Proof.
  intros Hn. destruct s as [| c s]; simpl.
  - unfold len; simpl. split; [discriminate | lia].
  - apply Z.ltb_ge.
Qed.

Lemma guard_max_false (s : jsstring) (n : Z) :
  0 <= n ->
  (truthy_str s && (n <? len s)) = false <-> len s <= n.
Proof.
  intros Hn. destruct s as [| c s]; simpl.
  - unfold len; simpl. split; [lia | reflexivity].
  - apply Z.ltb_ge.
Qed.

(** X2: [validate()] of a user accepts exactly when the trimmed name has
    at least 2 characters, the email matches the pattern, the credential
    field of the instance has at least 6 characters and the role is one
    of admin and user; it then returns no message. *)
Theorem Usuario_validate_accepts_iff (u : Usuario.t) :
  (isValid (Usuario.validate u) = true
   <-> 2 <= len (trim (Usuario.nombre u))
       /\ Usuario.isValidEmail (Usuario.correo_electronico u) = true
       /\ 6 <= len (Usuario.password_hash u)
       /\ In (Usuario.rol u) rol_enum)
  /\ (isValid (Usuario.validate u) = true -> errors (Usuario.validate u) = []).
Proof.
  rewrite Usuario_validate_collect. split.
  - rewrite isValid_validation_of, collect_nil_iff.
    unfold Usuario_checks. cbn [forallb fst].
    rewrite !andb_true_iff, !negb_true_iff.
    rewrite short_guard by lia. rewrite Z.ltb_ge.
    rewrite (guard_min_false (Usuario.password_hash u) 6) by lia.
    rewrite negb_false_iff, includes_In.
    assert ((negb (truthy_str (Usuario.correo_electronico u))
             || negb (Usuario.isValidEmail (Usuario.correo_electronico u)))
            = false
            <-> Usuario.isValidEmail (Usuario.correo_electronico u) = true)
      as ->.
    { destruct (Usuario.correo_electronico u) as [| c s]; simpl.
      - split; discriminate.
      - apply negb_false_iff. }
    tauto.
  - intros H. apply isValid_validation_of in H. exact H.
Qed.

Lemma Usuario_validate_accepts_iff_witness :
  errors (Usuario.validate ana_with_field) = []
  /\ ~ isValid (Usuario.validate new_ana) = true.
Proof.
  split.
  - apply (proj2 (Usuario_validate_accepts_iff _)). reflexivity.
  - intros H.
    apply (proj1 (proj1 (Usuario_validate_accepts_iff new_ana))) in H.
    destruct H as (_ & _ & H & _). vm_compute in H. apply H. reflexivity.
Defined.

(** X3: [validate()] of a category accepts exactly when the trimmed name
    has at least 2 characters, the name at most 80 and the description at
    most 255; it then returns no message. *)
Theorem Categoria_validate_accepts_iff (c : Categoria.t) :
  (isValid (Categoria.validate c) = true
   <-> 2 <= len (trim (Categoria.nombre c))
       /\ len (Categoria.nombre c) <= 80
       /\ len (Categoria.descripcion c) <= 255)
  /\ (isValid (Categoria.validate c) = true ->
      errors (Categoria.validate c) = []).
Proof.
  rewrite Categoria_validate_collect. split.
  - rewrite isValid_validation_of, collect_nil_iff.
    unfold Categoria_checks. cbn [forallb fst].
    rewrite !andb_true_iff, !negb_true_iff.
    rewrite short_guard by lia. rewrite Z.ltb_ge.
    rewrite (guard_max_false (Categoria.nombre c) 80) by lia.
    rewrite (guard_max_false (Categoria.descripcion c) 255) by lia.
    tauto.
  - intros H. apply isValid_validation_of in H. exact H.
Qed.

Lemma Categoria_validate_accepts_iff_witness :
  errors (Categoria.validate (Categoria_of_row hope)) = []
  /\ 2 <= len (trim (Categoria.nombre (Categoria_of_row hope))).
Proof.
  split.
  - apply (proj2 (Categoria_validate_accepts_iff _)). reflexivity.
  - apply (proj1 (proj1 (Categoria_validate_accepts_iff
                           (Categoria_of_row hope)))).
    reflexivity.
Defined.

(** ** Generated keys are positive *)

Ltac split_branches :=
  repeat match goal with
         | |- context [if ?b then _ else _] => destruct b
         | |- context [match ?x with _ => _ end] => destruct x
         end.

Lemma execute_positive (now : Z) (q : Stmt) (s : Store) :
  store_positive s -> store_positive (snd (execute now q s)).
Proof.
  intros [Hu Hc Hq].
  destruct q; cbn [execute];
    unfold insert_usuario, update_usuario, update_usuario_password,
      delete_usuario, insert_categoria, update_categoria, delete_categoria,
      insert_frase, update_frase, delete_frase, select_frases;
    split_branches; constructor; cbn; lia.
Qed.

Lemma Reachable_positive (s : Store) : Reachable s -> store_positive s.
Proof.
  induction 1 as [a | s now q _ IH].
  - constructor; cbn; lia.
  - apply execute_positive. exact IH.
Qed.

(** ** Creating a user *)

Lemma or_string_some (s : jsstring) : or_string (Some s) [] = s.
Proof. destruct s; reflexivity. Qed.

Lemma or_string_nonempty (s d : jsstring) :
  s <> [] -> or_string (Some s) d = s.
Proof. destruct s; [congruence | reflexivity]. Qed.

Lemma or_null_nonzero (z : Z) : z <> 0 -> or_null (Some z) = Some z.
Proof.
  intros H. unfold or_null, truthy_num.
  rewrite (proj2 (Z.eqb_neq z 0) H). reflexivity.
Qed.

Lemma rol_enum_nonempty (r : jsstring) : In r rol_enum -> r <> [].
Proof. intros [<- | [<- | []]]; discriminate. Qed.

Lemma status_enum_nonempty (st : jsstring) : In st status_enum -> st <> [].
Proof. intros [<- | [<- | [<- | []]]]; discriminate. Qed.

Lemma sql_eq_refl (a : jsstring) : sql_eq a a = true.
Proof. apply str_eqb_refl. Qed.

Lemma available_with_draw (w : World) : available w -> available (with_draw w).
Proof. intros H. exact H. Qed.

Lemma connection_connected (w : World) :
  available w -> connection (connected w) = true.
Proof.
  intros [H | H]; unfold connected; destruct (connection w) eqn:E;
    try exact E; try reflexivity; congruence.
Qed.

(** What [getLastInsertId] gives on a connection. *)
Lemma getLastInsertId_connected (w : World) :
  connection w = true ->
  Database.getLastInsertId w
  = (Return (last_insert_id (store w)),
     with_execution w (store w) SelectLastInsertId).
Proof.
  intros Hc. unfold Database.getLastInsertId, bind, Database.run, ret.
  cbv beta. rewrite Hc. reflexivity.
Qed.

(** Loading a row whose key is not zero and whose role is not empty gives
    back its columns. *)
Lemma Usuario_of_row_columns (r : usuario.row) :
  usuario.id_user r <> 0 -> usuario.rol r <> [] ->
  Usuario.constructor (Usuario.of_row r)
  = {| Usuario.id_user := Some (usuario.id_user r);
       Usuario.nombre := usuario.nombre r;
       Usuario.correo_electronico := usuario.correo_electronico r;
       Usuario.password_hash := usuario.password_hash r;
       Usuario.fecha_creacion := Some (usuario.fecha_creacion r);
       Usuario.rol := usuario.rol r |}.
Proof.
  intros Hid Hrol. unfold Usuario.constructor, Usuario.of_row.
  cbn [Usuario.d_id_user Usuario.d_nombre Usuario.d_correo_electronico
         Usuario.d_password_hash Usuario.d_fecha_creacion Usuario.d_rol].
  rewrite (or_null_nonzero _ Hid), !or_string_some.
  rewrite (or_string_nonempty _ _ Hrol). reflexivity.
Qed.

Lemma Usuario_valid_rol (u : Usuario.t) :
  isValid (Usuario.validate u) = true -> In (Usuario.rol u) rol_enum.
Proof.
  intros Hv. rewrite Usuario_validate_collect in Hv.
  apply isValid_validation_of, collect_nil_iff in Hv.
  unfold Usuario_checks in Hv. cbn [forallb fst] in Hv.
  repeat (apply andb_true_iff in Hv; destruct Hv as [? Hv]).
  match goal with
  | H : negb (negb (includes _ _)) = true |- _ =>
      rewrite negb_involutive in H; apply includes_In; exact H
  end.
Qed.

Section CreatingUsers.

Variable kdf : list byte -> list byte -> Z -> Z -> list byte.

Lemma Usuario_create_eval (password : jsstring) (u : Usuario.t) (w : World) :
  isValid (Usuario.validate u) = true ->
  available w ->
  let h := Usuario.salted_hash kdf (next_salt w) password in
  let stmt := InsertUsuario (Usuario.nombre u) (Usuario.correo_electronico u)
                h (Usuario.rol u) in
  let answer := insert_usuario (clock w) (Usuario.nombre u)
                  (Usuario.correo_electronico u) h (Usuario.rol u) (store w) in
  let w1 := with_execution (connected (with_draw w)) (snd answer) stmt in
  Usuario.create kdf password (u, w)
  = match fst answer with
    | inl code =>
        (Throw (if String.eqb code "ER_DUP_ENTRY"
                then Error "El correo electrónico ya está registrado"
                else DriverError code),
         (Usuario.set_password_hash h u, w1))
    | inr _ =>
        (Return (Usuario.set_created (last_insert_id (snd answer)) (clock w)
                   (Usuario.set_password_hash h u)),
         (Usuario.set_created (last_insert_id (snd answer)) (clock w)
            (Usuario.set_password_hash h u),
          with_execution w1 (snd answer) SelectLastInsertId))
    end.
Proof.
  intros Hv Hav. cbv zeta.
  cbv [Usuario.create bind this assign on_world try_catch
         Usuario.hashPassword randomBytes ret new_Date throw
         Usuario.on_duplicate fst snd].
  rewrite Hv. cbv [negb].
  change (firstn 16 (entropy w (draws w) ++ repeat x00 16))
    with (next_salt w).
  rewrite (query_available _ _ (available_with_draw w Hav)).
  unfold Database.run. rewrite store_connected, clock_connected.
  cbn [execute clock store with_draw
         Usuario.nombre Usuario.correo_electronico Usuario.password_hash
         Usuario.rol Usuario.set_password_hash].
  destruct (insert_usuario (clock w) (Usuario.nombre u)
              (Usuario.correo_electronico u)
              (Usuario.salted_hash kdf (next_salt w) password)
              (Usuario.rol u) (store w)) as [[code | res] s'];
    cbn [fst snd has_code].
  - destruct (String.eqb code "ER_DUP_ENTRY"); reflexivity.
  - rewrite getLastInsertId_connected.
    + cbn [fst snd store with_execution clock]. rewrite clock_connected.
      reflexivity.
    + cbn [connection with_execution].
      apply (connection_connected (with_draw w)). exact Hav.
Qed.

(** X4: a user that passes [validate()] and whose email no stored user
    has is inserted by [create(password)] with the key the store
    generated: the instance gets that key, the hash of the password and a
    creation time, and keeps its name, email and role; the password
    verifies against the hash, and [authenticate] with the same email and
    password, and [findById] with the key, then resolve to a user with the
    same key, name, email, hash and role. *)
Theorem Usuario_create_then_authenticate (password : jsstring)
    (u : Usuario.t) (w : World) :
  Reachable (store w) ->
  available w ->
  isValid (Usuario.validate u) = true ->
  email_free (Usuario.correo_electronico u) (store w) ->
  exists u1 w1 u2 w2 u3 w3,
    Usuario.create kdf password (u, w) = (Return u1, (u1, w1))
    /\ Usuario_identity u1
       = (Some (next_id_user (store w)), Usuario.nombre u,
          Usuario.correo_electronico u,
          Usuario.salted_hash kdf (next_salt w) password, Usuario.rol u)
    /\ Usuario.fecha_creacion u1 <> None
    /\ Usuario.verifyPassword kdf password (Usuario.password_hash u1) = true
    /\ Usuario.authenticate kdf (Usuario.correo_electronico u) password w1
       = (Return (Some u2), w2)
    /\ Usuario_identity u2 = Usuario_identity u1
    /\ Usuario.findById (next_id_user (store w)) w1 = (Return (Some u3), w3)
    /\ Usuario_identity u3 = Usuario_identity u1.
Proof.
  intros Hreach Hav Hv Hfree.
  pose proof (Reachable_wf _ Hreach) as Hwf.
  pose proof (positive_next_user _ (Reachable_positive _ Hreach)) as Hpos.
  pose proof (Usuario_valid_rol u Hv) as Hrol.
  pose proof (Usuario_create_eval password u w Hv Hav) as Hc.
  cbv zeta in Hc.
  set (h := Usuario.salted_hash kdf (next_salt w) password) in *.
  assert (insert_usuario (clock w) (Usuario.nombre u)
            (Usuario.correo_electronico u) h (Usuario.rol u) (store w)
          = (inr (OkPacket 1 (next_id_user (store w))),
             {| usuarios := usuarios (store w) ++
                  [{| usuario.id_user := next_id_user (store w);
                      usuario.nombre := Usuario.nombre u;
                      usuario.correo_electronico := Usuario.correo_electronico u;
                      usuario.password_hash := h;
                      usuario.fecha_creacion := clock w;
                      usuario.rol := Usuario.rol u |}];
                categorias := categorias (store w);
                frases := frases (store w);
                next_id_user := next_id_user (store w) + 1;
                next_id_category := next_id_category (store w);
                next_id_quote := next_id_quote (store w);
                last_insert_id := next_id_user (store w);
                on_delete := on_delete (store w) |})) as Hins.
  { unfold insert_usuario.
    rewrite (proj2 (includes_In _ _) Hrol). cbn [negb].
    replace (existsb _ (usuarios (store w))) with false; [reflexivity |].
    symmetry. apply not_true_is_false. intros He.
    apply existsb_exists in He. destruct He as (r & Hr & E).
    rewrite (Hfree r Hr) in E. discriminate E. }
  rewrite Hins in Hc. cbn [fst snd last_insert_id] in Hc.
  set (row := {| usuario.id_user := next_id_user (store w);
                 usuario.nombre := Usuario.nombre u;
                 usuario.correo_electronico := Usuario.correo_electronico u;
                 usuario.password_hash := h;
                 usuario.fecha_creacion := clock w;
                 usuario.rol := Usuario.rol u |}) in *.
  assert (Usuario.constructor (Usuario.of_row row)
          = created_usuario kdf password u w) as Hload.
  { rewrite Usuario_of_row_columns.
    - reflexivity.
    - cbn [usuario.id_user row]. lia.
    - apply (rol_enum_nonempty _ Hrol). }
  match type of Hc with
  | _ = (_, (_, ?x)) => set (w1 := x) in *
  end.
  assert (available w1) as Hav1.
  { left. cbn. apply (connection_connected (with_draw w)). exact Hav. }
  exists (created_usuario kdf password u w), w1.
  exists (created_usuario kdf password u w). eexists.
  exists (created_usuario kdf password u w). eexists.
  split; [exact Hc |]. split; [reflexivity |].
  split; [discriminate |].
  split; [| split; [| split; [reflexivity | split; [| reflexivity]]]].
  - unfold created_usuario. cbn [Usuario.password_hash Usuario.set_created
                                   Usuario.set_password_hash].
    rewrite verify_salted_hash. apply str_eqb_refl.
  - rewrite (Usuario_authenticate_eval kdf _ _ w1 Hav1).
    assert (usuarios_by_email (Usuario.correo_electronico u) (store w1) = [row])
      as ->.
    { unfold usuarios_by_email. cbn [store w1 with_execution usuarios].
      rewrite filter_app, (filter_none _ _ Hfree). cbn [filter app].
      cbn [usuario.correo_electronico row]. rewrite sql_eq_refl. reflexivity. }
    unfold first_usuario. cbn [hd_error option_map]. rewrite Hload.
    unfold created_usuario at 1.
    cbn [Usuario.password_hash Usuario.set_created Usuario.set_password_hash].
    rewrite verify_salted_hash, str_eqb_refl. reflexivity.
  - rewrite (Usuario_findById_eval _ w1 Hav1).
    assert (usuarios_by_id (next_id_user (store w)) (store w1) = [row]) as ->.
    { unfold usuarios_by_id. cbn [store w1 with_execution usuarios].
      rewrite filter_app, filter_none.
      - cbn [filter app usuario.id_user row]. rewrite Z.eqb_refl. reflexivity.
      - intros r Hr. apply Z.eqb_neq.
        pose proof (wf_next_user _ Hwf (usuario.id_user r)
                      (in_map usuario.id_user _ _ Hr)). lia. }
    unfold first_usuario. cbn [hd_error option_map]. rewrite Hload.
    reflexivity.
Qed.

(** X5: when a stored user already has the email, [create] of a user that
    passes [validate()] throws the error on the registered email; no row
    is added or changed, and the instance is left with the hash it
    computed in its credential field and without a key. *)
Theorem Usuario_create_duplicate_email (password : jsstring)
    (u : Usuario.t) (w : World) :
  available w ->
  isValid (Usuario.validate u) = true ->
  (exists r, In r (usuarios (store w))
             /\ sql_eq (usuario.correo_electronico r)
                  (Usuario.correo_electronico u) = true) ->
  let r := Usuario.create kdf password (u, w) in
  fst r = Throw (Error "El correo electrónico ya está registrado")
  /\ store (snd (snd r)) = store w
  /\ fst (snd r)
     = Usuario.set_password_hash
         (Usuario.salted_hash kdf (next_salt w) password) u.
Proof.
  intros Hav Hv (r0 & Hr0 & E). cbv zeta.
  pose proof (Usuario_valid_rol u Hv) as Hrol.
  rewrite (Usuario_create_eval password u w Hv Hav). cbv zeta.
  assert (forall h,
             insert_usuario (clock w) (Usuario.nombre u)
               (Usuario.correo_electronico u) h (Usuario.rol u) (store w)
             = (inl "ER_DUP_ENTRY"%string, store w)) as Hins.
  { intros h. unfold insert_usuario.
    rewrite (proj2 (includes_In _ _) Hrol). cbn [negb].
    replace (existsb _ (usuarios (store w))) with true; [reflexivity |].
    symmetry. apply existsb_exists. exists r0. split; assumption. }
  rewrite Hins. cbn [fst snd]. repeat split.
Qed.

End CreatingUsers.

Lemma Usuario_create_then_authenticate_witness :
  let w := world_of (fresh_store Restrict) in
  Reachable (store w)
  /\ available w
  /\ isValid (Usuario.validate ana_with_field) = true
  /\ email_free (Usuario.correo_electronico ana_with_field) (store w)
  /\ exists u1 w1 u2 w2,
       Usuario.create toy_kdf (js "secret1") (ana_with_field, w)
       = (Return u1, (u1, w1))
       /\ Usuario.id_user u1 = Some 1
       /\ Usuario.authenticate toy_kdf (js "ana@x.com") (js "secret1") w1
          = (Return (Some u2), w2)
       /\ Usuario.id_user u2 = Some 1
       /\ Usuario.nombre u2 = js "Ana".
Proof.
  cbv zeta.
  assert (Reachable (store (world_of (fresh_store Restrict)))) as Hr
    by apply reachable_fresh.
  assert (available (world_of (fresh_store Restrict))) as Hav
    by (right; reflexivity).
  assert (email_free (Usuario.correo_electronico ana_with_field)
            (store (world_of (fresh_store Restrict)))) as Hfree
    by (intros r []).
  destruct (Usuario_create_then_authenticate toy_kdf (js "secret1")
              ana_with_field (world_of (fresh_store Restrict))
              Hr Hav eq_refl Hfree)
    as (u1 & w1 & u2 & w2 & u3 & w3 & Hc & Hi1 & _ & _ & Ha & Hi2 & _).
  split; [exact Hr |]. split; [exact Hav |]. split; [reflexivity |].
  split; [exact Hfree |]. exists u1, w1, u2, w2.
  rewrite Hi1 in Hi2. unfold Usuario_identity in Hi1, Hi2.
  injection Hi1 as E1 _ _ _ _. injection Hi2 as F1 F2 _ _ _.
  split; [exact Hc |]. split; [exact E1 |]. split; [exact Ha |].
  split; [exact F1 | exact F2].
Defined.

Lemma Usuario_create_duplicate_email_witness :
  let w := world_of sample_store in
  available w
  /\ isValid (Usuario.validate ana_with_field) = true
  /\ (exists r, In r (usuarios (store w))
                /\ sql_eq (usuario.correo_electronico r)
                     (Usuario.correo_electronico ana_with_field) = true)
  /\ fst (Usuario.create toy_kdf (js "secret1") (ana_with_field, w))
     = Throw (Error "El correo electrónico ya está registrado")
  /\ store (snd (snd (Usuario.create toy_kdf (js "secret1")
                        (ana_with_field, w)))) = sample_store.
Proof.
  cbv zeta.
  assert (available (world_of sample_store)) as Hav by (right; reflexivity).
  assert (exists r, In r (usuarios (store (world_of sample_store)))
                    /\ sql_eq (usuario.correo_electronico r)
                         (Usuario.correo_electronico ana_with_field) = true)
    as Hdup.
  { exists ana. split; [left; reflexivity | reflexivity]. }
  destruct (Usuario_create_duplicate_email toy_kdf (js "secret1")
              ana_with_field (world_of sample_store) Hav eq_refl Hdup)
    as (Hthrow & Hstore & _).
  split; [exact Hav |]. split; [reflexivity |]. split; [exact Hdup |].
  split; [exact Hthrow | exact Hstore].
Defined.

(** ** Updating and deleting a user *)

Lemma Usuario_update_eval (p : Usuario.patch) (u : Usuario.t) (w : World)
    (id : Z) :
  Usuario.id_user u = Some id ->
  Usuario.update p (u, w) =
    let u1 := Usuario.merge p u in
    let v := Usuario.validate u1 in
    if isValid v then
      match Database.query
              (UpdateUsuario (Usuario.nombre u1)
                 (Usuario.correo_electronico u1) (Usuario.rol u1) id) w with
      | (Return _, w') => (Return u1, (u1, w'))
      | (Throw e, w') =>
          (Throw (if has_code e "ER_DUP_ENTRY"
                  then Error "El correo electrónico ya está registrado"
                  else e), (u1, w'))
      end
    else (Throw (invalid_data v), (u1, w)).
Proof.
  intros Hid. cbv zeta.
  cbv [Usuario.update bind this assign on_world try_catch throw
         Usuario.on_duplicate fst snd].
  rewrite Hid.
  destruct (isValid (Usuario.validate (Usuario.merge p u))); cbv [negb];
    [| reflexivity].
  destruct (Database.query _ w) as [[r | e] w']; [reflexivity |].
  destruct (has_code e "ER_DUP_ENTRY"); reflexivity.
Qed.

Lemma update_usuario_kept (n c r : jsstring) (id : Z) (s : Store) :
  usuario_kept (snd (update_usuario n c r id s)) = usuario_kept s
  /\ categorias (snd (update_usuario n c r id s)) = categorias s
  /\ frases (snd (update_usuario n c r id s)) = frases s
  /\ forall row, In row (usuarios s) -> usuario.id_user row <> id ->
                 In row (usuarios (snd (update_usuario n c r id s))).
Proof.
  unfold update_usuario.
  destruct (negb (usuario_exists s id)); [repeat split; auto |].
  destruct (negb (includes rol_enum r)); [repeat split; auto |].
  destruct (existsb _ (usuarios s)); [repeat split; auto |].
  cbn [snd]. repeat split.
  - unfold usuario_kept. cbn [usuarios with_usuarios]. rewrite map_map.
    apply map_ext. intros row. destruct (usuario.id_user row =? id);
      reflexivity.
  - intros row Hrow Hne. cbn [usuarios with_usuarios].
    apply in_map_iff. exists row. split; [| exact Hrow].
    rewrite (proj2 (Z.eqb_neq _ _) Hne). reflexivity.
Qed.

(** X6: [update] of a user writes the name, the email and the role only.
    Whatever the payload, the credential hash and the creation time of
    every stored user, the rows of the other users, the categories and
    the quotes are as before; a [password_hash] of the payload changes
    the instance in memory only, and an [id_user] of the payload changes
    nothing. *)
Theorem Usuario_update_keeps_credentials (p : Usuario.patch) (u : Usuario.t)
    (w : World) (id : Z) :
  Usuario.id_user u = Some id ->
  let r := Usuario.update p (u, w) in
  let u' := fst (snd r) in
  let w' := snd (snd r) in
  usuario_kept (store w') = usuario_kept (store w)
  /\ categorias (store w') = categorias (store w)
  /\ frases (store w') = frases (store w)
  /\ (forall row, In row (usuarios (store w)) -> usuario.id_user row <> id ->
                  In row (usuarios (store w')))
  /\ Usuario.password_hash u'
     = merged (Usuario.p_password_hash p) (Usuario.password_hash u)
  /\ Usuario.id_user u' = Some id.
Proof.
  intros Hid. cbv zeta. rewrite (Usuario_update_eval p u w id Hid). cbv zeta.
  set (u1 := Usuario.merge p u).
  assert (Usuario.id_user u1 = Some id) as Hid1 by exact Hid.
  destruct (isValid (Usuario.validate u1)).
  - destruct (available_dec w) as [Hav | Hn].
    + rewrite (query_available _ _ Hav). unfold Database.run.
      rewrite store_connected. cbn [execute].
      pose proof (update_usuario_kept (Usuario.nombre u1)
                    (Usuario.correo_electronico u1) (Usuario.rol u1) id
                    (store w)) as (Hk & Hc & Hf & Ho).
      destruct (update_usuario _ _ _ id (store w)) as [[code | res] s'];
        cbn [fst snd store with_execution] in *;
        repeat split; assumption || reflexivity.
    + rewrite (query_unavailable _ _ Hn). cbn [fst snd has_code].
      repeat split; auto.
  - cbn [fst snd]. repeat split; auto.
Qed.

Lemma Usuario_update_keeps_credentials_witness :
  let u := Usuario.constructor (Usuario.of_row ana) in
  let p := {| Usuario.p_id_user := Some (Some 9);
              Usuario.p_nombre := Some (js "Ana Maria");
              Usuario.p_correo_electronico := None;
              Usuario.p_password_hash := Some (js "0c:0d0e0f");
              Usuario.p_fecha_creacion := None;
              Usuario.p_rol := Some (js "admin") |} in
  let r := Usuario.update p (u, world_of sample_store) in
  Usuario.id_user u = Some 1
  /\ map usuario.nombre (usuarios (store (snd (snd r)))) = [js "Ana Maria"]
  /\ usuario_kept (store (snd (snd r))) = usuario_kept sample_store
  /\ Usuario.password_hash (fst (snd r)) = js "0c:0d0e0f"
  /\ Usuario.id_user (fst (snd r)) = Some 1.
Proof.
  cbv zeta.
  destruct (Usuario_update_keeps_credentials
              {| Usuario.p_id_user := Some (Some 9);
                 Usuario.p_nombre := Some (js "Ana Maria");
                 Usuario.p_correo_electronico := None;
                 Usuario.p_password_hash := Some (js "0c:0d0e0f");
                 Usuario.p_fecha_creacion := None;
                 Usuario.p_rol := Some (js "admin") |}
              (Usuario.constructor (Usuario.of_row ana))
              (world_of sample_store) 1 eq_refl)
    as (Hk & _ & _ & _ & Hh & Hid).
  split; [reflexivity |]. split; [reflexivity |]. split; [exact Hk |].
  split; [exact Hh | exact Hid].
Defined.

Lemma filter_map_commute {A} (f : A -> bool) (g : A -> A) (l : list A) :
  (forall x, f (g x) = f x) -> filter f (map g l) = map g (filter f l).
Proof.
  intros H. induction l as [| x l IH]; simpl; [reflexivity |].
  rewrite H. destruct (f x); simpl; rewrite IH; reflexivity.
Qed.

Section ChangingPasswords.

Variable kdf : list byte -> list byte -> Z -> Z -> list byte.

Lemma Usuario_updatePassword_eval (newPassword : jsstring) (u : Usuario.t)
    (w : World) (id : Z) :
  Usuario.id_user u = Some id ->
  6 <= len newPassword ->
  available w ->
  let h := Usuario.salted_hash kdf (next_salt w) newPassword in
  Usuario.updatePassword kdf newPassword (u, w)
  = (Return (Usuario.set_password_hash h u),
     (Usuario.set_password_hash h u,
      with_execution (connected (with_draw w))
        (snd (update_usuario_password h id (store w)))
        (UpdateUsuarioPassword h id))).
Proof.
  intros Hid Hlen Hav. cbv zeta.
  cbv [Usuario.updatePassword bind this assign on_world try_catch throw
         Usuario.hashPassword randomBytes ret fst snd].
  rewrite Hid.
  rewrite (proj2 (guard_min_false newPassword 6 ltac:(lia)) Hlen).
  change (firstn 16 (entropy w (draws w) ++ repeat x00 16))
    with (next_salt w).
  rewrite (query_available _ _ (available_with_draw w Hav)).
  unfold Database.run. rewrite store_connected. cbn [execute store with_draw].
  unfold update_usuario_password.
  destruct (negb (usuario_exists (store w) id)); reflexivity.
Qed.

(** X7: [updatePassword] measures its argument: a password of fewer than
    6 characters is refused before anything is sent, for a user with an
    identifier. A longer one is hashed with a fresh salt and stored, and
    when the user's row is the one its email selects, [authenticate] with
    that email and the new password then resolves to the user with the
    new hash. *)
Theorem Usuario_updatePassword_then_authenticate (newPassword : jsstring)
    (u : Usuario.t) (w : World) (id : Z) :
  Usuario.id_user u = Some id ->
  (len newPassword < 6 ->
   Usuario.updatePassword kdf newPassword (u, w)
   = (Throw (Error "La contraseña debe tener al menos 6 caracteres"), (u, w)))
  /\ (6 <= len newPassword ->
      available w ->
      forall email row,
        usuarios_by_email email (store w) = [row] ->
        usuario.id_user row = id ->
        exists u1 w1 a w2,
          Usuario.updatePassword kdf newPassword (u, w) = (Return u1, (u1, w1))
          /\ Usuario.password_hash u1
             = Usuario.salted_hash kdf (next_salt w) newPassword
          /\ Usuario.authenticate kdf email newPassword w1
             = (Return (Some a), w2)
          /\ Usuario.password_hash a = Usuario.password_hash u1).
Proof.
  intros Hid. split.
  - intros Hshort.
    cbv [Usuario.updatePassword bind this throw fst snd]. rewrite Hid.
    assert ((negb (truthy_str newPassword) || (len newPassword <? 6)) = true)
      as ->.
    { apply orb_true_iff. right. apply Z.ltb_lt. exact Hshort. }
    reflexivity.
  - intros Hlen Hav email row Hrow Hrid.
    pose proof (Usuario_updatePassword_eval newPassword u w id Hid Hlen Hav)
      as He.
    cbv zeta in He.
    set (h := Usuario.salted_hash kdf (next_salt w) newPassword) in *.
    match type of He with
    | _ = (_, (_, ?x)) => set (w1 := x) in *
    end.
    assert (available w1) as Hav1.
    { left. cbn. apply (connection_connected (with_draw w)). exact Hav. }
    assert (usuarios_by_email email (store w1) = [with_hash h row]) as Hsel.
    { unfold usuarios_by_email in *. cbn [store w1 with_execution].
      unfold update_usuario_password.
      assert (usuario_exists (store w) id = true) as Hex.
      { apply usuario_exists_In. unfold usuario_ids. rewrite <- Hrid.
        apply in_map.
        assert (In row (filter
                          (fun u0 => sql_eq (usuario.correo_electronico u0) email)
                          (usuarios (store w)))) as Hin
          by (rewrite Hrow; left; reflexivity).
        apply filter_In in Hin. tauto. }
      rewrite Hex. cbn [negb snd usuarios with_usuarios].
      rewrite filter_map_commute.
      - rewrite Hrow. cbn [map].
        rewrite (proj2 (Z.eqb_eq _ _) Hrid). reflexivity.
      - intros x. destruct (usuario.id_user x =? id); reflexivity. }
    exists (Usuario.set_password_hash h u), w1.
    exists (Usuario.constructor (Usuario.of_row (with_hash h row))).
    eexists. split; [exact He |]. split; [reflexivity |].
    assert (Usuario.password_hash
              (Usuario.constructor (Usuario.of_row (with_hash h row))) = h)
      as Hh.
    { unfold Usuario.constructor, Usuario.of_row, with_hash.
      cbn [Usuario.password_hash Usuario.d_password_hash
             usuario.password_hash].
      apply or_string_some. }
    split; [| exact Hh].
    rewrite (Usuario_authenticate_eval kdf _ _ w1 Hav1), Hsel.
    unfold first_usuario. cbn [hd_error option_map]. rewrite Hh.
    unfold h. rewrite verify_salted_hash, str_eqb_refl. reflexivity.
Qed.

End ChangingPasswords.

Lemma Usuario_updatePassword_then_authenticate_witness :
  let u := Usuario.constructor (Usuario.of_row ana) in
  let w := world_of sample_store in
  Usuario.id_user u = Some 1
  /\ len (js "abc") < 6
  /\ Usuario.updatePassword toy_kdf (js "abc") (u, w)
     = (Throw (Error "La contraseña debe tener al menos 6 caracteres"), (u, w))
  /\ 6 <= len (js "secret2")
  /\ available w
  /\ usuarios_by_email (js "ANA@x.com") (store w) = [ana]
  /\ exists u1 w1 a w2,
       Usuario.updatePassword toy_kdf (js "secret2") (u, w)
       = (Return u1, (u1, w1))
       /\ Usuario.authenticate toy_kdf (js "ANA@x.com") (js "secret2") w1
          = (Return (Some a), w2).
Proof.
  cbv zeta.
  assert (len (js "abc") < 6) as Hshort by (vm_compute; reflexivity).
  assert (6 <= len (js "secret2")) as Hlong by (vm_compute; discriminate).
  assert (available (world_of sample_store)) as Hav by (right; reflexivity).
  destruct (Usuario_updatePassword_then_authenticate toy_kdf (js "abc")
              (Usuario.constructor (Usuario.of_row ana))
              (world_of sample_store) 1 eq_refl) as (Hrefused & _).
  destruct (Usuario_updatePassword_then_authenticate toy_kdf (js "secret2")
              (Usuario.constructor (Usuario.of_row ana))
              (world_of sample_store) 1 eq_refl) as (_ & Hstored).
  destruct (Hstored Hlong Hav (js "ANA@x.com") ana eq_refl eq_refl)
    as (u1 & w1 & a & w2 & Hu & _ & Ha & _).
  split; [reflexivity |]. split; [exact Hshort |].
  split; [exact (Hrefused Hshort) |]. split; [exact Hlong |].
  split; [exact Hav |]. split; [reflexivity |].
  exists u1, w1, a, w2. split; [exact Hu | exact Ha].
Defined.

Lemma Usuario_delete_eval (u : Usuario.t) (w : World) (id : Z) :
  Usuario.id_user u = Some id ->
  available w ->
  Usuario.delete (u, w)
  = (delete_outcome (fst (delete_usuario id (store w))),
     (u, with_execution (connected w) (snd (delete_usuario id (store w)))
           (DeleteUsuario id))).
Proof.
  intros Hid Hav.
  cbv [Usuario.delete bind this on_world try_catch throw ret fst snd].
  rewrite Hid. rewrite (query_available _ _ Hav). unfold Database.run.
  rewrite store_connected. cbn [execute].
  destruct (delete_usuario id (store w)) as [[code | res] s'];
    cbn [fst snd delete_outcome]; [reflexivity |].
  destruct res; reflexivity.
Qed.

Lemma filter_all {A} (f : A -> bool) (l : list A) :
  (forall x, In x l -> f x = true) -> filter f l = l.
Proof.
  induction l as [| x l IH]; intros H; simpl; [reflexivity |].
  rewrite (H x (or_introl eq_refl)). f_equal. apply IH.
  intros y Hy. apply H. right. exact Hy.
Qed.

Lemma filter_filter_none {A} (f : A -> bool) (l : list A) :
  filter f (filter (fun x => negb (f x)) l) = [].
Proof.
  apply filter_none. intros x Hx. apply filter_In in Hx.
  destruct Hx as [_ Hx]. apply negb_true_iff. exact Hx.
Qed.

(** X8: [delete] of a user without an identifier throws before anything
    is sent. With an identifier, when the server can be reached, for a
    user no quote was created by, it resolves to whether a row had that
    identifier; the rows of the other
    users, the categories and the quotes are as before, and [findById]
    with the identifier then resolves to [null]. *)
Theorem Usuario_delete_removes_row (u : Usuario.t) (w : World) :
  (Usuario.id_user u = None ->
   Usuario.delete (u, w)
   = (Throw (Error "No se puede eliminar un usuario sin ID"), (u, w)))
  /\ (forall id,
         Usuario.id_user u = Some id ->
         available w ->
         without_quotes id (store w) ->
         let r := Usuario.delete (u, w) in
         let w' := snd (snd r) in
         fst r = Return (usuario_exists (store w) id)
         /\ usuarios (store w')
            = filter (fun x => negb (usuario.id_user x =? id))
                (usuarios (store w))
         /\ categorias (store w') = categorias (store w)
         /\ frases (store w') = frases (store w)
         /\ fst (Usuario.findById id w') = Return None).
Proof.
  split.
  - intros Hid. cbv [Usuario.delete bind this throw fst snd].
    rewrite Hid. reflexivity.
  - intros id Hid Hav Hnone. cbv zeta.
    rewrite (Usuario_delete_eval u w id Hid Hav). cbn [fst snd].
    set (w' := with_execution _ _ _).
    assert (available w') as Hav'
      by (apply available_after_execution; exact Hav).
    rewrite (Usuario_findById_eval id w' Hav'). cbn [fst].
    unfold w'. cbn [store with_execution].
    assert (existsb (fun q => frase.creado_por q =? id) (frases (store w))
            = false) as Hno.
    { apply not_true_is_false. intros He. apply existsb_exists in He.
      destruct He as (q & Hq & E). apply Z.eqb_eq in E.
      exact (Hnone q Hq E). }
    assert (filter (fun q => negb (frase.creado_por q =? id))
              (frases (store w)) = frases (store w)) as Hall.
    { apply filter_all. intros q Hq. apply negb_true_iff, Z.eqb_neq.
      exact (Hnone q Hq). }
    unfold delete_usuario, usuarios_by_id.
    destruct (usuario_exists (store w) id) eqn:He; cbn [negb].
    + destruct (on_delete (store w)).
      * rewrite Hno. cbn [fst snd delete_outcome usuarios categorias frases
                            with_usuarios].
        rewrite (filter_filter_none (fun x => usuario.id_user x =? id)).
        repeat split.
      * cbn [fst snd delete_outcome usuarios categorias frases
               with_usuarios with_frases].
        rewrite Hall.
        rewrite (filter_filter_none (fun x => usuario.id_user x =? id)).
        repeat split.
    + cbn [fst snd delete_outcome].
      assert (filter (fun x => usuario.id_user x =? id) (usuarios (store w))
              = []) as Hf.
      { apply filter_none. apply existsb_false_forall. exact He. }
      rewrite Hf.
      assert (filter (fun x => negb (usuario.id_user x =? id))
                (usuarios (store w)) = usuarios (store w)) as Hk.
      { apply filter_all. intros x Hx. apply negb_true_iff.
        exact (existsb_false_forall _ _ He x Hx). }
      rewrite Hk. repeat split.
Qed.

Lemma Usuario_delete_removes_row_witness :
  let u := Usuario.constructor (Usuario.of_row ana) in
  let w := world_of (with_frases sample_store []) in
  Usuario.id_user u = Some 1
  /\ available w
  /\ without_quotes 1 (store w)
  /\ fst (Usuario.delete (u, w)) = Return true
  /\ usuarios (store (snd (snd (Usuario.delete (u, w))))) = []
  /\ fst (Usuario.findById 1 (snd (snd (Usuario.delete (u, w)))))
     = Return None.
Proof.
  cbv zeta.
  assert (available (world_of (with_frases sample_store []))) as Hav
    by (right; reflexivity).
  assert (without_quotes 1 (store (world_of (with_frases sample_store []))))
    as Hnone by (intros q []).
  destruct (proj2 (Usuario_delete_removes_row
                     (Usuario.constructor (Usuario.of_row ana))
                     (world_of (with_frases sample_store [])))
              1 eq_refl Hav Hnone) as (Hout & Hrows & _ & _ & Hfind).
  split; [reflexivity |]. split; [exact Hav |]. split; [exact Hnone |].
  split; [exact Hout |]. split; [exact Hrows | exact Hfind].
Defined.

(** ** Creating and deleting a category *)

Lemma Categoria_create_eval (c : Categoria.t) (w : World) :
  isValid (Categoria.validate c) = true ->
  available w ->
  let answer := insert_categoria (Categoria.nombre c)
                  (Categoria.descripcion c) (store w) in
  let w1 := with_execution (connected w) (snd answer)
              (InsertCategoria (Categoria.nombre c)
                 (Categoria.descripcion c)) in
  Categoria.create (c, w)
  = match fst answer with
    | inl code =>
        (Throw (if String.eqb code "ER_DUP_ENTRY"
                then Error "Ya existe una categoría con ese nombre"
                else DriverError code), (c, w1))
    | inr _ =>
        (Return (Categoria.set_id (last_insert_id (snd answer)) c),
         (Categoria.set_id (last_insert_id (snd answer)) c,
          with_execution w1 (snd answer) SelectLastInsertId))
    end.
Proof.
  intros Hv Hav. cbv zeta.
  cbv [Categoria.create bind this assign on_world try_catch ret throw
         Categoria.on_duplicate fst snd].
  rewrite Hv. cbv [negb].
  rewrite (query_available _ _ Hav). unfold Database.run.
  rewrite store_connected. cbn [execute].
  destruct (insert_categoria (Categoria.nombre c) (Categoria.descripcion c)
              (store w)) as [[code | res] s']; cbn [fst snd has_code].
  - destruct (String.eqb code "ER_DUP_ENTRY"); reflexivity.
  - rewrite getLastInsertId_connected.
    + reflexivity.
    + cbn [connection with_execution]. apply connection_connected. exact Hav.
Qed.

(** X9: [create] of a category that passes [validate()]. When no stored
    category has the name, the row is added with the name and the
    description of the instance under the key the store generated, the
    instance gets that key, and loading the new row gives the instance
    back. When a stored category has the name, [create] throws the error
    on the existing name, the store is as before and the instance has no
    key. *)
Theorem Categoria_create_outcomes (c : Categoria.t) (w : World) :
  available w ->
  isValid (Categoria.validate c) = true ->
  (Reachable (store w) ->
   name_free (Categoria.nombre c) (store w) ->
   let id := next_id_category (store w) in
   exists w1,
     Categoria.create (c, w)
     = (Return (Categoria.set_id id c), (Categoria.set_id id c, w1))
     /\ categorias (store w1) = categorias (store w) ++ [categoria_row_of id c]
     /\ usuarios (store w1) = usuarios (store w)
     /\ frases (store w1) = frases (store w)
     /\ Categoria_of_row (categoria_row_of id c) = Categoria.set_id id c)
  /\ ((exists r, In r (categorias (store w))
                 /\ sql_eq (categoria.nombre r) (Categoria.nombre c) = true) ->
      let r := Categoria.create (c, w) in
      fst r = Throw (Error "Ya existe una categoría con ese nombre")
      /\ store (snd (snd r)) = store w
      /\ fst (snd r) = c).
Proof.
  intros Hav Hv.
  pose proof (Categoria_create_eval c w Hv Hav) as He. cbv zeta in He.
  split.
  - intros Hreach Hfree. cbv zeta.
    pose proof (positive_next_category _ (Reachable_positive _ Hreach))
      as Hpos.
    assert (insert_categoria (Categoria.nombre c) (Categoria.descripcion c)
              (store w)
            = (inr (OkPacket 1 (next_id_category (store w))),
               {| usuarios := usuarios (store w);
                  categorias := categorias (store w) ++
                    [categoria_row_of (next_id_category (store w)) c];
                  frases := frases (store w);
                  next_id_user := next_id_user (store w);
                  next_id_category := next_id_category (store w) + 1;
                  next_id_quote := next_id_quote (store w);
                  last_insert_id := next_id_category (store w);
                  on_delete := on_delete (store w) |})) as Hins.
    { unfold insert_categoria.
      replace (existsb _ (categorias (store w))) with false; [reflexivity |].
      symmetry. apply not_true_is_false. intros Hex.
      apply existsb_exists in Hex. destruct Hex as (r & Hr & E).
      rewrite (Hfree r Hr) in E. discriminate E. }
    rewrite Hins in He. cbn [fst snd last_insert_id] in He.
    eexists. split; [exact He |].
    cbn [store with_execution categorias usuarios frases].
    repeat split.
    unfold Categoria_of_row, categoria_row_of, Categoria.constructor,
      Categoria.set_id.
    cbn [Categoria.d_id_category Categoria.d_nombre Categoria.d_descripcion
           categoria.id_category categoria.nombre categoria.descripcion].
    rewrite or_null_nonzero by lia. rewrite !or_string_some. reflexivity.
  - intros (r0 & Hr0 & E). cbv zeta.
    assert (insert_categoria (Categoria.nombre c) (Categoria.descripcion c)
              (store w) = (inl "ER_DUP_ENTRY"%string, store w)) as Hins.
    { unfold insert_categoria.
      replace (existsb _ (categorias (store w))) with true; [reflexivity |].
      symmetry. apply existsb_exists. exists r0. split; assumption. }
    rewrite Hins in He. cbn [fst snd] in He. rewrite He. repeat split.
Qed.

Lemma Categoria_create_outcomes_witness :
  let joy := Categoria.constructor
               {| Categoria.d_id_category := None;
                  Categoria.d_nombre := Some (js "Joy");
                  Categoria.d_descripcion := None |} in
  let again := Categoria.constructor
                 {| Categoria.d_id_category := None;
                    Categoria.d_nombre := Some (js "HOPE");
                    Categoria.d_descripcion := Some (js "Twice") |} in
  let w := world_of sample_store in
  available w
  /\ isValid (Categoria.validate joy) = true
  /\ Reachable (store w)
  /\ name_free (Categoria.nombre joy) (store w)
  /\ fst (Categoria.create (joy, w)) = Return (Categoria.set_id 2 joy)
  /\ isValid (Categoria.validate again) = true
  /\ fst (Categoria.create (again, w))
     = Throw (Error "Ya existe una categoría con ese nombre")
  /\ store (snd (snd (Categoria.create (again, w)))) = sample_store.
Proof.
  cbv zeta.
  set (joy := Categoria.constructor
                {| Categoria.d_id_category := None;
                   Categoria.d_nombre := Some (js "Joy");
                   Categoria.d_descripcion := None |}).
  set (again := Categoria.constructor
                  {| Categoria.d_id_category := None;
                     Categoria.d_nombre := Some (js "HOPE");
                     Categoria.d_descripcion := Some (js "Twice") |}).
  assert (available (world_of sample_store)) as Hav by (right; reflexivity).
  assert (name_free (Categoria.nombre joy) (store (world_of sample_store)))
    as Hfree by (intros r [<- | []]; reflexivity).
  destruct (proj1 (Categoria_create_outcomes joy (world_of sample_store)
                     Hav eq_refl) sample_store_Reachable Hfree)
    as (w1 & Hc & _).
  destruct (proj2 (Categoria_create_outcomes again (world_of sample_store)
                     Hav eq_refl)) as (Hthrow & Hstore & _).
  { exists hope. split; [left; reflexivity | reflexivity]. }
  split; [exact Hav |]. split; [reflexivity |].
  split; [exact sample_store_Reachable |]. split; [exact Hfree |].
  split; [rewrite Hc; reflexivity |]. split; [reflexivity |].
  split; [exact Hthrow | exact Hstore].
Defined.

Lemma Categoria_getFrasesCount_eval (c : Categoria.t) (w : World) (id : Z) :
  Categoria.id_category c = Some id ->
  available w ->
  Categoria.getFrasesCount (c, w)
  = (Return (count_frases_de_categoria id (store w)),
     (c, with_execution (connected w) (store w)
           (CountFrases [CondCategoria id]))).
Proof.
  intros Hid Hav.
  cbv [Categoria.getFrasesCount bind this on_world try_catch throw ret
         fst snd].
  rewrite Hid. rewrite (query_available _ _ Hav). unfold Database.run.
  rewrite store_connected. cbn [execute].
  unfold count_frases, count_frases_de_categoria, where_holds.
  do 4 f_equal. apply filter_ext. intros r. cbn [forallb cond_holds].
  apply andb_true_r.
Qed.

(** X10: the answer of [getFrasesCount()] decides [delete()] without
    force. For a category with an identifier, [getFrasesCount] resolves
    to the number of quotes of the category and leaves the store as it
    is; [delete()] called next throws the error on the associated quotes
    when that number is positive, and when it is zero resolves to whether
    a row had the identifier, with that row gone and the other
    categories, the users and the quotes as before. *)
Theorem Categoria_delete_after_getFrasesCount (c : Categoria.t) (w : World)
    (id : Z) :
  Categoria.id_category c = Some id ->
  available w ->
  exists n w1,
    Categoria.getFrasesCount (c, w) = (Return n, (c, w1))
    /\ store w1 = store w
    /\ n = count_frases_de_categoria id (store w)
    /\ (0 < n ->
        fst (Categoria.delete false (c, w1))
        = Throw (Error Categoria.msg_tiene_frases))
    /\ (n = 0 ->
        let r := Categoria.delete false (c, w1) in
        let w' := snd (snd r) in
        fst r = Return (categoria_exists (store w) id)
        /\ categorias (store w')
           = filter (fun x => negb (categoria.id_category x =? id))
               (categorias (store w))
        /\ usuarios (store w') = usuarios (store w)
        /\ frases (store w') = frases (store w)).
Proof.
  intros Hid Hav.
  rewrite (Categoria_getFrasesCount_eval c w id Hid Hav).
  set (w1 := with_execution (connected w) (store w) _).
  assert (available w1) as Hav1
    by (apply available_after_execution; exact Hav).
  assert (store w1 = store w) as Hs by reflexivity.
  exists (count_frases_de_categoria id (store w)), w1.
  split; [reflexivity |]. split; [exact Hs |]. split; [reflexivity |].
  split.
  - intros Hpos.
    rewrite (Categoria_delete_blocked c w1 id Hid Hav1);
      [reflexivity | rewrite Hs; exact Hpos].
  - intros Hzero. cbv zeta.
    assert (forall r, In r (frases (store w)) -> frase.categoria_id r <> id)
      as Hnone.
    { apply count_zero_no_reference. rewrite Hzero. reflexivity. }
    cbv [Categoria.delete bind this on_world try_catch throw ret fst snd
           negb].
    rewrite Hid. rewrite (query_available _ _ Hav1). unfold Database.run.
    rewrite store_connected, Hs. cbn [execute]. rewrite Hzero.
    cbn [Z.ltb Z.compare]. cbv beta iota.
    set (w2 := with_execution (connected w1) (store w) _).
    assert (available w2) as Hav2
      by (apply available_after_execution; exact Hav1).
    rewrite (query_available _ _ Hav2). unfold Database.run.
    rewrite store_connected. cbn [store w2 with_execution execute].
    unfold delete_categoria.
    destruct (categoria_exists (store w) id) eqn:Hex; cbn [negb].
    + destruct (on_delete (store w)).
      * rewrite Hzero. cbn [Z.ltb Z.compare fst snd store with_execution
                              categorias usuarios frases with_categorias].
        repeat split.
      * cbn [fst snd store with_execution categorias usuarios frases
               with_categorias with_frases].
        rewrite (filter_all _ (frases (store w))).
        -- repeat split.
        -- intros q Hq. apply negb_true_iff, Z.eqb_neq. exact (Hnone q Hq).
    + cbn [fst snd store with_execution].
      rewrite (filter_all _ (categorias (store w))).
      * repeat split.
      * intros x Hx. apply negb_true_iff.
        exact (existsb_false_forall _ _ Hex x Hx).
Qed.

Lemma Categoria_delete_after_getFrasesCount_witness :
  let w := world_of (with_frases sample_store []) in
  let c := Categoria_of_row hope in
  Categoria.id_category c = Some 1
  /\ available w
  /\ exists w1,
       Categoria.getFrasesCount (c, w) = (Return 0, (c, w1))
       /\ fst (Categoria.delete false (c, w1)) = Return true
       /\ categorias (store (snd (snd (Categoria.delete false (c, w1))))) = [].
Proof.
  cbv zeta.
  assert (available (world_of (with_frases sample_store []))) as Hav
    by (right; reflexivity).
  destruct (Categoria_delete_after_getFrasesCount (Categoria_of_row hope)
              (world_of (with_frases sample_store [])) 1 eq_refl Hav)
    as (n & w1 & Hc & _ & Hn & _ & Hzero).
  assert (n = 0) as En by (rewrite Hn; reflexivity).
  subst n. destruct (Hzero eq_refl) as (Hout & Hrows & _).
  split; [reflexivity |]. split; [exact Hav |].
  exists w1. split; [exact Hc |]. split; [exact Hout | exact Hrows].
Defined.

(** ** Listing quotes *)

Lemma In_insert_desc (x y : frase.joined) (l : list frase.joined) :
  In x (insert_desc y l) <-> x = y \/ In x l.
Proof.
  induction l as [| z l IH]; simpl; [intuition congruence |].
  destruct (_ <=? _); simpl; [intuition congruence |].
  rewrite IH. intuition congruence.
Qed.

Lemma In_order_by_fecha_desc (x : frase.joined) (l : list frase.joined) :
  In x (order_by_fecha_desc l) <-> In x l.
Proof.
  induction l as [| y l IH]; simpl; [tauto |].
  rewrite In_insert_desc, IH. intuition congruence.
Qed.

Lemma insert_desc_sorted (x : frase.joined) (l : list frase.joined) :
  StronglySorted not_older l -> StronglySorted not_older (insert_desc x l).
Proof.
  induction l as [| y l IH]; intros Hs; simpl.
  - constructor; constructor.
  - apply StronglySorted_inv in Hs. destruct Hs as [Hl Hy].
    destruct (Z.leb_spec (frase.fecha_creacion (frase.f y))
                (frase.fecha_creacion (frase.f x))) as [Hle | Hgt].
    + constructor; [constructor; assumption |].
      constructor; [exact Hle |].
      rewrite Forall_forall in *. intros z Hz. specialize (Hy z Hz).
      unfold not_older in *. lia.
    + constructor; [apply IH; exact Hl |].
      rewrite Forall_forall in *. intros z Hz.
      apply In_insert_desc in Hz. destruct Hz as [-> | Hz].
      * unfold not_older. lia.
      * apply Hy. exact Hz.
Qed.

Lemma order_by_fecha_desc_sorted (l : list frase.joined) :
  StronglySorted not_older (order_by_fecha_desc l).
Proof.
  induction l as [| x l IH]; simpl; [constructor |].
  apply insert_desc_sorted. exact IH.
Qed.

Lemma StronglySorted_skipn {A} (R : A -> A -> Prop) (n : nat) (l : list A) :
  StronglySorted R l -> StronglySorted R (skipn n l).
Proof.
  revert l; induction n as [| n IH]; intros l Hs; [exact Hs |].
  destruct l as [| x l]; [exact Hs |].
  apply StronglySorted_inv in Hs. simpl. apply IH. tauto.
Qed.

Lemma In_firstn {A} (n : nat) (l : list A) (x : A) :
  In x (firstn n l) -> In x l.
Proof.
  intros H. rewrite <- (firstn_skipn n l). apply in_or_app. left. exact H.
Qed.

Lemma In_skipn {A} (n : nat) (l : list A) (x : A) :
  In x (skipn n l) -> In x l.
Proof.
  intros H. rewrite <- (firstn_skipn n l). apply in_or_app. right. exact H.
Qed.

Lemma StronglySorted_firstn {A} (R : A -> A -> Prop) (n : nat) (l : list A) :
  StronglySorted R l -> StronglySorted R (firstn n l).
Proof.
  revert l; induction n as [| n IH]; intros l Hs; [constructor |].
  destruct l as [| x l]; [constructor |].
  apply StronglySorted_inv in Hs. destruct Hs as [Hl Hx].
  simpl. constructor; [apply IH; exact Hl |].
  rewrite Forall_forall in *. intros y Hy. apply Hx.
  apply (In_firstn n). exact Hy.
Qed.

Lemma StronglySorted_map {A B} (R : A -> A -> Prop) (Q : B -> B -> Prop)
    (f : A -> B) (l : list A) :
  (forall a b, R a b -> Q (f a) (f b)) ->
  StronglySorted R l -> StronglySorted Q (map f l).
Proof.
  intros H. induction 1 as [| x l Hl IH Hx]; simpl; constructor.
  - exact IH.
  - rewrite Forall_forall in *. intros y Hy. apply in_map_iff in Hy.
    destruct Hy as (z & <- & Hz). apply H. apply Hx. exact Hz.
Qed.

(** A row of the join is its quote with the two names looked up. *)
Lemma In_join_frase (s : Store) (r : frase.row) (j : frase.joined) :
  In j (join_frase s r) ->
  frase.f j = r
  /\ (exists u, In u (usuarios s) /\ usuario.id_user u = frase.creado_por r
                /\ frase.creado_por_nombre j = usuario.nombre u)
  /\ (exists c, In c (categorias s)
                /\ categoria.id_category c = frase.categoria_id r
                /\ frase.categoria_nombre j = categoria.nombre c).
Proof.
  unfold join_frase. intros H. apply in_flat_map in H.
  destruct H as (u & Hu & H).
  destruct (Z.eqb_spec (frase.creado_por r) (usuario.id_user u)) as [Eu | _];
    [| destruct H].
  apply in_flat_map in H. destruct H as (c & Hc & H).
  destruct (Z.eqb_spec (frase.categoria_id r) (categoria.id_category c))
    as [Ec | _]; [| destruct H].
  destruct H as [<- | []]. cbn. split; [reflexivity |]. split.
  - exists u. auto.
  - exists c. auto.
Qed.

(** The rows selected are rows of the table that satisfy the conditions. *)
Lemma In_selected (conds : list Cond) (s : Store) (j : frase.joined) :
  In j (selected conds s) ->
  In (frase.f j) (frases s) /\ where_holds conds (frase.f j) = true.
Proof.
  unfold selected. intros H.
  apply (proj1 (In_order_by_fecha_desc _ _)) in H.
  apply in_flat_map in H. destruct H as (r & Hr & Hj).
  apply In_join_frase in Hj. destruct Hj as (-> & _).
  apply filter_In in Hr. exact Hr.
Qed.

Lemma Frase_findAll_selected (fs : Frase.filters) (limit offset : Z)
    (w : World) :
  available w -> 0 <= limit -> 0 <= offset ->
  Frase.findAll fs limit offset w
  = (Return
       (map (fun row => Frase.constructor (Frase.of_row row))
          (firstn (Z.to_nat limit)
             (skipn (Z.to_nat offset)
                (selected (Frase.findAll_where fs) (store w))))),
     with_execution (connected w) (store w)
       (SelectFrases (Frase.findAll_where fs) limit offset)).
Proof. apply Frase_findAll_eval. Qed.

Lemma sql_eq_nonempty (a v : jsstring) :
  sql_eq a v = true -> v <> [] -> a <> [].
Proof.
  unfold sql_eq. intros H Hv ->. destruct v; [congruence | discriminate H].
Qed.

Lemma given_str_nonempty (o : option jsstring) (v : jsstring) :
  Frase.given_str o = Some v -> o = Some v /\ v <> [].
Proof.
  unfold Frase.given_str. destruct o as [s |]; [| discriminate].
  destruct s; [discriminate |]. intros H. injection H as <-.
  split; [reflexivity | discriminate].
Qed.

Lemma given_num_nonzero (o : option Z) (v : Z) :
  Frase.given_num o = Some v -> o = Some v /\ v <> 0.
Proof.
  unfold Frase.given_num, truthy_num. destruct o as [z |]; [| discriminate].
  destruct (Z.eqb_spec z 0); simpl; [discriminate |].
  intros H. injection H as <-. split; [reflexivity | assumption].
Qed.

(** Each filter that is given puts its condition in the clause. *)
Lemma findAll_where_In (fs : Frase.filters) :
  (forall v, Frase.given_str (Frase.f_status fs) = Some v ->
             In (CondStatus v) (Frase.findAll_where fs))
  /\ (forall v, Frase.given_num (Frase.f_categoria_id fs) = Some v ->
                In (CondCategoria v) (Frase.findAll_where fs))
  /\ (forall v, Frase.given_num (Frase.f_creado_por fs) = Some v ->
                In (CondCreadoPor v) (Frase.findAll_where fs))
  /\ (forall v, Frase.given_str (Frase.f_search fs) = Some v ->
                In (CondSearch ([37] ++ v ++ [37]) ([37] ++ v ++ [37]))
                  (Frase.findAll_where fs)).
Proof.
  unfold Frase.findAll_where. cbv zeta.
  destruct (Frase.given_str (Frase.f_status fs)),
    (Frase.given_num (Frase.f_categoria_id fs)),
    (Frase.given_num (Frase.f_creado_por fs)),
    (Frase.given_str (Frase.f_search fs));
    repeat split; intros v Hv; try discriminate Hv;
    injection Hv as <-; cbn [app In]; tauto.
Qed.

(** The conditions built from a filter object hold of a row exactly as
    the filter object asks of the quote loaded from it. *)
Lemma where_holds_satisfies (fs : Frase.filters) (j : frase.joined) :
  where_holds (Frase.findAll_where fs) (frase.f j) = true ->
  satisfies fs (Frase.constructor (Frase.of_row j)).
Proof.
  unfold satisfies, where_holds.
  intros H. rewrite forallb_forall in H.
  destruct (findAll_where_In fs) as (Hst & Hca & Hcr & Hse).
  unfold Frase.constructor, Frase.of_row. cbv zeta.
  cbn [Frase.status Frase.categoria_id Frase.creado_por Frase.texto
         Frase.autor Frase.d_status Frase.d_categoria_id Frase.d_creado_por
         Frase.d_texto Frase.d_autor].
  repeat split.
  - intros v Hv. pose proof (H _ (Hst v Hv)) as Hc.
    cbn [cond_holds] in Hc.
    rewrite or_string_nonempty; [exact Hc |].
    apply (sql_eq_nonempty _ v Hc). apply (given_str_nonempty _ _ Hv).
  - intros v Hv. pose proof (H _ (Hca v Hv)) as Hc.
    cbn [cond_holds] in Hc. apply Z.eqb_eq in Hc. rewrite Hc.
    apply or_null_nonzero. apply (given_num_nonzero _ _ Hv).
  - intros v Hv. pose proof (H _ (Hcr v Hv)) as Hc.
    cbn [cond_holds] in Hc. apply Z.eqb_eq in Hc. rewrite Hc.
    apply or_null_nonzero. apply (given_num_nonzero _ _ Hv).
  - intros v Hv. pose proof (H _ (Hse v Hv)) as Hc.
    cbn [cond_holds] in Hc. apply orb_true_iff in Hc.
    rewrite or_string_some.
    destruct Hc as [Hc | Hc]; [left; exact Hc | right].
    destruct (frase.autor (frase.f j)) as [a |]; [| discriminate Hc].
    rewrite or_string_some. exact Hc.
Qed.

Lemma not_older_created (a b : frase.joined) :
  not_older a b ->
  created_not_before (Frase.constructor (Frase.of_row a))
    (Frase.constructor (Frase.of_row b)).
Proof. intros H. exact H. Qed.

(** ** What a search term selects *)

Lemma sql_like_percent (p s : jsstring) :
  sql_like (37 :: p) s
  = sql_like p s
    || match s with [] => false | _ :: s' => sql_like (37 :: p) s' end.
Proof. destruct s; reflexivity. Qed.

Lemma sql_like_literal_head (c : Z) (p s : jsstring) :
  literal c ->
  sql_like (c :: p) s
  = match s with
    | x :: s' => (fold_case x =? fold_case c) && sql_like p s'
    | [] => false
    end.
Proof.
  intros (H1 & H2 & H3). cbn [sql_like].
  rewrite (proj2 (Z.eqb_neq _ _) H1), (proj2 (Z.eqb_neq _ _) H2),
    (proj2 (Z.eqb_neq _ _) H3).
  reflexivity.
Qed.

Lemma sql_like_prefix (v s : jsstring) :
  Forall literal v ->
  sql_like (v ++ [37]) s = true ->
  exists post, map fold_case s = map fold_case v ++ post.
Proof.
  intros Hv. revert s. induction Hv as [| c v Hc Hv IH]; intros s H.
  - exists (map fold_case s). reflexivity.
  - cbn [app] in H. rewrite (sql_like_literal_head c _ s Hc) in H.
    destruct s as [| x s]; [discriminate H |].
    apply andb_true_iff in H. destruct H as [Hx Hs].
    apply Z.eqb_eq in Hx. destruct (IH s Hs) as (post & E).
    exists post. cbn [map app]. rewrite Hx, E. reflexivity.
Qed.

(** A pattern [%term%] whose term has no wildcard matches only the
    strings the term occurs in. *)
Lemma sql_like_contains (v s : jsstring) :
  Forall literal v ->
  sql_like ([37] ++ v ++ [37]) s = true ->
  occurs_in v s.
Proof.
  intros Hv. cbn [app].
  assert (forall t, sql_like (v ++ [37]) t = true ->
                    exists mid post, t = mid ++ post /\ sql_eq mid v = true)
    as Hprefix.
  { intros t H. destruct (sql_like_prefix v t Hv H) as (post & E).
    apply map_eq_app in E. destruct E as (mid & post' & -> & Emid & _).
    exists mid, post'. split; [reflexivity |].
    unfold sql_eq. rewrite Emid. apply str_eqb_refl. }
  induction s as [| x s IH]; intros H.
  - rewrite sql_like_percent in H. rewrite orb_false_r in H.
    destruct (Hprefix [] H) as (mid & post & E & Hm).
    exists [], mid, post. split; assumption.
  - rewrite sql_like_percent in H. apply orb_true_iff in H.
    destruct H as [H | H].
    + destruct (Hprefix (x :: s) H) as (mid & post & E & Hm).
      exists [], mid, post. split; assumption.
    + destruct (IH H) as (pre & mid & post & E & Hm).
      exists (x :: pre), mid, post. split; [| exact Hm].
      rewrite E. reflexivity.
Qed.

(** The search term is bound as it is given, so a [_] in it stands for
    any character: the term [_] selects both quotes of the sample, and
    neither has an underscore in its text or its author. *)
Lemma search_term_is_a_pattern :
  let w := world_of sample_store in
  map Frase.id_quote (match fst (Frase.findAll (searching [95]) 10 0 w) with
                      | Return rows => rows
                      | Throw _ => []
                      end) = [Some 2; Some 1]
  /\ forall r, In r (frases (store w)) ->
               ~ In 95 (frase.texto r)
               /\ forall a, frase.autor r = Some a -> ~ In 95 a.
Proof.
  cbv zeta. split; [vm_compute; reflexivity |].
  intros r [<- | [<- | []]]; split.
  - vm_compute. intuition discriminate.
  - intros a E. injection E as <-. intros [].
  - vm_compute. intuition discriminate.
  - intros a E. injection E as <-. vm_compute. intuition discriminate.
Qed.

(** X11: every quote [findAll] resolves to satisfies each filter that is
    given: its status is the one asked for, as the store compares
    strings, its category and its creator are the ones asked for, and
    the pattern made of the search term between two [%] matches its text
    or its author. A search term without [%], [_] and backslash occurs in
    the text or in the author: a part of one of them equals the term as
    the store compares strings. There are at most [limit] quotes, and the
    call leaves the store as it is. *)
Theorem Frase_findAll_sound (fs : Frase.filters) (limit offset : Z)
    (w : World) :
  available w -> 0 <= limit -> 0 <= offset ->
  exists rows w',
    Frase.findAll fs limit offset w = (Return rows, w')
    /\ store w' = store w
    /\ Z.of_nat (length rows) <= limit
    /\ forall q, In q rows ->
         satisfies fs q
         /\ forall v, Frase.given_str (Frase.f_search fs) = Some v ->
                      Forall literal v ->
                      occurs_in v (Frase.texto q)
                      \/ occurs_in v (Frase.autor q).
Proof.
  intros Hav Hl Ho.
  rewrite (Frase_findAll_selected fs limit offset w Hav Hl Ho).
  eexists. eexists. split; [reflexivity |]. split; [reflexivity |]. split.
  - rewrite length_map, length_firstn. lia.
  - intros q Hq. apply in_map_iff in Hq. destruct Hq as (j & <- & Hj).
    apply In_firstn, In_skipn, In_selected in Hj.
    assert (satisfies fs (Frase.constructor (Frase.of_row j))) as Hsat
      by (apply where_holds_satisfies; tauto).
    split; [exact Hsat |].
    intros v Hv Hlit.
    destruct Hsat as (_ & _ & _ & Hsearch).
    destruct (Hsearch v Hv) as [H | H];
      [left | right]; apply (sql_like_contains v _ Hlit H).
Qed.

Lemma Frase_findAll_sound_witness :
  let w := world_of sample_store in
  available w /\ 0 <= 10 /\ 0 <= 0
  /\ Frase.given_str (Frase.f_search published_with_thanks)
     = Some (js "THANKS")
  /\ Forall literal (js "THANKS")
  /\ exists rows w',
       Frase.findAll published_with_thanks 10 0 w = (Return rows, w')
       /\ map Frase.id_quote rows = [Some 2]
       /\ forall q, In q rows ->
            satisfies published_with_thanks q
            /\ (occurs_in (js "THANKS") (Frase.texto q)
                \/ occurs_in (js "THANKS") (Frase.autor q)).
Proof.
  cbv zeta.
  assert (available (world_of sample_store)) as Hav by (right; reflexivity).
  assert (0 <= 10) as Hl by lia.
  assert (Forall literal (js "THANKS")) as Hlit.
  { repeat constructor; discriminate. }
  destruct (Frase_findAll_sound published_with_thanks 10 0
              (world_of sample_store) Hav Hl (Z.le_refl 0))
    as (rows & w' & Hf & _ & _ & Hsat).
  split; [exact Hav |]. split; [exact Hl |]. split; [lia |].
  split; [reflexivity |]. split; [exact Hlit |].
  exists rows, w'. split; [exact Hf |]. split.
  - rewrite (Frase_findAll_selected _ _ _ _ Hav Hl (Z.le_refl 0)) in Hf.
    injection Hf as <- _. reflexivity.
  - intros q Hq. destruct (Hsat q Hq) as (Hs & Ho).
    split; [exact Hs |]. exact (Ho (js "THANKS") eq_refl Hlit).
Defined.

(** X12: the quotes [findAll] resolves to come newest first: each was
    created no earlier than every quote after it in the list. *)
Theorem Frase_findAll_newest_first (fs : Frase.filters) (limit offset : Z)
    (w : World) :
  available w -> 0 <= limit -> 0 <= offset ->
  exists rows w',
    Frase.findAll fs limit offset w = (Return rows, w')
    /\ StronglySorted created_not_before rows.
Proof.
  intros Hav Hl Ho.
  rewrite (Frase_findAll_selected fs limit offset w Hav Hl Ho).
  eexists. eexists. split; [reflexivity |].
  apply (StronglySorted_map not_older); [exact not_older_created |].
  apply StronglySorted_firstn, StronglySorted_skipn.
  apply order_by_fecha_desc_sorted.
Qed.

Lemma Frase_findAll_newest_first_witness :
  let w := world_of sample_store in
  available w /\ 0 <= 10 /\ 0 <= 0
  /\ exists rows w',
       Frase.findAll no_filters 10 0 w = (Return rows, w')
       /\ map Frase.fecha_creacion rows = [Some 7; Some 5]
       /\ StronglySorted created_not_before rows.
Proof.
  cbv zeta.
  assert (available (world_of sample_store)) as Hav by (right; reflexivity).
  assert (0 <= 10) as Hl by lia.
  destruct (Frase_findAll_newest_first no_filters 10 0
              (world_of sample_store) Hav Hl (Z.le_refl 0))
    as (rows & w' & Hf & Hs).
  split; [exact Hav |]. split; [exact Hl |]. split; [lia |].
  exists rows, w'. split; [exact Hf |]. split; [| exact Hs].
  rewrite (Frase_findAll_selected _ _ _ _ Hav Hl (Z.le_refl 0)) in Hf.
  injection Hf as <- _. reflexivity.
Defined.

Lemma firstn_plus {A} (a b : nat) (l : list A) :
  firstn (a + b) l = firstn a l ++ firstn b (skipn a l).
Proof.
  revert l; induction a as [| a IH]; intros l; [reflexivity |].
  destruct l as [| x l]; simpl.
  - destruct b; reflexivity.
  - rewrite IH. reflexivity.
Qed.

Lemma Permutation_insert_desc (x : frase.joined) (l : list frase.joined) :
  Permutation (insert_desc x l) (x :: l).
Proof.
  induction l as [| y l IH]; simpl; [apply Permutation_refl |].
  destruct (_ <=? _); [apply Permutation_refl |].
  apply Permutation_trans with (y :: x :: l).
  - apply perm_skip. exact IH.
  - apply perm_swap.
Qed.

Lemma Permutation_order_by_fecha_desc (l : list frase.joined) :
  Permutation (order_by_fecha_desc l) l.
Proof.
  induction l as [| x l IH]; simpl; [apply Permutation_refl |].
  apply Permutation_trans with (x :: order_by_fecha_desc l).
  - apply Permutation_insert_desc.
  - apply perm_skip. exact IH.
Qed.

Lemma newest_first_unique (l1 l2 : list frase.joined) :
  Permutation l1 l2 ->
  NoDup (map created_at l1) ->
  StronglySorted not_older l1 -> StronglySorted not_older l2 ->
  l1 = l2.
Proof.
  revert l2. induction l1 as [| x l1 IH]; intros l2 Hp Hnd Hs1 Hs2.
  - apply Permutation_nil in Hp. symmetry. exact Hp.
  - destruct l2 as [| y l2].
    { apply Permutation_sym, Permutation_nil in Hp. discriminate Hp. }
    apply StronglySorted_inv in Hs1. destruct Hs1 as [Hs1 Hx].
    apply StronglySorted_inv in Hs2. destruct Hs2 as [Hs2 Hy].
    cbn [map] in Hnd. apply NoDup_cons_iff in Hnd. destruct Hnd as [Hnx Hnd].
    assert (x = y) as E.
    { pose proof (Permutation_in x Hp (or_introl eq_refl)) as Hx2.
      pose proof (Permutation_in y (Permutation_sym Hp) (or_introl eq_refl))
        as Hy1.
      destruct Hx2 as [E | Hx2]; [symmetry; exact E |].
      destruct Hy1 as [E | Hy1]; [exact E |].
      exfalso. apply Hnx.
      rewrite Forall_forall in Hx, Hy.
      pose proof (Hx y Hy1) as H1. pose proof (Hy x Hx2) as H2.
      unfold not_older in H1, H2.
      assert (created_at x = created_at y) as -> by (unfold created_at; lia).
      apply in_map. exact Hy1. }
    subst y. f_equal. apply Permutation_cons_inv in Hp.
    apply IH; assumption.
Qed.

Lemma joined_rows_of (s : Store) (l : list frase.row) :
  store_wf s -> incl l (frases s) ->
  map frase.f (flat_map (join_frase s) l) = l.
Proof.
  intros Hwf. induction l as [| r l IH]; intros Hincl; [reflexivity |].
  cbn [flat_map]. rewrite map_app, IH.
  - pose proof (join_frase_single s r Hwf (Hincl r (or_introl eq_refl)))
      as Hlen.
    destruct (join_frase s r) as [| j [| j' t]] eqn:E;
      try discriminate Hlen.
    assert (In j (join_frase s r)) as Hj by (rewrite E; left; reflexivity).
    apply In_join_frase in Hj. destruct Hj as (Hf & _).
    cbn [map app]. rewrite Hf. reflexivity.
  - intros x Hx. apply Hincl. right. exact Hx.
Qed.

Lemma NoDup_map_filter {A B} (g : A -> B) (f : A -> bool) (l : list A) :
  NoDup (map g l) -> NoDup (map g (filter f l)).
Proof.
  induction l as [| x l IH]; intros H; [constructor |].
  cbn [map] in H. apply NoDup_cons_iff in H. destruct H as [Hx H].
  cbn [filter]. destruct (f x); [| apply IH; exact H].
  cbn [map]. constructor; [| apply IH; exact H].
  intros Hin. apply Hx. apply in_map_iff in Hin.
  destruct Hin as (y & E & Hy). apply filter_In in Hy.
  apply in_map_iff. exists y. tauto.
Qed.

Lemma server_order_unique (conds : list Cond) (s : Store)
    (l : list frase.joined) :
  store_wf s -> distinct_times s ->
  server_order conds s l -> l = selected conds s.
Proof.
  intros Hwf Hd (Hp & Hs).
  assert (NoDup (map created_at
                   (flat_map (join_frase s)
                      (filter (where_holds conds) (frases s))))) as Hnd.
  { unfold created_at. rewrite <- (map_map frase.f frase.fecha_creacion).
    rewrite joined_rows_of; [| exact Hwf |].
    - apply NoDup_map_filter. exact Hd.
    - intros x Hx. apply filter_In in Hx. tauto. }
  apply newest_first_unique.
  - apply Permutation_trans with
      (flat_map (join_frase s) (filter (where_holds conds) (frases s)));
      [exact Hp |].
    apply Permutation_sym. apply Permutation_order_by_fecha_desc.
  - apply (Permutation_NoDup (Permutation_map created_at (Permutation_sym Hp))).
    exact Hnd.
  - exact Hs.
  - apply order_by_fecha_desc_sorted.
Qed.

(** X13: pages of [findAll] fit together when no two stored quotes were
    created at the same instant. The statement orders by the creation
    time only, and the order of quotes created together is the server's
    choice, query by query. On a store reachable under the schema whose
    creation times are distinct there is no such choice: whatever
    newest-first order the server takes for each of three queries, the
    first [a] rows followed by the [b] rows at offset [a] are the first
    [a + b] rows; [findAll] resolves to the quotes loaded from these rows;
    so the first [a] quotes of [findAll] followed by the [b] quotes at
    offset [a] are its first [a + b] quotes. *)
Theorem Frase_findAll_pages (fs : Frase.filters) (a b : Z) (w : World) :
  Reachable (store w) ->
  available w -> 0 <= a -> 0 <= b ->
  distinct_times (store w) ->
  (forall l1 l2 l3,
      server_order (Frase.findAll_where fs) (store w) l1 ->
      server_order (Frase.findAll_where fs) (store w) l2 ->
      server_order (Frase.findAll_where fs) (store w) l3 ->
      firstn (Z.to_nat (a + b)) l3
      = firstn (Z.to_nat a) l1 ++ firstn (Z.to_nat b) (skipn (Z.to_nat a) l2))
  /\ (forall limit offset l,
         0 <= limit -> 0 <= offset ->
         server_order (Frase.findAll_where fs) (store w) l ->
         fst (Frase.findAll fs limit offset w)
         = Return (map (fun row => Frase.constructor (Frase.of_row row))
                     (firstn (Z.to_nat limit) (skipn (Z.to_nat offset) l))))
  /\ exists page1 w1 page2 w2 both w3,
       Frase.findAll fs a 0 w = (Return page1, w1)
       /\ Frase.findAll fs b a w1 = (Return page2, w2)
       /\ Frase.findAll fs (a + b) 0 w2 = (Return both, w3)
       /\ both = page1 ++ page2.
Proof.
  intros Hreach Hav Ha Hb Hd.
  pose proof (Reachable_wf _ Hreach) as Hwf.
  split; [| split].
  - intros l1 l2 l3 H1 H2 H3.
    rewrite (server_order_unique _ _ l1 Hwf Hd H1),
      (server_order_unique _ _ l2 Hwf Hd H2),
      (server_order_unique _ _ l3 Hwf Hd H3).
    rewrite Z2Nat.inj_add by lia. apply firstn_plus.
  - intros limit offset l Hl Ho H.
    rewrite (server_order_unique _ _ l Hwf Hd H).
    rewrite (Frase_findAll_selected fs limit offset w Hav Hl Ho).
    reflexivity.
  - pose proof (Frase_findAll_selected fs a 0 w Hav Ha (Z.le_refl 0)) as H1.
    match type of H1 with _ = (_, ?x) => set (w1 := x) in * end.
    assert (available w1) as Hav1
      by (apply available_after_execution; exact Hav).
    pose proof (Frase_findAll_selected fs b a w1 Hav1 Hb Ha) as H2.
    match type of H2 with _ = (_, ?x) => set (w2 := x) in * end.
    assert (available w2) as Hav2
      by (apply available_after_execution; exact Hav1).
    pose proof (Frase_findAll_selected fs (a + b) 0 w2 Hav2
                  ltac:(lia) (Z.le_refl 0)) as H3.
    assert (store w1 = store w) as E1 by reflexivity.
    assert (store w2 = store w) as E2 by reflexivity.
    rewrite E1 in H2. rewrite E2 in H3.
    eexists. exists w1. eexists. exists w2. eexists. eexists.
    split; [exact H1 |]. split; [exact H2 |]. split; [exact H3 |].
    rewrite <- map_app. f_equal. cbn [Z.to_nat skipn].
    rewrite Z2Nat.inj_add by lia. apply firstn_plus.
Qed.

Lemma Frase_findAll_pages_witness :
  let w := world_of sample_store in
  Reachable (store w) /\ available w /\ 0 <= 1
  /\ distinct_times (store w)
  /\ exists page1 w1 page2 w2 both w3,
       Frase.findAll no_filters 1 0 w = (Return page1, w1)
       /\ Frase.findAll no_filters 1 1 w1 = (Return page2, w2)
       /\ Frase.findAll no_filters (1 + 1) 0 w2 = (Return both, w3)
       /\ both = page1 ++ page2
       /\ map Frase.id_quote page1 = [Some 2]
       /\ map Frase.id_quote page2 = [Some 1].
Proof.
  cbv zeta.
  assert (available (world_of sample_store)) as Hav by (right; reflexivity).
  assert (0 <= 1) as H1 by lia.
  assert (distinct_times (store (world_of sample_store))) as Hd.
  { unfold distinct_times. cbn.
    constructor; [intros [E | []]; discriminate E |].
    constructor; [intros [] | constructor]. }
  destruct (Frase_findAll_pages no_filters 1 1 (world_of sample_store)
              sample_store_Reachable Hav H1 H1 Hd)
    as (_ & _ & page1 & w1 & page2 & w2 & both & w3 & Hp1 & Hp2 & Hb & E).
  split; [exact sample_store_Reachable |].
  split; [exact Hav |]. split; [exact H1 |]. split; [exact Hd |].
  exists page1, w1, page2, w2, both, w3.
  split; [exact Hp1 |]. split; [exact Hp2 |]. split; [exact Hb |].
  split; [exact E |].
  rewrite (Frase_findAll_selected _ _ _ _ Hav H1 (Z.le_refl 0)) in Hp1.
  injection Hp1 as <- <-.
  rewrite (Frase_findAll_selected _ 1 1 _
             (available_after_execution _ _ _ Hav) H1 H1) in Hp2.
  injection Hp2 as <- _. split; reflexivity.
Defined.

(** X14: [getFrases] and [getFrasesCount] of a category without an
    identifier throw before anything is sent. With an identifier, on a
    store reachable under the schema, [getFrases(limit, 0)] resolves to
    rows of quotes of that category only, as many as [getFrasesCount]
    resolved to when [limit] is at least that number. *)
Theorem Categoria_getFrases_matches_count (c : Categoria.t) (w : World)
    (limit : Z) :
  (Categoria.id_category c = None ->
   Categoria.getFrasesCount (c, w)
   = (Throw (Error
               "No se puede obtener el conteo de frases sin ID de categoría"),
      (c, w))
   /\ Categoria.getFrases limit 0 (c, w)
      = (Throw (Error "No se puede obtener las frases sin ID de categoría"),
         (c, w)))
  /\ (forall id,
         Categoria.id_category c = Some id ->
         Reachable (store w) -> available w -> 0 <= limit ->
         exists n w1 rows w2,
           Categoria.getFrasesCount (c, w) = (Return n, (c, w1))
           /\ Categoria.getFrases limit 0 (c, w1) = (Return rows, (c, w2))
           /\ Z.of_nat (length rows) = Z.min limit n
           /\ forall row, In row rows ->
                          In (frase.f row) (frases (store w))
                          /\ frase.categoria_id (frase.f row) = id).
Proof.
  split.
  - intros Hid. split.
    + cbv [Categoria.getFrasesCount bind this throw fst snd].
      rewrite Hid. reflexivity.
    + cbv [Categoria.getFrases bind this throw fst snd].
      rewrite Hid. reflexivity.
  - intros id Hid Hreach Hav Hl.
    pose proof (Reachable_wf _ Hreach) as Hwf.
    rewrite (Categoria_getFrasesCount_eval c w id Hid Hav).
    set (w1 := with_execution (connected w) (store w) _).
    assert (available w1) as Hav1
      by (apply available_after_execution; exact Hav).
    exists (count_frases_de_categoria id (store w)), w1.
    exists (firstn (Z.to_nat limit) (selected [CondCategoria id] (store w))).
    eexists. split; [reflexivity |]. split; [| split].
    + cbv [Categoria.getFrases bind this on_world try_catch throw ret
             fst snd].
      rewrite Hid. rewrite (query_available _ _ Hav1). unfold Database.run.
      rewrite store_connected. cbn [execute]. unfold select_frases.
      rewrite (proj2 (Z.ltb_ge _ _) Hl). cbn [Z.ltb Z.compare orb].
      reflexivity.
    + rewrite length_firstn. unfold selected.
      pose proof (joined_rows_count [CondCategoria id] (store w) Hwf) as Hn.
      assert (count_frases [CondCategoria id] (store w)
              = count_frases_de_categoria id (store w)) as E.
      { unfold count_frases, count_frases_de_categoria, where_holds.
        do 2 f_equal. apply filter_ext. intros r.
        cbn [forallb cond_holds]. apply andb_true_r. }
      rewrite E in Hn. lia.
    + intros row Hrow. apply In_firstn, In_selected in Hrow.
      destruct Hrow as [Hin Hw]. split; [exact Hin |].
      unfold where_holds in Hw. cbn [forallb cond_holds] in Hw.
      apply andb_true_iff in Hw. apply Z.eqb_eq. tauto.
Qed.

Lemma Categoria_getFrases_matches_count_witness :
  let c := Categoria_of_row hope in
  let w := world_of sample_store in
  Categoria.id_category c = Some 1
  /\ Reachable (store w) /\ available w /\ 0 <= 50
  /\ exists w1 rows w2,
       Categoria.getFrasesCount (c, w) = (Return 2, (c, w1))
       /\ Categoria.getFrases 50 0 (c, w1) = (Return rows, (c, w2))
       /\ Z.of_nat (length rows) = 2.
Proof.
  cbv zeta.
  assert (available (world_of sample_store)) as Hav by (right; reflexivity).
  assert (0 <= 50) as Hl by lia.
  destruct (proj2 (Categoria_getFrases_matches_count (Categoria_of_row hope)
                     (world_of sample_store) 50)
              1 eq_refl sample_store_Reachable Hav Hl)
    as (n & w1 & rows & w2 & Hc & Hr & Hn & _).
  assert (n = 2) as En.
  { rewrite (Categoria_getFrasesCount_eval (Categoria_of_row hope)
               (world_of sample_store) 1 eq_refl Hav) in Hc.
    injection Hc as <- _. reflexivity. }
  subst n.
  split; [reflexivity |]. split; [exact sample_store_Reachable |].
  split; [exact Hav |]. split; [exact Hl |].
  exists w1, rows, w2. split; [exact Hc |]. split; [exact Hr |].
  rewrite Hn. reflexivity.
Defined.

(** A quote of a well-formed store has a row in the join. *)
Lemma join_frase_some (s : Store) (r : frase.row) :
  store_wf s -> In r (frases s) ->
  exists j, In j (join_frase s r) /\ frase.f j = r.
Proof.
  intros Hwf Hr. pose proof (join_frase_single s r Hwf Hr) as Hlen.
  destruct (join_frase s r) as [| j l] eqn:E; [discriminate Hlen |].
  exists j. split; [left; reflexivity |].
  assert (In j (join_frase s r)) as Hj by (rewrite E; left; reflexivity).
  apply In_join_frase in Hj. tauto.
Qed.

Lemma selected_complete (conds : list Cond) (s : Store) (r : frase.row) :
  store_wf s -> In r (frases s) -> where_holds conds r = true ->
  exists j, In j (selected conds s) /\ frase.f j = r.
Proof.
  intros Hwf Hr Hw. destruct (join_frase_some s r Hwf Hr) as (j & Hj & E).
  exists j. split; [| exact E].
  unfold selected. apply In_order_by_fecha_desc. apply in_flat_map.
  exists r. split; [| exact Hj]. apply filter_In. tauto.
Qed.

(** X15: on a store reachable under the schema, with a limit that is at
    least the number of stored quotes, [findAll] misses no quote: every
    stored quote that meets the conditions of the filters is loaded into
    one of the quotes it resolves to. *)
Theorem Frase_findAll_complete (fs : Frase.filters) (limit : Z) (w : World) :
  Reachable (store w) ->
  available w ->
  Z.of_nat (length (frases (store w))) <= limit ->
  exists rows w',
    Frase.findAll fs limit 0 w = (Return rows, w')
    /\ forall r, In r (frases (store w)) ->
                 where_holds (Frase.findAll_where fs) r = true ->
                 exists j, frase.f j = r
                           /\ In (Frase.constructor (Frase.of_row j)) rows.
Proof.
  intros Hreach Hav Hlimit.
  pose proof (Reachable_wf _ Hreach) as Hwf.
  assert (0 <= limit) as Hl by lia.
  rewrite (Frase_findAll_selected fs limit 0 w Hav Hl (Z.le_refl 0)).
  eexists. eexists. split; [reflexivity |].
  intros r Hr Hw.
  destruct (selected_complete _ _ r Hwf Hr Hw) as (j & Hj & E).
  exists j. split; [exact E |].
  apply (in_map (fun row => Frase.constructor (Frase.of_row row))).
  cbn [Z.to_nat skipn].
  rewrite firstn_all2; [exact Hj |].
  pose proof (joined_rows_count (Frase.findAll_where fs) (store w) Hwf) as Hn.
  fold (selected (Frase.findAll_where fs) (store w)) in Hn.
  assert (count_frases (Frase.findAll_where fs) (store w)
          <= Z.of_nat (length (frases (store w)))) as Hle.
  { unfold count_frases. apply Nat2Z.inj_le. apply filter_length_le. }
  lia.
Qed.

Lemma Frase_findAll_complete_witness :
  let w := world_of sample_store in
  Reachable (store w) /\ available w
  /\ Z.of_nat (length (frases (store w))) <= 50
  /\ In thanks (frases (store w))
  /\ where_holds (Frase.findAll_where only_published) thanks = true
  /\ exists rows w' j,
       Frase.findAll only_published 50 0 w = (Return rows, w')
       /\ frase.f j = thanks
       /\ In (Frase.constructor (Frase.of_row j)) rows.
Proof.
  cbv zeta.
  assert (available (world_of sample_store)) as Hav by (right; reflexivity).
  assert (Z.of_nat (length (frases (store (world_of sample_store)))) <= 50)
    as Hl by (vm_compute; discriminate).
  assert (In thanks (frases (store (world_of sample_store)))) as Hin
    by (right; left; reflexivity).
  destruct (Frase_findAll_complete only_published 50 (world_of sample_store)
              sample_store_Reachable Hav Hl) as (rows & w' & Hf & Hall).
  destruct (Hall thanks Hin eq_refl) as (j & Hj & Hq).
  split; [exact sample_store_Reachable |]. split; [exact Hav |].
  split; [exact Hl |]. split; [exact Hin |]. split; [reflexivity |].
  exists rows, w', j. split; [exact Hf |]. split; [exact Hj | exact Hq].
Defined.

(** ** The transitions of a quote *)

Lemma update_frase_accepted_at (t a : jsstring) (d : option JsDate)
    (at_ : option Z) (st : jsstring) (c id : Z) (s : Store) :
  includes status_enum st = true ->
  datetime_of d = Some at_ ->
  categoria_exists s c = true ->
  exists n,
    update_frase t a d st (Some c) id s
    = (inr (OkPacket n 0),
       with_frases s
         (map (fun r => if frase.id_quote r =? id
                        then set_frase t a at_ st c r else r)
            (frases s))).
Proof.
  intros Hst Hd Hc. unfold update_frase.
  destruct (existsb (fun r => frase.id_quote r =? id) (frases s)) eqn:He;
    cbn [negb].
  - rewrite Hst, Hd, Hc. cbn [negb]. exists 1. reflexivity.
  - exists 0. f_equal.
    rewrite map_unchanged.
    + destruct s; reflexivity.
    + intros r Hr.
      rewrite (existsb_false_forall _ _ He r Hr). reflexivity.
Qed.

(** A transition to a status of the enumeration, with no date or with an
    instant after now, on a quote whose other fields are valid and whose
    category exists: the instance takes the status and the date, and the
    row of its identifier is rewritten with them. *)
Lemma Frase_transition_eval (q : Frase.t) (w : World) (id c : Z)
    (st : jsstring) (d : option JsDate) :
  Frase.id_quote q = Some id ->
  remaining_fields_valid q ->
  Frase.categoria_id q = Some c ->
  categoria_exists (store w) c = true ->
  available w ->
  In st status_enum ->
  (st = js "scheduled" -> d <> None) ->
  (forall x, d = Some x -> exists ms, x = Instant ms /\ clock w < ms) ->
  Frase.update (transition st d) (q, w)
  = (Return (Frase.merge (transition st d) q),
     (Frase.merge (transition st d) q,
      with_execution (connected w)
        (with_frases (store w)
           (map (fun r => if frase.id_quote r =? id
                          then moved_row q c st (column_of d) r else r)
              (frases (store w))))
        (UpdateFrase (Frase.texto q) (Frase.autor q) d st (Some c) id))).
Proof.
  intros Hid [Hmin Hmax Hau Hcr Hca] Hc Hex Hav Hst Hsched Hfuture.
  rewrite (Frase_update_eval _ q w id Hid). cbv zeta.
  set (q1 := Frase.merge (transition st d) q).
  assert (Frase.validate (clock w) q1 = accepted) as Hv.
  { apply Frase_validate_accepts. constructor; subst q1; cbn; assumption. }
  rewrite Hv. cbn [isValid accepted].
  rewrite (query_available _ _ Hav). unfold Database.run.
  rewrite store_connected. cbn [execute].
  subst q1. cbn [Frase.merge merged transition Frase.p_texto Frase.p_autor
                   Frase.p_scheduled_at Frase.p_status Frase.p_categoria_id
                   Frase.texto Frase.autor Frase.scheduled_at Frase.status
                   Frase.categoria_id].
  rewrite Hc.
  assert (datetime_of d = Some (column_of d)) as Hd.
  { destruct d as [x |]; [| reflexivity].
    destruct (Hfuture x eq_refl) as (ms & -> & _). reflexivity. }
  destruct (update_frase_accepted_at (Frase.texto q) (Frase.autor q) d
              (column_of d) st c id (store w)
              (proj2 (includes_In _ _) Hst) Hd Hex) as (n & ->).
  reflexivity.
Qed.

(** X16: [schedule(date)] on a quote with an identifier. A date that is
    not after now is refused by the validation with the message on the
    future date and nothing is sent, the instance keeping the status
    scheduled and the date. A date after now, for a quote whose other
    fields are valid and whose category exists, is stored: the instance
    and the row of its identifier hold the status scheduled and that
    date, and the other rows are as before. *)
Theorem Frase_schedule_outcomes (q : Frase.t) (w : World) (id ms : Z) :
  Frase.id_quote q = Some id ->
  (ms <= clock w ->
   let r := Frase.schedule (Instant ms) (q, w) in
   (exists v, fst r = Throw (invalid_data v)
              /\ In Frase.msg_fecha_futura (errors v))
   /\ snd (snd r) = w
   /\ Frase.status (fst (snd r)) = js "scheduled"
   /\ Frase.scheduled_at (fst (snd r)) = Some (Instant ms))
  /\ (clock w < ms ->
      remaining_fields_valid q ->
      store_takes_update q w ->
      exists q' w' c,
        Frase.schedule (Instant ms) (q, w) = (Return q', (q', w'))
        /\ Frase.status q' = js "scheduled"
        /\ Frase.scheduled_at q' = Some (Instant ms)
        /\ Frase.categoria_id q = Some c
        /\ frases (store w')
           = map (fun r => if frase.id_quote r =? id
                           then moved_row q c (js "scheduled") (Some ms) r
                           else r)
               (frases (store w))).
Proof.
  intros Hid. split.
  - intros Hpast. cbv zeta. unfold Frase.schedule.
    set (p := {| Frase.p_id_quote := None; Frase.p_texto := None;
                 Frase.p_autor := None; Frase.p_fecha_creacion := None;
                 Frase.p_scheduled_at := Some (Some (Instant ms));
                 Frase.p_status := Some (js "scheduled");
                 Frase.p_creado_por := None; Frase.p_categoria_id := None |}).
    assert (In Frase.msg_fecha_futura
              (errors (Frase.validate (clock w) (Frase.merge p q)))) as Hin.
    { rewrite Frase_validate_collect. cbn [errors validation_of].
      apply In_collect. unfold Frase_checks. do 7 right. left.
      cbn [Frase.merge merged p Frase.p_scheduled_at Frase.scheduled_at
             date_le_now].
      f_equal. apply Z.leb_le. exact Hpast. }
    assert (isValid (Frase.validate (clock w) (Frase.merge p q)) = false)
      as Hv.
    { rewrite Frase_validate_collect in *. cbn [errors validation_of] in Hin.
      apply (invalid_of_In _ _ Hin). }
    rewrite (Frase_update_invalid p q w id Hid Hv). cbn [fst snd].
    split; [eexists; split; [reflexivity | exact Hin] |].
    repeat split.
  - intros Hfuture Hrem (Hav & c & Hc & Hex).
    assert (In (js "scheduled") status_enum) as Hst
      by (right; left; reflexivity).
    pose proof (Frase_transition_eval q w id c (js "scheduled")
                  (Some (Instant ms)) Hid Hrem Hc Hex Hav Hst) as He.
    unfold Frase.schedule.
    change {| Frase.p_id_quote := None; Frase.p_texto := None;
              Frase.p_autor := None; Frase.p_fecha_creacion := None;
              Frase.p_scheduled_at := Some (Some (Instant ms));
              Frase.p_status := Some (js "scheduled");
              Frase.p_creado_por := None; Frase.p_categoria_id := None |}
      with (transition (js "scheduled") (Some (Instant ms))).
    rewrite He.
    + eexists. eexists. exists c. repeat split. exact Hc.
    + intros _. discriminate.
    + intros x Hx. injection Hx as <-. exists ms. split; [reflexivity | lia].
Qed.

Lemma Frase_schedule_outcomes_witness :
  let q := loaded thanks (js "Ana") (js "Hope") in
  let w := world_of sample_store in
  Frase.id_quote q = Some 2
  /\ 50 <= clock w
  /\ snd (snd (Frase.schedule (Instant 50) (q, w))) = w
  /\ clock w < 60
  /\ remaining_fields_valid q
  /\ store_takes_update q w
  /\ exists q' w',
       Frase.schedule (Instant 60) (q, w) = (Return q', (q', w'))
       /\ map frase.scheduled_at (frases (store w')) = [Some 100; Some 60]
       /\ map frase.status (frases (store w'))
          = [js "scheduled"; js "scheduled"].
Proof.
  cbv zeta.
  assert (remaining_fields_valid (loaded thanks (js "Ana") (js "Hope")))
    as Hr.
  { constructor.
    - vm_compute. discriminate.
    - vm_compute. discriminate.
    - vm_compute. discriminate.
    - exists 1. split; [reflexivity | lia].
    - exists 1. split; [reflexivity | lia]. }
  assert (store_takes_update (loaded thanks (js "Ana") (js "Hope"))
            (world_of sample_store)) as Hs.
  { split; [right; reflexivity |]. exists 1. split; reflexivity. }
  assert (50 <= clock (world_of sample_store)) as Hpast
    by (vm_compute; discriminate).
  assert (clock (world_of sample_store) < 60) as Hfut
    by (vm_compute; reflexivity).
  destruct (proj1 (Frase_schedule_outcomes
                     (loaded thanks (js "Ana") (js "Hope"))
                     (world_of sample_store) 2 50 eq_refl) Hpast)
    as (_ & Hsame & _).
  destruct (proj2 (Frase_schedule_outcomes
                     (loaded thanks (js "Ana") (js "Hope"))
                     (world_of sample_store) 2 60 eq_refl) Hfut Hr Hs)
    as (q' & w' & c & Hsch & _ & _ & Hc & Hrows).
  assert (c = 1) as -> by (vm_compute in Hc; congruence).
  split; [reflexivity |]. split; [exact Hpast |]. split; [exact Hsame |].
  split; [exact Hfut |]. split; [exact Hr |]. split; [exact Hs |].
  exists q', w'. split; [exact Hsch |]. rewrite Hrows. split; reflexivity.
Defined.

(** Keys come from the counters, so every stored quote has a positive
    one. *)
Lemma execute_keys_positive (now : Z) (q : Stmt) (s : Store) :
  store_positive s -> quote_keys_positive s ->
  quote_keys_positive (snd (execute now q s)).
Proof.
  intros [_ _ Hq] Hk.
  destruct q; cbn [execute];
    unfold insert_usuario, update_usuario, update_usuario_password,
      delete_usuario, insert_categoria, update_categoria, delete_categoria,
      insert_frase, update_frase, delete_frase, select_frases;
    split_branches; intros r Hr;
    cbn [snd frases with_frases with_usuarios with_categorias] in Hr;
    try (apply Hk; exact Hr);
    try (apply filter_In in Hr; apply Hk; tauto);
    try (apply in_map_iff in Hr; destruct Hr as (r0 & <- & Hr0);
         destruct (frase.id_quote r0 =? _); cbn; apply Hk; exact Hr0);
    try (apply in_app_iff in Hr; destruct Hr as [Hr | [<- | []]];
         [apply Hk; exact Hr | cbn; exact Hq]).
Qed.

Lemma Reachable_keys_positive (s : Store) :
  Reachable s -> quote_keys_positive s.
Proof.
  induction 1 as [a | s now q Hs IH].
  - intros r [].
  - apply execute_keys_positive; [apply Reachable_positive; exact Hs | exact IH].
Qed.

(** The store an accepted transition leaves is one that statements lead
    to. *)
Lemma transition_Reachable (q : Frase.t) (s : Store) (id c : Z)
    (st : jsstring) (d : option JsDate) (at_ : option Z) :
  Reachable s ->
  In st status_enum ->
  datetime_of d = Some at_ ->
  categoria_exists s c = true ->
  Reachable
    (with_frases s
       (map (fun r => if frase.id_quote r =? id
                      then moved_row q c st at_ r else r)
          (frases s))).
Proof.
  intros Hs Hst Hd Hc.
  pose proof (reachable_step s 0
                (UpdateFrase (Frase.texto q) (Frase.autor q) d st (Some c) id)
                Hs) as H.
  cbn [execute] in H.
  destruct (update_frase_accepted_at (Frase.texto q) (Frase.autor q) d at_ st
              c id s (proj2 (includes_In _ _) Hst) Hd Hc) as (n & E).
  rewrite E in H. exact H.
Qed.

(** X17: a quote that [publish()] has stored is among the quotes
    [findPublished] lists. On a store reachable under the schema that
    holds the row of the quote, after a [publish()] the store accepts, a
    [findPublished] whose limit is at least the number of stored quotes
    resolves to a list with a quote of that identifier, carrying the
    status published, no scheduled date and the text of the instance. *)
Theorem Frase_publish_then_findPublished (q : Frase.t) (w : World)
    (id limit : Z) :
  Reachable (store w) ->
  Frase.id_quote q = Some id ->
  remaining_fields_valid q ->
  store_takes_update q w ->
  In id (frase_ids (store w)) ->
  Z.of_nat (length (frases (store w))) <= limit ->
  exists q' w' rows w'',
    Frase.publish (q, w) = (Return q', (q', w'))
    /\ Frase.findPublished limit 0 w' = (Return rows, w'')
    /\ exists x, In x rows
                 /\ Frase.id_quote x = Some id
                 /\ Frase.status x = js "published"
                 /\ Frase.scheduled_at x = None
                 /\ Frase.texto x = Frase.texto q.
Proof.
  intros Hreach Hid Hrem (Hav & c & Hc & Hex) Hin Hlimit.
  assert (In (js "published") status_enum) as Hst
    by (right; right; left; reflexivity).
  pose proof (Frase_transition_eval q w id c (js "published") None
                Hid Hrem Hc Hex Hav Hst) as He.
  unfold Frase.publish.
  change {| Frase.p_id_quote := None; Frase.p_texto := None;
            Frase.p_autor := None; Frase.p_fecha_creacion := None;
            Frase.p_scheduled_at := Some None;
            Frase.p_status := Some (js "published");
            Frase.p_creado_por := None; Frase.p_categoria_id := None |}
    with (transition (js "published") None).
  rewrite He; [| intros E; discriminate E | intros x E; discriminate E].
  cbn [column_of].
  set (rows' := map (fun r => if frase.id_quote r =? id
                              then moved_row q c (js "published") None r
                              else r)
                  (frases (store w))).
  set (s' := with_frases (store w) rows').
  set (w' := with_execution (connected w) s' _).
  assert (Reachable s') as Hreach'
    by (apply (transition_Reachable q (store w) id c (js "published") None
                 None Hreach Hst eq_refl Hex)).
  pose proof (Reachable_wf _ Hreach') as Hwf'.
  assert (available w') as Hav' by (apply available_after_execution; exact Hav).
  assert (store w' = s') as Hs' by reflexivity.
  unfold frase_ids in Hin. apply in_map_iff in Hin.
  destruct Hin as (r & Hr & Hrin).
  assert (In (moved_row q c (js "published") None r) (frases s')) as Hmoved.
  { cbn [s' frases with_frases]. unfold rows'. apply in_map_iff.
    exists r. rewrite (proj2 (Z.eqb_eq _ _) Hr). tauto. }
  assert (0 <= limit) as Hl by lia.
  pose proof (Frase_findAll_selected
                {| Frase.f_status := Some (js "published");
                   Frase.f_categoria_id := None;
                   Frase.f_creado_por := None; Frase.f_search := None |}
                limit 0 w' Hav' Hl (Z.le_refl 0)) as Hf.
  rewrite Hs' in Hf.
  destruct (selected_complete
              (Frase.findAll_where
                 {| Frase.f_status := Some (js "published");
                    Frase.f_categoria_id := None;
                    Frase.f_creado_por := None; Frase.f_search := None |})
              s' _ Hwf' Hmoved eq_refl) as (j & Hj & Ej).
  exists (Frase.merge (transition (js "published") None) q), w'.
  eexists. eexists. split; [reflexivity |]. split; [exact Hf |].
  exists (Frase.constructor (Frase.of_row j)). split.
  - apply (in_map (fun row => Frase.constructor (Frase.of_row row))).
    cbn [Z.to_nat skipn].
    rewrite firstn_all2; [exact Hj |].
    pose proof (joined_rows_count
                  (Frase.findAll_where
                     {| Frase.f_status := Some (js "published");
                        Frase.f_categoria_id := None;
                        Frase.f_creado_por := None;
                        Frase.f_search := None |}) s' Hwf') as Hn.
    fold (selected (Frase.findAll_where
                      {| Frase.f_status := Some (js "published");
                         Frase.f_categoria_id := None;
                         Frase.f_creado_por := None;
                         Frase.f_search := None |}) s') in Hn.
    assert (count_frases
              (Frase.findAll_where
                 {| Frase.f_status := Some (js "published");
                    Frase.f_categoria_id := None;
                    Frase.f_creado_por := None; Frase.f_search := None |}) s'
            <= Z.of_nat (length (frases (store w)))) as Hle.
    { unfold count_frases. apply Nat2Z.inj_le.
      etransitivity; [apply filter_length_le |].
      cbn [s' frases with_frases]. unfold rows'. rewrite length_map.
      apply Nat.le_refl. }
    lia.
  - pose proof (Reachable_keys_positive _ Hreach r Hrin) as Hpos.
    unfold Frase.constructor, Frase.of_row.
    cbn [Frase.id_quote Frase.status Frase.scheduled_at Frase.texto
           Frase.d_id_quote Frase.d_status Frase.d_scheduled_at
           Frase.d_texto].
    rewrite Ej. unfold moved_row, set_frase.
    cbn [frase.id_quote frase.status frase.scheduled_at frase.texto
           option_map].
    rewrite or_null_nonzero by lia. rewrite or_string_some.
    rewrite Hr. repeat split.
Qed.

Lemma Frase_publish_then_findPublished_witness :
  let q := loaded gift (js "Ana") (js "Hope") in
  let w := world_of sample_store in
  Reachable (store w)
  /\ Frase.id_quote q = Some 1
  /\ remaining_fields_valid q
  /\ store_takes_update q w
  /\ In 1 (frase_ids (store w))
  /\ Z.of_nat (length (frases (store w))) <= 10
  /\ exists q' w' rows w'',
       Frase.publish (q, w) = (Return q', (q', w'))
       /\ Frase.findPublished 10 0 w' = (Return rows, w'')
       /\ map Frase.id_quote rows = [Some 2; Some 1].
Proof.
  cbv zeta.
  assert (remaining_fields_valid (loaded gift (js "Ana") (js "Hope"))) as Hr.
  { constructor.
    - vm_compute. discriminate.
    - vm_compute. discriminate.
    - vm_compute. discriminate.
    - exists 1. split; [reflexivity | lia].
    - exists 1. split; [reflexivity | lia]. }
  assert (store_takes_update (loaded gift (js "Ana") (js "Hope"))
            (world_of sample_store)) as Hs.
  { split; [right; reflexivity |]. exists 1. split; reflexivity. }
  assert (In 1 (frase_ids (store (world_of sample_store)))) as Hin
    by (left; reflexivity).
  assert (Z.of_nat (length (frases (store (world_of sample_store)))) <= 10)
    as Hl by (vm_compute; discriminate).
  destruct (Frase_publish_then_findPublished
              (loaded gift (js "Ana") (js "Hope")) (world_of sample_store)
              1 10 sample_store_Reachable eq_refl Hr Hs Hin Hl)
    as (q' & w' & rows & w'' & Hp & Hf & _).
  split; [exact sample_store_Reachable |]. split; [reflexivity |].
  split; [exact Hr |]. split; [exact Hs |]. split; [exact Hin |].
  split; [exact Hl |].
  exists q', w', rows, w''. split; [exact Hp |]. split; [exact Hf |].
  vm_compute in Hp. injection Hp as _ _ <-.
  vm_compute in Hf. injection Hf as <- _. reflexivity.
Defined.

(** ** Creating and deleting a quote *)

Lemma Frase_create_eval (q : Frase.t) (w : World) :
  isValid (Frase.validate (clock w) q) = true ->
  available w ->
  let answer := insert_frase (clock w) (Frase.texto q) (Frase.autor q)
                  (Frase.scheduled_at q) (Frase.status q)
                  (Frase.creado_por q) (Frase.categoria_id q) (store w) in
  let w1 := with_execution (connected w) (snd answer)
              (InsertFrase (Frase.texto q) (Frase.autor q)
                 (Frase.scheduled_at q) (Frase.status q)
                 (Frase.creado_por q) (Frase.categoria_id q)) in
  Frase.create (q, w)
  = match fst answer with
    | inl code =>
        (Throw (if String.eqb code "ER_NO_REFERENCED_ROW_2"
                then Error "El usuario o categoría especificados no existen"
                else DriverError code), (q, w1))
    | inr _ =>
        (Return (Frase.set_created (last_insert_id (snd answer)) (clock w) q),
         (Frase.set_created (last_insert_id (snd answer)) (clock w) q,
          with_execution w1 (snd answer) SelectLastInsertId))
    end.
Proof.
  intros Hv Hav. cbv zeta.
  cbv [Frase.create bind this assign on_world try_catch ret throw new_Date
         Frase.on_missing_reference fst snd].
  rewrite Hv. cbv [negb].
  rewrite (query_available _ _ Hav). unfold Database.run.
  rewrite store_connected, clock_connected. cbn [execute].
  destruct (insert_frase (clock w) (Frase.texto q) (Frase.autor q)
              (Frase.scheduled_at q) (Frase.status q) (Frase.creado_por q)
              (Frase.categoria_id q) (store w)) as [[code | res] s'];
    cbn [fst snd has_code].
  - destruct (String.eqb code "ER_NO_REFERENCED_ROW_2"); reflexivity.
  - rewrite getLastInsertId_connected.
    + cbn [store clock with_execution]. rewrite clock_connected.
      reflexivity.
    + cbn [connection with_execution]. apply connection_connected. exact Hav.
Qed.

Lemma Frase_valid_status (now : Z) (q : Frase.t) :
  isValid (Frase.validate now q) = true -> In (Frase.status q) status_enum.
Proof.
  intros Hv. rewrite Frase_validate_collect in Hv.
  apply isValid_validation_of, collect_nil_iff in Hv.
  unfold Frase_checks in Hv. cbn [forallb fst] in Hv.
  repeat (apply andb_true_iff in Hv; destruct Hv as [? Hv]).
  match goal with
  | H : negb (negb (includes _ _)) = true |- _ =>
      rewrite negb_involutive in H; apply includes_In; exact H
  end.
Qed.

(** X18: [create] of a quote that passes [validate()] and whose scheduled
    date, when it has one, is a valid date. When the user and the
    category it names are stored, one row is appended, with the key the
    store generated and the text, author, scheduled date, status, creator
    and category of the instance; the instance gets that key and a
    creation time and keeps its other fields; the users and the
    categories are as before. When one of the two is not stored, [create]
    throws the error on the missing user or category, the store is as
    before and the instance is unchanged. *)
Theorem Frase_create_outcomes (q : Frase.t) (w : World) (u c : Z) :
  available w ->
  isValid (Frase.validate (clock w) q) = true ->
  Frase.scheduled_at q <> Some InvalidDate ->
  Frase.creado_por q = Some u ->
  Frase.categoria_id q = Some c ->
  (usuario_exists (store w) u = true ->
   categoria_exists (store w) c = true ->
   exists q' w1 row,
     Frase.create (q, w) = (Return q', (q', w1))
     /\ Frase.id_quote q' = Some (next_id_quote (store w))
     /\ Frase.fecha_creacion q' <> None
     /\ Frase_columns q' = Frase_columns q
     /\ Frase.creado_por q' = Some u
     /\ frases (store w1) = frases (store w) ++ [row]
     /\ frase.id_quote row = next_id_quote (store w)
     /\ frase.texto row = Frase.texto q
     /\ frase.autor row = Some (Frase.autor q)
     /\ frase.scheduled_at row = column_of (Frase.scheduled_at q)
     /\ frase.status row = Frase.status q
     /\ frase.creado_por row = u
     /\ frase.categoria_id row = c
     /\ usuarios (store w1) = usuarios (store w)
     /\ categorias (store w1) = categorias (store w))
  /\ (usuario_exists (store w) u = false
      \/ categoria_exists (store w) c = false ->
      let r := Frase.create (q, w) in
      fst r = Throw (Error "El usuario o categoría especificados no existen")
      /\ store (snd (snd r)) = store w
      /\ fst (snd r) = q).
Proof.
  intros Hav Hv Hdate Hu Hc.
  pose proof (Frase_create_eval q w Hv Hav) as He. cbv zeta in He.
  assert (includes status_enum (Frase.status q) = true) as Hst
    by (apply includes_In; exact (Frase_valid_status _ _ Hv)).
  assert (datetime_of (Frase.scheduled_at q)
          = Some (column_of (Frase.scheduled_at q))) as Hd.
  { destruct (Frase.scheduled_at q) as [[ms |] |]; try reflexivity.
    contradiction Hdate. reflexivity. }
  unfold insert_frase in He. rewrite Hu, Hc, Hst, Hd in He.
  cbn [negb] in He.
  split.
  - intros Hue Hce. rewrite Hue, Hce in He.
    cbn [andb negb fst snd last_insert_id] in He.
    rewrite He. eexists. eexists. eexists. split; [reflexivity |].
    cbn [store with_execution frases usuarios categorias next_id_quote
           Frase.set_created Frase.id_quote Frase.fecha_creacion
           Frase.creado_por].
    split; [reflexivity |]. split; [discriminate |].
    split; [reflexivity |]. split; [exact Hu |].
    split; [reflexivity |]. repeat split.
  - intros Hmiss. cbv zeta.
    assert (usuario_exists (store w) u && categoria_exists (store w) c
            = false) as Hand.
    { destruct Hmiss as [-> | ->];
        [reflexivity | apply andb_false_r]. }
    rewrite Hand in He. cbn [negb fst snd String.eqb] in He.
    rewrite He. cbn [fst snd store with_execution]. repeat split.
Qed.

Lemma Frase_create_outcomes_witness :
  let q := draft_with_text gift_text in
  let w := world_of sample_store in
  available w
  /\ isValid (Frase.validate (clock w) q) = true
  /\ Frase.scheduled_at q <> Some InvalidDate
  /\ Frase.creado_por q = Some 1
  /\ Frase.categoria_id q = Some 1
  /\ usuario_exists (store w) 1 = true
  /\ categoria_exists (store w) 1 = true
  /\ exists q' w1,
       Frase.create (q, w) = (Return q', (q', w1))
       /\ Frase.id_quote q' = Some 3
       /\ map frase.id_quote (frases (store w1)) = [1; 2; 3]
       /\ map frase.status (frases (store w1))
          = [js "scheduled"; js "published"; js "draft"].
Proof.
  cbv zeta.
  assert (available (world_of sample_store)) as Hav by (right; reflexivity).
  assert (Frase.scheduled_at (draft_with_text gift_text) <> Some InvalidDate)
    as Hd by discriminate.
  destruct (proj1 (Frase_create_outcomes (draft_with_text gift_text)
                     (world_of sample_store) 1 1 Hav eq_refl Hd
                     eq_refl eq_refl)
              eq_refl eq_refl)
    as (q' & w1 & row & Hc & Hid & _ & _ & _ & Hrows & Hrid & _ & _ & _
        & Hst & _).
  split; [exact Hav |]. split; [reflexivity |]. split; [exact Hd |].
  split; [reflexivity |]. split; [reflexivity |].
  split; [reflexivity |]. split; [reflexivity |].
  exists q', w1. split; [exact Hc |]. split; [exact Hid |].
  rewrite Hrows, !map_app. cbn [map]. rewrite Hrid, Hst.
  split; reflexivity.
Defined.

Lemma Frase_delete_eval (q : Frase.t) (w : World) (id : Z) :
  Frase.id_quote q = Some id ->
  available w ->
  Frase.delete (q, w)
  = (delete_outcome (fst (delete_frase id (store w))),
     (q, with_execution (connected w) (snd (delete_frase id (store w)))
           (DeleteFrase id))).
Proof.
  intros Hid Hav.
  cbv [Frase.delete bind this on_world try_catch throw ret fst snd].
  rewrite Hid. rewrite (query_available _ _ Hav). unfold Database.run.
  rewrite store_connected. cbn [execute].
  destruct (delete_frase id (store w)) as [[code | res] s'];
    cbn [fst snd delete_outcome]; [reflexivity |].
  destruct res; reflexivity.
Qed.

(** X19: [delete] of a quote without an identifier throws before anything
    is sent. With an identifier, when the server can be reached, it
    resolves to whether a row had that identifier; the quotes with another
    identifier, the users and the categories are as before, no quote with
    the identifier is left, and a second [delete] resolves to [false]. *)
Theorem Frase_delete_removes_row (q : Frase.t) (w : World) :
  (Frase.id_quote q = None ->
   Frase.delete (q, w)
   = (Throw (Error "No se puede eliminar una frase sin ID"), (q, w)))
  /\ (forall id,
         Frase.id_quote q = Some id ->
         available w ->
         let r := Frase.delete (q, w) in
         let w' := snd (snd r) in
         fst r = Return (existsb (fun x => frase.id_quote x =? id)
                           (frases (store w)))
         /\ frases (store w')
            = filter (fun x => negb (frase.id_quote x =? id))
                (frases (store w))
         /\ usuarios (store w') = usuarios (store w)
         /\ categorias (store w') = categorias (store w)
         /\ ~ In id (frase_ids (store w'))
         /\ fst (Frase.delete (q, w')) = Return false).
Proof.
  split.
  - intros Hid. cbv [Frase.delete bind this throw fst snd].
    rewrite Hid. reflexivity.
  - intros id Hid Hav. cbv zeta.
    rewrite (Frase_delete_eval q w id Hid Hav). cbn [fst snd].
    set (w' := with_execution _ _ _).
    assert (available w') as Hav'
      by (apply available_after_execution; exact Hav).
    rewrite (Frase_delete_eval q w' id Hid Hav'). cbn [fst].
    assert (frases (store w')
            = filter (fun x => negb (frase.id_quote x =? id))
                (frases (store w))) as Hrows.
    { unfold w'. cbn [store with_execution]. unfold delete_frase.
      destruct (existsb (fun x => frase.id_quote x =? id) (frases (store w)))
        eqn:He; cbn [negb snd frases with_frases]; [reflexivity |].
      symmetry. apply filter_all. intros x Hx. apply negb_true_iff.
      exact (existsb_false_forall _ _ He x Hx). }
    assert (existsb (fun x => frase.id_quote x =? id) (frases (store w'))
            = false) as Hgone.
    { rewrite Hrows. apply not_true_is_false. intros He.
      apply existsb_exists in He. destruct He as (x & Hx & E).
      apply filter_In in Hx. destruct Hx as [_ Hx].
      rewrite E in Hx. discriminate Hx. }
    split; [| split; [exact Hrows | split; [| split; [| split]]]].
    + unfold delete_frase.
      destruct (existsb (fun x => frase.id_quote x =? id) (frases (store w)));
        reflexivity.
    + unfold w'. cbn [store with_execution]. unfold delete_frase.
      destruct (existsb (fun x => frase.id_quote x =? id) (frases (store w)));
        reflexivity.
    + unfold w'. cbn [store with_execution]. unfold delete_frase.
      destruct (existsb (fun x => frase.id_quote x =? id) (frases (store w)));
        reflexivity.
    + intros Hin. unfold frase_ids in Hin. apply in_map_iff in Hin.
      destruct Hin as (x & E & Hx).
      pose proof (existsb_false_forall _ _ Hgone x Hx) as Hne.
      cbv beta in Hne. rewrite E, Z.eqb_refl in Hne. discriminate Hne.
    + unfold delete_frase. rewrite Hgone. reflexivity.
Qed.

Lemma Frase_delete_removes_row_witness :
  let q := loaded gift (js "Ana") (js "Hope") in
  let w := world_of sample_store in
  Frase.id_quote q = Some 1
  /\ available w
  /\ fst (Frase.delete (q, w)) = Return true
  /\ frases (store (snd (snd (Frase.delete (q, w))))) = [thanks]
  /\ fst (Frase.delete (q, snd (snd (Frase.delete (q, w))))) = Return false.
Proof.
  cbv zeta.
  assert (available (world_of sample_store)) as Hav by (right; reflexivity).
  destruct (proj2 (Frase_delete_removes_row
                     (loaded gift (js "Ana") (js "Hope"))
                     (world_of sample_store)) 1 eq_refl Hav)
    as (Hr & Hrows & _ & _ & _ & Hagain).
  split; [reflexivity |]. split; [exact Hav |].
  split; [exact Hr |]. split; [exact Hrows | exact Hagain].
Defined.

(** X20: [draft()] undoes [schedule(date)]. For a quote with an
    identifier whose other fields are valid, in front of a store that
    takes the update, a [schedule] with a date after now followed by
    [draft()] both resolve; the instance ends with the status draft and
    no scheduled date, and the store is left as one [draft()] alone
    would leave it: the row of the identifier with the status draft and
    a null date, every other row as before. *)
Theorem Frase_schedule_then_draft (q : Frase.t) (w : World) (id ms : Z) :
  Frase.id_quote q = Some id ->
  remaining_fields_valid q ->
  store_takes_update q w ->
  clock w < ms ->
  exists q1 w1 q2 w2 c,
    Frase.schedule (Instant ms) (q, w) = (Return q1, (q1, w1))
    /\ Frase.draft (q1, w1) = (Return q2, (q2, w2))
    /\ Frase.status q2 = js "draft"
    /\ Frase.scheduled_at q2 = None
    /\ Frase.categoria_id q = Some c
    /\ frases (store w2)
       = map (fun r => if frase.id_quote r =? id
                       then moved_row q c (js "draft") None r else r)
           (frases (store w))
    /\ store w2 = store (snd (snd (Frase.draft (q, w)))).
Proof.
  intros Hid Hrem (Hav & c & Hc & Hex) Hfuture.
  assert (In (js "scheduled") status_enum) as Hs1
    by (right; left; reflexivity).
  assert (In (js "draft") status_enum) as Hs2 by (left; reflexivity).
  unfold Frase.schedule, Frase.draft.
  change {| Frase.p_id_quote := None; Frase.p_texto := None;
            Frase.p_autor := None; Frase.p_fecha_creacion := None;
            Frase.p_scheduled_at := Some (Some (Instant ms));
            Frase.p_status := Some (js "scheduled");
            Frase.p_creado_por := None; Frase.p_categoria_id := None |}
    with (transition (js "scheduled") (Some (Instant ms))).
  change {| Frase.p_id_quote := None; Frase.p_texto := None;
            Frase.p_autor := None; Frase.p_fecha_creacion := None;
            Frase.p_scheduled_at := Some None;
            Frase.p_status := Some (js "draft");
            Frase.p_creado_por := None; Frase.p_categoria_id := None |}
    with (transition (js "draft") None).
  rewrite (Frase_transition_eval q w id c (js "scheduled")
             (Some (Instant ms)) Hid Hrem Hc Hex Hav Hs1);
    [| intros _ E; discriminate E
     | intros x E; injection E as <-; exists ms; split; [reflexivity | lia]].
  rewrite (Frase_transition_eval q w id c (js "draft") None
             Hid Hrem Hc Hex Hav Hs2);
    [| intros E; discriminate E | intros x E; discriminate E].
  set (q1 := Frase.merge (transition (js "scheduled") (Some (Instant ms))) q).
  set (w1 := with_execution (connected w) _ _).
  assert (remaining_fields_valid q1) as Hrem1.
  { destruct Hrem as [H1 H2 H3 H4 H5]. constructor; assumption. }
  assert (available w1) as Hav1
    by (apply available_after_execution; exact Hav).
  assert (categoria_exists (store w1) c = true) as Hex1 by exact Hex.
  assert (Frase.update (transition (js "draft") None) (q1, w1)
          = (Return (Frase.merge (transition (js "draft") None) q1),
             (Frase.merge (transition (js "draft") None) q1,
              with_execution (connected w1)
                (with_frases (store w1)
                   (map (fun r => if frase.id_quote r =? id
                                  then moved_row q1 c (js "draft")
                                         (column_of None) r
                                  else r)
                      (frases (store w1))))
                (UpdateFrase (Frase.texto q1) (Frase.autor q1) None
                   (js "draft") (Some c) id)))) as He3.
  { apply (Frase_transition_eval q1 w1 id c (js "draft") None
             Hid Hrem1 Hc Hex1 Hav1 Hs2);
      [intros E; discriminate E | intros x E; discriminate E]. }
  eexists. eexists. eexists. eexists. exists c.
  split; [reflexivity |]. split; [exact He3 |].
  split; [reflexivity |]. split; [reflexivity |]. split; [exact Hc |].
  assert (map (fun r => if frase.id_quote r =? id
                        then moved_row q1 c (js "draft") (column_of None) r
                        else r)
            (frases (store w1))
          = map (fun r => if frase.id_quote r =? id
                          then moved_row q c (js "draft") None r else r)
              (frases (store w))) as Hrows.
  { unfold w1. cbn [store with_execution frases with_frases].
    rewrite map_map. apply map_ext. intros r.
    destruct (frase.id_quote r =? id) eqn:E.
    - cbn [moved_row set_frase frase.id_quote]. rewrite E. reflexivity.
    - rewrite E. reflexivity. }
  split.
  - cbn [store with_execution frases with_frases snd]. exact Hrows.
  - cbn [store with_execution snd]. rewrite Hrows.
    unfold w1. cbn [store with_execution].
    unfold with_frases. cbn. reflexivity.
Qed.

Lemma Frase_schedule_then_draft_witness :
  let q := loaded thanks (js "Ana") (js "Hope") in
  let w := world_of sample_store in
  Frase.id_quote q = Some 2
  /\ remaining_fields_valid q
  /\ store_takes_update q w
  /\ clock w < 60
  /\ exists q1 w1 q2 w2,
       Frase.schedule (Instant 60) (q, w) = (Return q1, (q1, w1))
       /\ Frase.draft (q1, w1) = (Return q2, (q2, w2))
       /\ map frase.status (frases (store w2))
          = [js "scheduled"; js "draft"]
       /\ map frase.scheduled_at (frases (store w2)) = [Some 100; None].
Proof.
  cbv zeta.
  assert (remaining_fields_valid (loaded thanks (js "Ana") (js "Hope")))
    as Hr.
  { constructor.
    - vm_compute. discriminate.
    - vm_compute. discriminate.
    - vm_compute. discriminate.
    - exists 1. split; [reflexivity | lia].
    - exists 1. split; [reflexivity | lia]. }
  assert (store_takes_update (loaded thanks (js "Ana") (js "Hope"))
            (world_of sample_store)) as Hs.
  { split; [right; reflexivity |]. exists 1. split; reflexivity. }
  assert (clock (world_of sample_store) < 60) as Hfut
    by (vm_compute; reflexivity).
  destruct (Frase_schedule_then_draft
              (loaded thanks (js "Ana") (js "Hope")) (world_of sample_store)
              2 60 eq_refl Hr Hs Hfut)
    as (q1 & w1 & q2 & w2 & c & H1 & H2 & _ & _ & Hc & Hrows & _).
  assert (c = 1) as -> by (vm_compute in Hc; congruence).
  split; [reflexivity |]. split; [exact Hr |]. split; [exact Hs |].
  split; [exact Hfut |].
  exists q1, w1, q2, w2. split; [exact H1 |]. split; [exact H2 |].
  rewrite Hrows. split; reflexivity.
Defined.

(** ** The connection *)

(** The answer to a statement other than [SELECT LAST_INSERT_ID()], and
    the tables and counters it leaves, do not depend on what the
    connection remembers. *)
Lemma execute_new_session (now : Z) (q : Stmt) (s : Store) :
  q <> SelectLastInsertId ->
  fst (execute now q (new_session s)) = fst (execute now q s)
  /\ new_session (snd (execute now q (new_session s)))
     = new_session (snd (execute now q s)).
Proof.
  intros Hq. destruct s as [us cs fs nu nc nq li od].
  destruct q; try (contradiction Hq; reflexivity); cbn [execute];
    unfold insert_usuario, update_usuario, update_usuario_password,
      delete_usuario, insert_categoria, update_categoria, delete_categoria,
      insert_frase, update_frase, delete_frase, select_frases,
      usuario_exists, categoria_exists, count_frases_de_categoria,
      count_frases, with_usuarios, with_categorias, with_frases, new_session;
    cbn [usuarios categorias frases next_id_user next_id_category
           next_id_quote last_insert_id on_delete];
    split_branches; cbn [fst snd usuarios categorias frases next_id_user
                           next_id_category next_id_quote last_insert_id
                           on_delete];
    split; reflexivity.
Qed.

(** X21: after [disconnect()] there is no connection, and the tables and
    the key counters are untouched. [getLastInsertId] then throws its own
    error and sends nothing, while [query], in front of a server that is
    up, connects again by itself: for every statement other than
    [SELECT LAST_INSERT_ID()] it answers as it would have without the
    [disconnect()], leaves the same tables and counters, and leaves the
    connection open. The last insert id does not survive: asked on the
    connection that replaces a closed one, it is 0. *)
Theorem Database_query_reconnects (q : Stmt) (w : World) :
  server_up w = true ->
  q <> SelectLastInsertId ->
  let w0 := snd (Database.disconnect w) in
  fst (Database.disconnect w) = Return tt
  /\ Database.isConnected w0 = false
  /\ new_session (store w0) = new_session (store w)
  /\ trace w0 = trace w
  /\ Database.getLastInsertId w0
     = (Throw (Error "No hay conexión activa"), w0)
  /\ fst (Database.query q w0) = fst (Database.query q w)
  /\ new_session (store (snd (Database.query q w0)))
     = new_session (store (snd (Database.query q w)))
  /\ trace (snd (Database.query q w0)) = trace w ++ [q]
  /\ Database.isConnected (snd (Database.query q w0)) = true
  /\ (connection w = true ->
      fst (Database.query SelectLastInsertId w0) = Return (CountRow 0)).
Proof.
  intros Hup Hq. cbv zeta.
  assert (available w) as Hav by (right; exact Hup).
  assert (available (snd (Database.disconnect w))) as Hav0.
  { right. unfold Database.disconnect.
    destruct (connection w); cbn; exact Hup. }
  assert (connection (snd (Database.disconnect w)) = false) as Hc0.
  { unfold Database.disconnect.
    destruct (connection w) eqn:E; cbn; [reflexivity | exact E]. }
  assert (store (snd (Database.disconnect w)) = store w
          \/ store (snd (Database.disconnect w)) = new_session (store w))
    as Hs0.
  { unfold Database.disconnect.
    destruct (connection w); [right | left]; reflexivity. }
  assert (clock (snd (Database.disconnect w)) = clock w) as Hk0.
  { unfold Database.disconnect. destruct (connection w); reflexivity. }
  assert (trace (snd (Database.disconnect w)) = trace w) as Ht0.
  { unfold Database.disconnect. destruct (connection w); reflexivity. }
  split; [unfold Database.disconnect; destruct (connection w); reflexivity |].
  split; [exact Hc0 |].
  split; [destruct Hs0 as [-> | ->]; reflexivity |].
  split; [exact Ht0 |].
  split.
  { unfold Database.getLastInsertId, bind, throw. cbv beta.
    rewrite Hc0. reflexivity. }
  assert (forall q', fst (Database.query q' (snd (Database.disconnect w)))
                     = match fst (execute (clock w) q'
                                    (store (snd (Database.disconnect w)))) with
                       | inl code => Throw (DriverError code)
                       | inr r => Return r
                       end) as Hfst.
  { intros q'. rewrite (query_available q' _ Hav0). unfold Database.run.
    rewrite store_connected, clock_connected, Hk0.
    destruct (execute (clock w) q' _) as [[code | res] s']; reflexivity. }
  rewrite Hfst.
  rewrite (query_available q _ Hav0), (query_available q _ Hav).
  unfold Database.run.
  rewrite !store_connected, !clock_connected, Hk0.
  destruct (execute_new_session (clock w) q (store w) Hq) as (Ef & Es).
  assert (fst (execute (clock w) q (store (snd (Database.disconnect w))))
          = fst (execute (clock w) q (store w))) as Ef0
    by (destruct Hs0 as [-> | ->]; [reflexivity | exact Ef]).
  assert (new_session
            (snd (execute (clock w) q (store (snd (Database.disconnect w)))))
          = new_session (snd (execute (clock w) q (store w)))) as Es0
    by (destruct Hs0 as [-> | ->]; [reflexivity | exact Es]).
  split.
  { rewrite Ef0.
    destruct (execute (clock w) q (store w)) as [[code | res] s'];
      reflexivity. }
  split.
  { destruct (execute (clock w) q (store (snd (Database.disconnect w))))
      as [[code | res] s'];
      destruct (execute (clock w) q (store w)) as [[code' | res'] s''];
      cbn [fst snd store with_execution] in *; exact Es0. }
  split.
  { destruct (execute (clock w) q (store (snd (Database.disconnect w))))
      as [[code | res] s'];
      cbn [fst snd trace with_execution];
      rewrite trace_connected, Ht0; reflexivity. }
  split.
  { destruct (execute (clock w) q (store (snd (Database.disconnect w))))
      as [[code | res] s'];
      cbn [fst snd Database.isConnected connection with_execution];
      apply (connection_connected _ Hav0). }
  intros Hc. rewrite (Hfst SelectLastInsertId).
  unfold Database.disconnect. rewrite Hc. reflexivity.
Qed.

Lemma Database_query_reconnects_witness :
  let w := snd (Database.query (InsertCategoria (js "Joy") [])
                  (world_of sample_store)) in
  server_up w = true
  /\ CountFrases [] <> SelectLastInsertId
  /\ connection w = true
  /\ fst (Database.getLastInsertId w) = Return 2
  /\ Database.isConnected (snd (Database.disconnect w)) = false
  /\ fst (Database.query (CountFrases []) (snd (Database.disconnect w)))
     = Return (CountRow 2)
  /\ Database.isConnected
       (snd (Database.query (CountFrases []) (snd (Database.disconnect w))))
     = true
  /\ fst (Database.query SelectLastInsertId (snd (Database.disconnect w)))
     = Return (CountRow 0).
Proof.
  cbv zeta.
  assert (CountFrases [] <> SelectLastInsertId) as Hq by discriminate.
  destruct (Database_query_reconnects (CountFrases [])
              (snd (Database.query (InsertCategoria (js "Joy") [])
                      (world_of sample_store)))
              eq_refl Hq)
    as (_ & Hd & _ & _ & _ & Hsame & _ & _ & Hc & Hlast).
  split; [reflexivity |]. split; [exact Hq |]. split; [reflexivity |].
  split; [reflexivity |]. split; [exact Hd |].
  split; [rewrite Hsame; reflexivity |].
  split; [exact Hc | exact (Hlast eq_refl)].
Defined.

(** ** Renaming a category *)

Lemma Categoria_update_eval (p : Categoria.patch) (c : Categoria.t)
    (w : World) (id : Z) :
  Categoria.id_category c = Some id ->
  isValid (Categoria.validate (Categoria.merge p c)) = true ->
  available w ->
  let c1 := Categoria.merge p c in
  let answer := update_categoria (Categoria.nombre c1)
                  (Categoria.descripcion c1) id (store w) in
  let w1 := with_execution (connected w) (snd answer)
              (UpdateCategoria (Categoria.nombre c1)
                 (Categoria.descripcion c1) id) in
  Categoria.update p (c, w)
  = match fst answer with
    | inl code =>
        (Throw (if String.eqb code "ER_DUP_ENTRY"
                then Error "Ya existe una categoría con ese nombre"
                else DriverError code), (c1, w1))
    | inr _ => (Return c1, (c1, w1))
    end.
Proof.
  intros Hid Hv Hav. cbv zeta.
  cbv [Categoria.update bind this assign on_world try_catch ret throw
         Categoria.on_duplicate fst snd].
  rewrite Hid. cbv beta iota. rewrite Hv. cbv [negb].
  rewrite (query_available _ _ Hav). unfold Database.run.
  rewrite store_connected. cbn [execute].
  destruct (update_categoria (Categoria.nombre (Categoria.merge p c))
              (Categoria.descripcion (Categoria.merge p c)) id (store w))
    as [[code | res] s']; cbn [fst snd has_code].
  - destruct (String.eqb code "ER_DUP_ENTRY"); reflexivity.
  - reflexivity.
Qed.

(** X22: [update] of a category with an identifier whose merged fields
    pass [validate()]. When no other stored category has the new name,
    it resolves to the instance; the row of the identifier takes the name
    and the description of the instance, the other categories, the users
    and the quotes are as before, so the category keeps its quotes. When
    the row is stored and another category has the name, it throws the
    error on the existing name, the store is as before and the instance
    holds the merged values. *)
Theorem Categoria_update_outcomes (p : Categoria.patch) (c : Categoria.t)
    (w : World) (id : Z) :
  Categoria.id_category c = Some id ->
  available w ->
  isValid (Categoria.validate (Categoria.merge p c)) = true ->
  let c1 := Categoria.merge p c in
  ((forall r, In r (categorias (store w)) -> categoria.id_category r <> id ->
              sql_eq (categoria.nombre r) (Categoria.nombre c1) = false) ->
   exists w1,
     Categoria.update p (c, w) = (Return c1, (c1, w1))
     /\ categorias (store w1)
        = map (fun r => if categoria.id_category r =? id
                        then categoria_row_of id c1 else r)
            (categorias (store w))
     /\ usuarios (store w1) = usuarios (store w)
     /\ frases (store w1) = frases (store w)
     /\ count_frases_de_categoria id (store w1)
        = count_frases_de_categoria id (store w))
  /\ (categoria_exists (store w) id = true ->
      (exists r, In r (categorias (store w))
                 /\ categoria.id_category r <> id
                 /\ sql_eq (categoria.nombre r) (Categoria.nombre c1) = true) ->
      let r := Categoria.update p (c, w) in
      fst r = Throw (Error "Ya existe una categoría con ese nombre")
      /\ store (snd (snd r)) = store w
      /\ fst (snd r) = c1).
Proof.
  intros Hid Hav Hv. cbv zeta.
  pose proof (Categoria_update_eval p c w id Hid Hv Hav) as He.
  cbv zeta in He. unfold update_categoria in He.
  split.
  - intros Hfree.
    assert (existsb
              (fun r => negb (categoria.id_category r =? id)
                        && sql_eq (categoria.nombre r)
                             (Categoria.nombre (Categoria.merge p c)))
              (categorias (store w)) = false) as Hno.
    { apply not_true_is_false. intros Hx. apply existsb_exists in Hx.
      destruct Hx as (r & Hr & E). apply andb_true_iff in E.
      destruct E as [E1 E2]. apply negb_true_iff, Z.eqb_neq in E1.
      rewrite (Hfree r Hr E1) in E2. discriminate E2. }
    destruct (categoria_exists (store w) id) eqn:Hex; cbn [negb] in He.
    + rewrite Hno in He. cbn [fst snd] in He. rewrite He.
      eexists. split; [reflexivity |].
      cbn [store with_execution with_categorias categorias usuarios frases].
      repeat split.
      apply map_ext. intros r.
      destruct (categoria.id_category r =? id) eqn:E; [| reflexivity].
      apply Z.eqb_eq in E. unfold categoria_row_of. rewrite E. reflexivity.
    + cbn [fst snd] in He. rewrite He.
      eexists. split; [reflexivity |].
      cbn [store with_execution]. repeat split.
      symmetry. apply map_unchanged. intros r Hr.
      rewrite (existsb_false_forall _ _ Hex r Hr). reflexivity.
  - intros Hex (r & Hr & Hne & Hsame).
    assert (existsb
              (fun r => negb (categoria.id_category r =? id)
                        && sql_eq (categoria.nombre r)
                             (Categoria.nombre (Categoria.merge p c)))
              (categorias (store w)) = true) as Hdup.
    { apply existsb_exists. exists r. split; [exact Hr |].
      rewrite Hsame, (proj2 (Z.eqb_neq _ _) Hne). reflexivity. }
    rewrite Hex, Hdup in He. cbn [negb fst snd String.eqb] in He.
    rewrite He. cbn [fst snd store with_execution]. repeat split.
Qed.

Lemma Categoria_update_outcomes_witness :
  let c := Categoria_of_row hope in
  let p := {| Categoria.p_id_category := None;
              Categoria.p_nombre := Some (js "Joy");
              Categoria.p_descripcion := None |} in
  let w := world_of sample_store in
  Categoria.id_category c = Some 1
  /\ available w
  /\ isValid (Categoria.validate (Categoria.merge p c)) = true
  /\ (forall r, In r (categorias (store w)) -> categoria.id_category r <> 1 ->
                sql_eq (categoria.nombre r)
                  (Categoria.nombre (Categoria.merge p c)) = false)
  /\ exists w1,
       Categoria.update p (c, w)
       = (Return (Categoria.merge p c), (Categoria.merge p c, w1))
       /\ map categoria.nombre (categorias (store w1)) = [js "Joy"]
       /\ count_frases_de_categoria 1 (store w1) = 2.
Proof.
  cbv zeta.
  assert (available (world_of sample_store)) as Hav by (right; reflexivity).
  assert (forall r, In r (categorias (store (world_of sample_store))) ->
                    categoria.id_category r <> 1 ->
                    sql_eq (categoria.nombre r)
                      (Categoria.nombre
                         (Categoria.merge
                            {| Categoria.p_id_category := None;
                               Categoria.p_nombre := Some (js "Joy");
                               Categoria.p_descripcion := None |}
                            (Categoria_of_row hope))) = false) as Hfree.
  { intros r [<- | []] Hne. exfalso. apply Hne. reflexivity. }
  destruct (proj1 (Categoria_update_outcomes
                     {| Categoria.p_id_category := None;
                        Categoria.p_nombre := Some (js "Joy");
                        Categoria.p_descripcion := None |}
                     (Categoria_of_row hope) (world_of sample_store) 1
                     eq_refl Hav eq_refl) Hfree)
    as (w1 & Hu & Hrows & _ & _ & Hcount).
  split; [reflexivity |]. split; [exact Hav |]. split; [reflexivity |].
  split; [exact Hfree |].
  exists w1. split; [exact Hu |].
  rewrite Hrows, Hcount. split; reflexivity.
Defined.
